(** * Quantiphyse: data grids, resampling and slicing ([quantiphyse/data/qpdata.py])

    A shallow embedding of the volume-data core of Quantiphyse: the
    [DataGrid] / [OrthoSlice] geometry classes and the [QpData] base class
    with its value lookup, masking, resampling, slicing and ROI methods.

    Conventions of the embedding.
    - The code is Python 2 ([range(3)] is a list, [del data_axes[i]] works,
      [sorted(l) == range(3)] is a list comparison).
    - Floating-point numbers are idealised as exact rationals [Q]; equality
      of computed numbers is stated with [Qeq].  No NaN, infinity or
      negative zero exists in this model.
    - Sample arrays hold floats.  Integer types are of fixed width, as on
      x86-64 Linux: [np.int] is 64 bits wide, and a float beyond the range
      of an integer type is converted to the smallest integer of the type.
    - Co-ordinates are vectors of rationals; where the code looks at the
      type that Numpy gives to an array of co-ordinates (integers or
      floats), that type is an argument of the function ([dtype]).
    - A 2-D Numpy array used as a matrix is a list of rows; an N-D sample
      array is a nested list ([ndarray]).
    - A Python exception is a value of type [exn]; a function that may raise
      returns a [Result].
    - Objects that are shared and mutated ([DataGrid], [QpData]) live in a
      [Heap]; methods of [QpData] are computations in the state-and-error
      monad [St].
    - Library routines that the module calls but does not define
      ([np.sqrt] inside [np.linalg.norm], [scipy.ndimage.affine_transform],
      [pg.affineSlice], [sf]) are operations of the class [Externals]. *)

From Stdlib Require Import QArith Qround Qabs ZArith List Lia Lqa Permutation Sorted.
From stdpp Require Import base gmap list strings.

(* ===================================================================== *)
(** * Python exceptions and results *)
(* ===================================================================== *)

Inductive exn : Type :=
  | RuntimeError (msg : string)
  | TypeError (msg : string)
  | QpException (msg : string)
  | NotImplementedError (msg : string)
  | IndexError
  | ValueError
  | LinAlgError
  | ZeroDivisionError
  | BadReference.  (* a reference to no object: cannot occur in Python *)

Inductive Result (A : Type) : Type :=
  | Ok (a : A)
  | Raise (e : exn).
Arguments Ok {A} a.
Arguments Raise {A} e.

Class Monad (M : Type -> Type) : Type := {
  ret : forall {A : Type}, A -> M A;
  bind : forall {A B : Type}, M A -> (A -> M B) -> M B
}.

Declare Scope monad_scope.
Delimit Scope monad_scope with monad.
Notation "x <- c1 ;; c2" := (bind c1 (fun x => c2))
  (at level 100, c1 at next level, right associativity) : monad_scope.
Notation "c1 ;;; c2" := (bind c1 (fun _ => c2))
  (at level 100, right associativity) : monad_scope.
Open Scope monad_scope.

#[global] Instance Result_Monad : Monad Result := {
  ret := fun A a => Ok a;
  bind := fun A B m k => match m with Ok a => k a | Raise e => Raise e end
}.

Definition is_ok {A : Type} (r : Result A) : bool :=
  match r with Ok _ => true | Raise _ => false end.

(** [for x in l: ...] with a body that may raise. *)
Fixpoint mapM {A B : Type} (f : A -> Result B) (l : list A) : Result (list B) :=
  match l with
  | [] => Ok []
  | x :: r => y <- f x ;; ys <- mapM f r ;; Ok (y :: ys)
  end.

(** A loop that threads an accumulator and may raise. *)
Fixpoint foldM {A B : Type} (f : A -> B -> Result A) (l : list B) (acc : A) : Result A :=
  match l with
  | [] => Ok acc
  | x :: r => acc' <- f acc x ;; foldM f r acc'
  end.

(** [enumerate(l)] *)
Definition enumerate {A : Type} (l : list A) : list (nat * A) := zip (seq 0 (length l)) l.

(** [l[i]] on a Python list (non-negative index). *)
Definition py_nth {A : Type} (l : list A) (i : nat) : Result A :=
  match l !! i with Some x => Ok x | None => Raise IndexError end.

(** [l.index(x)]: first position of [x], [ValueError] when absent. *)
Fixpoint py_index (l : list nat) (x : nat) : Result nat :=
  match l with
  | [] => Raise ValueError
  | y :: r => if Nat.eqb y x then Ok O else i <- py_index r x ;; Ok (S i)
  end.

(** [sorted(l)] on a list of small integers. *)
Fixpoint py_insert (x : nat) (l : list nat) : list nat :=
  match l with
  | [] => [x]
  | y :: r => if Nat.leb x y then x :: l else y :: py_insert x r
  end.

Definition py_sorted (l : list nat) : list nat := foldr py_insert [] l.

(** [range(n)] in Python 2: a list. *)
Definition py_range (n : nat) : list nat := seq 0 n.

Definition list_nat_eqb (a b : list nat) : bool := bool_decide (a = b).

(* ===================================================================== *)
(** * Numpy: vectors and matrices *)
(* ===================================================================== *)

Module Np.
Local Open Scope Q_scope.

Definition vector := list Q.
Definition matrix := list (list Q).

Fixpoint qsum (l : list Q) : Q :=
  match l with [] => 0 | x :: r => x + qsum r end.

(** [m[i, j]] *)
Definition mget (m : matrix) (i j : nat) : Q := nth j (nth i m []) 0.

(** [m[:, j]] *)
Definition col (m : matrix) (j : nat) : vector := map (fun r => nth j r 0) m.

(** [m[:len(v), j] = v] *)
Definition set_col (m : matrix) (j : nat) (v : vector) : matrix :=
  zip_with (fun r x => <[j:=x]> r) m v ++ drop (length v) m.

(** [m[:3, :3]] *)
Definition sub33 (m : matrix) : matrix := map (take 3) (take 3 m).

Definition shape_is (m : matrix) (r c : nat) : bool :=
  Nat.eqb (length m) r && forallb (fun row => Nat.eqb (length row) c) m.

Definition vadd (a b : vector) : vector := zip_with Qplus a b.
Definition vsub (a b : vector) : vector := zip_with Qminus a b.
Definition vneg (a : vector) : vector := map Qopp a.
(** [a * k] and [k * a] for a scalar [k] *)
Definition vscale (k : Q) (a : vector) : vector := map (fun x => x * k) a.
Definition vscale_l (k : Q) (a : vector) : vector := map (fun x => k * x) a.
Definition vabs (a : vector) : vector := map Qabs a.

Definition dot (a b : vector) : Q := qsum (zip_with Qmult a b).

(** [np.dot(m, v)] for a 2-D [m] and 1-D [v]; shapes must be aligned. *)
Definition dot_mv (m : matrix) (v : vector) : Result vector :=
  if forallb (fun row => Nat.eqb (length row) (length v)) m
  then Ok (map (fun row => dot row v) m)
  else Raise ValueError.

(** [np.dot(a, b)] for two 2-D arrays. *)
Definition dot_mm (a b : matrix) : Result matrix :=
  if forallb (fun row => Nat.eqb (length row) (length b)) a
  then Ok (map (fun row => map (fun j => dot row (col b j))
                               (seq 0 (length (nth 0 b [])))) a)
  else Raise ValueError.

Definition tabulate (r c : nat) (f : nat -> nat -> Q) : matrix :=
  map (fun i => map (f i) (seq 0 c)) (seq 0 r).

Definition identity (n : nat) : matrix :=
  tabulate n n (fun i j => if Nat.eqb i j then 1 else 0).

Definition zeros2 (r c : nat) : matrix := tabulate r c (fun _ _ => 0).

(** [np.diagonal(m)] *)
Definition diagonal (m : matrix) : vector :=
  map (fun i => mget m i i) (seq 0 (length m)).

(** [np.diag(v)] for a 1-D [v] *)
Definition diag (v : vector) : matrix :=
  tabulate (length v) (length v) (fun i j => if Nat.eqb i j then nth i v 0 else 0).

(** Determinant by expansion along the first row, and the inverse by
    cofactors; this is the function that [np.linalg.inv] computes, which
    raises [LinAlgError] on a singular or non-square argument.  (In exact
    arithmetic: on a matrix whose determinant is exactly 0, rounding may
    make [np.linalg.inv] return a matrix of huge entries instead; the
    theorems below that depend on the inverse take the determinant to be
    other than 0.) *)
Definition minor (m : matrix) (i j : nat) : matrix := map (delete j) (delete i m).

Definition sgn (k : nat) : Q := if Nat.even k then 1 else -1.

Fixpoint det (n : nat) (m : matrix) : Q :=
  match n with
  | O => 1
  | S k => qsum (map (fun j => sgn j * mget m 0 j * det k (minor m 0 j)) (seq 0 n))
  end.

Definition linalg_inv (m : matrix) : Result matrix :=
  let n := length m in
  if negb (shape_is m n n) then Raise LinAlgError
  else if Qeq_bool (det n m) 0 then Raise LinAlgError
  else Ok (tabulate n n (fun i j => sgn (i + j) * det (pred n) (minor m j i) / det n m)).

(** [np.argmax(v)]: position of the first maximal entry. *)
Fixpoint argmax_from (best_i : nat) (best : Q) (i : nat) (l : vector) : nat :=
  match l with
  | [] => best_i
  | x :: r => if Qle_bool x best then argmax_from best_i best (S i) r
              else argmax_from i x (S i) r
  end.

Definition argmax (v : vector) : Result nat :=
  match v with
  | [] => Raise ValueError
  | x :: r => Ok (argmax_from 0 x 1 r)
  end.

Definition Qlt_bool (a b : Q) : bool := negb (Qle_bool b a).

(** [np.all(np.abs(a - b) < tol)] for two matrices of the same shape. *)
Definition all_close (a b : matrix) (tol : Q) : bool :=
  forallb (fun p => forallb (fun q => Qlt_bool (Qabs (fst q - snd q)) tol)
                            (zip (fst p) (snd p)))
          (zip a b).

(** [np.array_equal(a, b)] *)
Definition array_equal (a b : matrix) : bool :=
  Nat.eqb (length a) (length b)
  && forallb (fun p => Nat.eqb (length (fst p)) (length (snd p))
                       && forallb (fun q => Qeq_bool (fst q) (snd q)) (zip (fst p) (snd p)))
             (zip a b).

(** [int(math.floor(v + 0.5))] *)
Definition round_half_up (v : Q) : Z := Qfloor (v + (1 # 2)).

(** [math.copysign(1, v)] *)
Definition copysign1 (v : Q) : Q := if Qlt_bool v 0 then -1 else 1.

(** Equality of computed vectors and matrices, entry by entry. *)
Definition veq (a b : vector) : Prop := Forall2 Qeq a b.
Definition meq (a b : matrix) : Prop := Forall2 veq a b.

(* --------------------------------------------------------------------- *)
(** ** N-dimensional sample arrays *)

#[warnings="-register-all"]
Inductive ndarray (A : Type) : Type :=
  | Scalar (x : A)
  | Arr (l : list (ndarray A)).
Arguments Scalar {A} x.
Arguments Arr {A} l.

(** [a.shape], read along the first element of every axis. *)
Fixpoint shape {A : Type} (a : ndarray A) : list nat :=
  match a with
  | Scalar _ => []
  | Arr l => length l :: match l with [] => [] | x :: _ => shape x end
  end.

Definition ndim {A : Type} (a : ndarray A) : nat := length (shape a).

(** [a.flatten()] in C order. *)
Fixpoint flatten {A : Type} (a : ndarray A) : list A :=
  match a with
  | Scalar x => [x]
  | Arr l => concat (map flatten l)
  end.

(** An elementwise operation ([a > 0], [a.astype(t)], ...). *)
Fixpoint amap {A B : Type} (f : A -> B) (a : ndarray A) : ndarray B :=
  match a with
  | Scalar x => Scalar (f x)
  | Arr l => Arr (map (amap f) l)
  end.

(** [np.zeros(shape)], [np.ones(shape)] *)
Fixpoint full {A : Type} (shp : list nat) (v : A) : ndarray A :=
  match shp with
  | [] => Scalar v
  | n :: r => Arr (replicate n (full r v))
  end.

(** An array is rectangular with extents [shp]. *)
Fixpoint has_shape {A : Type} (shp : list nat) (a : ndarray A) : Prop :=
  match shp with
  | [] => exists x, a = Scalar x
  | n :: r => exists l, a = Arr l /\ length l = n /\ Forall (has_shape r) l
  end.

(** One entry of an index expression [a[i, j:k:s, None]]. *)
Inductive index : Type :=
  | IInt (i : Z)
  | ISlice (start stop step : option Z)
  | INewaxis.

(** An integer index on an axis of length [n]; negative indices count from
    the end, anything else is an [IndexError]. *)
Definition norm_int (n : nat) (i : Z) : Result nat :=
  if (0 <=? i)%Z && (i <? Z.of_nat n)%Z then Ok (Z.to_nat i)
  else if (- Z.of_nat n <=? i)%Z && (i <? 0)%Z then Ok (Z.to_nat (i + Z.of_nat n))
  else Raise IndexError.

(** The positions that [slice(start, stop, step)] selects on an axis of
    length [n] (Python's [slice.indices]). *)
Definition slice_indices (n : Z) (start stop step : option Z) : Result (list nat) :=
  let st := default 1%Z step in
  if (st =? 0)%Z then Raise ValueError
  else if (0 <? st)%Z then
    let clamp v := if (v <? 0)%Z then Z.max (v + n) 0 else Z.min v n in
    let s := match start with None => 0%Z | Some v => clamp v end in
    let e := match stop with None => n | Some v => clamp v end in
    let count := Z.to_nat ((e - s + st - 1) / st) in
    Ok (map (fun k => Z.to_nat (s + st * Z.of_nat k)) (seq 0 count))
  else
    let clamp v := if (v <? 0)%Z then Z.max (v + n) (-1) else Z.min v (n - 1) in
    let s := match start with None => (n - 1)%Z | Some v => clamp v end in
    let e := match stop with None => (-1)%Z | Some v => clamp v end in
    let count := Z.to_nat ((s - e - st - 1) / (- st)) in
    Ok (map (fun k => Z.to_nat (s + st * Z.of_nat k)) (seq 0 count)).

(** Basic indexing [a[specs]]. *)
Fixpoint getitem {A : Type} (specs : list index) (a : ndarray A) : Result (ndarray A) :=
  match specs with
  | [] => Ok a
  | INewaxis :: rest => r <- getitem rest a ;; Ok (Arr [r])
  | IInt i :: rest =>
      match a with
      | Scalar _ => Raise IndexError
      | Arr l => k <- norm_int (length l) i ;; x <- py_nth l k ;; getitem rest x
      end
  | ISlice s e st :: rest =>
      match a with
      | Scalar _ => Raise IndexError
      | Arr l =>
          idx <- slice_indices (Z.of_nat (length l)) s e st ;;
          sub <- mapM (getitem rest) (omap (fun k => l !! k) idx) ;;
          Ok (Arr sub)
      end
  end.

Definition full_slice : index := ISlice None None None.


(** [a[i0, i1, ...]] with non-negative integers. *)
Definition get_at {A : Type} (a : ndarray A) (idx : list nat) : Result (ndarray A) :=
  getitem (map (fun i => IInt (Z.of_nat i)) idx) a.

(** Build an array of extents [shp] from its entries. *)
Fixpoint tabulateM {A : Type} (shp : list nat) (f : list nat -> Result (ndarray A))
  : Result (ndarray A) :=
  match shp with
  | [] => f []
  | n :: r => l <- mapM (fun i => tabulateM r (fun idx => f (i :: idx))) (seq 0 n) ;;
              Ok (Arr l)
  end.

(** [np.transpose(a, axes)]: axis [p] of the result is axis [axes[p]] of [a]. *)
Definition transpose {A : Type} (a : ndarray A) (axes : list nat) : Result (ndarray A) :=
  let shp := shape a in
  if negb (list_nat_eqb (py_sorted axes) (py_range (length shp))) then Raise ValueError
  else
    tabulateM (map (fun ax => nth ax shp O) axes)
      (fun idx => old <- mapM (fun k => p <- py_index axes k ;; py_nth idx p)
                              (py_range (length shp)) ;;
                  get_at a old).

(** [np.flip(a, axis)] *)
Fixpoint flip {A : Type} (axis : nat) (a : ndarray A) : Result (ndarray A) :=
  match a with
  | Scalar _ => Raise ValueError
  | Arr l =>
      match axis with
      | O => Ok (Arr (rev l))
      | S k => l' <- mapM (flip k) l ;; Ok (Arr l')
      end
  end.

(** [a.min()], [a.max()]; an empty array raises [ValueError]. *)
Definition amin (a : ndarray Q) : Result Q :=
  match flatten a with
  | [] => Raise ValueError
  | x :: r => Ok (fold_left (fun m y => if Qlt_bool y m then y else m) r x)
  end.

Definition amax (a : ndarray Q) : Result Q :=
  match flatten a with
  | [] => Raise ValueError
  | x :: r => Ok (fold_left (fun m y => if Qlt_bool m y then y else m) r x)
  end.

(** [np.mod(x, 1)] on a float. *)
Definition mod1 (x : Q) : Q := x - inject_Z (Qfloor x).

(** Truncation towards zero: the value of the cast of a float to an integer
    type, where it lies within the range of the type. *)
Definition trunc (x : Q) : Z := (Qnum x ÷ Zpos (Qden x))%Z.

(** [x.astype(np.int32)] and [x.astype(np.int)] on a float: truncation
    towards zero; a value beyond the range of the type gives the smallest
    integer of the type. *)
Definition to_int32 (x : Q) : Z :=
  let t := trunc x in
  if ((- 2 ^ 31 <=? t) && (t <? 2 ^ 31))%Z then t else (- 2 ^ 31)%Z.

Definition to_int64 (x : Q) : Z :=
  let t := trunc x in
  if ((- 2 ^ 63 <=? t) && (t <? 2 ^ 63))%Z then t else (- 2 ^ 63)%Z.

(** The type that [np.array] gives to a list of co-ordinates: integers when
    every co-ordinate is an integer, floats otherwise. *)
Inductive dtype : Type := int64 | float64.

(** [np.array(v, dtype=dt)] for a vector [v] of floats. *)
Definition astype (dt : dtype) (v : vector) : vector :=
  match dt with
  | float64 => v
  | int64 => map (fun x => inject_Z (to_int64 x)) v
  end.

(** [np.unique(l)]: the sorted distinct entries. *)
Fixpoint insert_unique (x : Z) (l : list Z) : list Z :=
  match l with
  | [] => [x]
  | y :: r => if (x <? y)%Z then x :: l
              else if (x =? y)%Z then l
              else y :: insert_unique x r
  end.

Definition unique (l : list Z) : list Z := foldr insert_unique [] l.

(** [d[m]] with a boolean array [m] over the leading axes of [d]. *)
Fixpoint bool_select {A : Type} (m : ndarray bool) (d : ndarray A) : list (ndarray A) :=
  match m with
  | Scalar b => if b then [d] else []
  | Arr lm =>
      match d with
      | Scalar _ => []
      | Arr ld => concat (zip_with bool_select lm ld)
      end
  end.

(** [out = np.zeros(d.shape); out[m] = d[m]] *)
Fixpoint masked_copy (m : ndarray bool) (d : ndarray Q) : ndarray Q :=
  match m with
  | Scalar b => if b then d else amap (fun _ => 0) d
  | Arr lm =>
      match d with
      | Scalar x => Scalar x
      | Arr ld => Arr (zip_with masked_copy lm ld)
      end
  end.

End Np.

(* ===================================================================== *)
(** * Routines of other libraries *)
(* ===================================================================== *)

(** The square root behind [np.linalg.norm], the interpolation routines of
    [scipy.ndimage] and of the private [functions] module, and the number
    formatter [quantiphyse.utils.sf].  Nothing is assumed of them. *)
Class Externals : Type := {
  np_sqrt : Q -> Q;
  affine_transform :
    Np.ndarray Q -> Np.matrix + Np.vector -> Np.vector -> list Z -> Z ->
    Result (Np.ndarray Q);
  affineSlice :
    Np.ndarray Q -> list nat -> Np.vector -> list Np.vector -> list nat -> Z ->
    option Q -> Result (Np.ndarray Q);
  sf : Np.ndarray Q -> string
}.

(** [np.linalg.norm(v)] *)
Definition linalg_norm `{Externals} (v : Np.vector) : Q :=
  np_sqrt (Np.qsum (map (fun x => x * x)%Q v)).

(** Tolerance for treating values as equal. *)
Definition EQ_TOL : Q := 1 # 1000.

Definition is_diagonal (mat : Np.matrix) : bool :=
  Np.all_close mat (Np.diag (Np.diagonal mat)) EQ_TOL.

Definition is_identity (mat : Np.matrix) : bool :=
  Np.all_close mat (Np.identity (length mat)) EQ_TOL.

(** Entries within [EQ_TOL] of 0 and of 1. *)
Definition near_zero (x : Q) : Prop := (Qabs (x - 0) < EQ_TOL)%Q.
Definition near_one (x : Q) : Prop := (Qabs (x - 1) < EQ_TOL)%Q.

(** A 4x4 matrix that is the identity within [EQ_TOL], entry by entry. *)
Definition near_identity (mat : Np.matrix) : Prop :=
  Forall2 (Forall2 (fun x e => Qabs (x - e) < EQ_TOL)%Q) mat (Np.identity 4).

(** [is_ortho_vector(vec, shape)]: [Some (axis, sign)] for the first
    component that carries the whole length of [vec] within
    [EQ_TOL / shape], [None] for [(None, None)]. *)
Fixpoint ortho_scan (tol md : Q) (axis : nat) (vec : Np.vector) : option (nat * Q) :=
  match vec with
  | [] => None
  | val :: r =>
      if Np.Qlt_bool (Qabs (Qabs (val / md) - 1)) tol
      then Some (axis, Np.copysign1 val)
      else ortho_scan tol md (S axis) r
  end.

Definition is_ortho_vector `{Externals} (vec : Np.vector) (shp : Z)
  : Result (option (nat * Q)) :=
  if (shp =? 0)%Z then Raise ZeroDivisionError
  else
    let tol := (EQ_TOL / inject_Z shp)%Q in
    let md := linalg_norm vec in
    Ok (ortho_scan tol md 0 vec).

(* ===================================================================== *)
(** * class DataGrid *)
(* ===================================================================== *)

Module DataGrid.

(** A regular 3D grid in world space.  [affine] is the 4x4 grid-to-world
    matrix, [origin] its last column, [transform] its 3x3 block. *)
Record t : Type := mk {
  shape : list Z;
  affine : Np.matrix;
  origin : Np.vector;
  transform : Np.matrix;
  inv_transform : Np.matrix;
  spacing : Np.vector;
  nvoxels : Z
}.

Definition __init__ `{Externals} (shp : list Z) (aff : Np.matrix) : Result t :=
  if negb (Nat.eqb (length shp) 3) then Raise (RuntimeError "Grid shape must be 3D")
  else if negb (Np.shape_is aff 4 4) then Raise (RuntimeError "Grid affine must be 4x4 matrix")
  else
    inv <- Np.linalg_inv (Np.sub33 aff) ;;
    Ok {| shape := shp;
          affine := aff;
          origin := take 3 (Np.col aff 3);
          transform := Np.sub33 aff;
          inv_transform := inv;
          spacing := map (fun i => linalg_norm (Np.col aff i)) (py_range 3);
          nvoxels := fold_left Z.mul shp 1%Z |}.

(** Transform grid co-ordinates to world co-ordinates; a fourth entry of
    [coords] is returned unchanged.  The cast of the origin to the type of
    [world_coords] leaves it as it is: the product has the type of the
    transform, which is the type of the origin, or is an array of floats. *)
Definition grid_to_world (self : t) (coords : Np.vector) (direction : bool)
  : Result Np.vector :=
  let vec := take 3 coords in
  world_coords <- Np.dot_mv (transform self) vec ;;
  let world_coords :=
    if negb direction then Np.vadd world_coords (origin self) else world_coords in
  if Nat.eqb (length coords) 4
  then c3 <- py_nth coords 3 ;; Ok (world_coords ++ [c3])
  else Ok world_coords.

(** Transform world co-ordinates to grid co-ordinates.  [dt] is the type
    of [np.array(coords[:3])]; the origin is cast to it before it is
    subtracted ([vec -= np.array(self.origin, dtype=vec.dtype)]). *)
Definition world_to_grid_as (dt : Np.dtype) (self : t) (coords : Np.vector)
    (direction : bool) : Result Np.vector :=
  let vec := take 3 coords in
  vec <- (if negb direction
          then if Nat.eqb (length vec) (length (origin self))
               then Ok (Np.vsub vec (Np.astype dt (origin self))) else Raise ValueError
          else Ok vec) ;;
  grid_coords <- Np.dot_mv (inv_transform self) vec ;;
  if Nat.eqb (length coords) 4
  then c3 <- py_nth coords 3 ;; Ok (grid_coords ++ [c3])
  else Ok grid_coords.

(** [world_to_grid] on co-ordinates that are floats. *)
Definition world_to_grid : t -> Np.vector -> bool -> Result Np.vector :=
  world_to_grid_as Np.float64.

(** Transform grid co-ordinates to another grid's co-ordinates.  [dt] is
    the type of the world co-ordinates that [grid_to_world] returns: they
    are integers only when the co-ordinates given and the affine of
    [from_grid] are all integers, and floats otherwise. *)
Definition grid_to_grid_as (dt : Np.dtype) (self : t) (coord : Np.vector)
    (from_grid to_grid : option t) (direction : bool) : Result Np.vector :=
  match from_grid, to_grid with
  | Some f, None =>
      world <- grid_to_world f coord direction ;;
      world_to_grid_as dt self world direction
  | None, Some g =>
      world <- grid_to_world self coord direction ;;
      world_to_grid_as dt g world direction
  | _, _ => Raise (RuntimeError "Exactly one of from_grid and to_grid must be specified")
  end.

(** [grid_to_grid] where the co-ordinates or the affine are floats. *)
Definition grid_to_grid : t -> Np.vector -> option t -> option t -> bool
                          -> Result Np.vector :=
  grid_to_grid_as Np.float64.

(** One pass of the loop over [dim] in [simplify_transforms]. *)
Definition order_step (mat absmat : Np.matrix) (acc : list nat * list nat) (dim : nat)
  : Result (list nat * list nat) :=
  newd <- Np.argmax (Np.col absmat dim) ;;
  Ok (fst acc ++ [newd],
      if Np.Qlt_bool (Np.mget mat newd dim) 0 then snd acc ++ [newd] else snd acc).

(** [new_mat[:3, 3] = new_mat[:3, 3] - new_mat[:3, dim] * (new_shape[dim]-1)] *)
Definition adjust_origin (new_shape : list Z) (new_mat : Np.matrix) (dim : nat)
  : Result Np.matrix :=
  n <- py_nth new_shape dim ;;
  Ok (Np.set_col new_mat 3
        (Np.vsub (take 3 (Np.col new_mat 3))
                 (Np.vscale (inject_Z (n - 1)) (take 3 (Np.col new_mat dim))))).

(** Convert the transformation into a re-ordering and flipping of axes and
    a final affine transformation.  [mat] is a 4x4 matrix at both call
    sites. *)
Definition simplify_transforms (self : t) (mat : Np.matrix)
  : Result (list nat * list nat * Np.matrix) :=
  let absmat := map Np.vabs mat in
  acc <- foldM (order_step mat absmat) (py_range 3) ([], []) ;;
  let dim_order := fst acc in
  let dim_flip := snd acc in
  let new_mat := mat in
  if list_nat_eqb (py_sorted dim_order) (py_range 3) then
    new_shape <- mapM (py_nth (shape self)) dim_order ;;
    let new_mat :=
      fold_left (fun nm p => Np.set_col nm (snd p) (Np.col mat (fst p)))
                (enumerate dim_order) new_mat in
    let new_mat :=
      fold_left (fun nm dim => Np.set_col nm dim (Np.vneg (Np.col nm dim)))
                dim_flip new_mat in
    new_mat <- foldM (adjust_origin new_shape) dim_flip new_mat ;;
    Ok (dim_order, dim_flip, new_mat)
  else
    Ok (py_range 3, [], new_mat).

(** A new grid in approximate RAS order, by axis transposition and flipping
    only. *)
Definition get_standard `{Externals} (self : t) : Result t :=
  r <- simplify_transforms self (affine self) ;;
  let reorder := fst (fst r) in
  let tmatrix := snd r in
  new_shape <- mapM (py_nth (shape self)) reorder ;;
  __init__ new_shape tmatrix.

(** [world_axes] of [get_ras_axes]: for each grid axis, the world axis on
    which its transform column is largest. *)
Definition world_axes (self : t) : Result (list nat) :=
  mapM (fun axis => Np.argmax (Np.vabs (Np.col (transform self) axis))) (py_range 3).

(** The grid axes which best correspond to the RAS axes, then [3]. *)
Definition get_ras_axes (self : t) : Result (list nat) :=
  wa <- world_axes self ;;
  grid_axes <- mapM (py_index wa) (py_range 3) ;;
  Ok (grid_axes ++ [3%nat]).

(** The grids that the constructor builds. *)
Definition constructed `{Externals} (g : t) : Prop :=
  exists shp aff, __init__ shp aff = Ok g.

(** Whether another grid matches this one. *)
Definition matches (self grid : t) : bool :=
  Np.array_equal (affine self) (affine grid)
  && bool_decide (shape self = shape grid).

(** What [simplify_transforms] aims at: each of the first three columns of
    [m] has its biggest number on the diagonal, and that number is not
    negative. *)
Definition dominant_diagonal (m : Np.matrix) : Prop :=
  forall d r, (d < 3)%nat -> (r < length m)%nat ->
    (Qabs (Np.mget m r d) <= Np.mget m d d)%Q.

End DataGrid.

(* ===================================================================== *)
(** * class OrthoSlice(DataGrid) *)
(* ===================================================================== *)

Module OrthoSlice.

(** A [DataGrid] defined as a 2D orthogonal slice through another grid,
    with the plane's two basis vectors and its normal. *)
Record t : Type := mk {
  super : DataGrid.t;
  basis : list Np.vector;
  normal : Np.vector
}.

(** One pass of the loop over [axis]; the state is [(affine, shape, col)]. *)
Definition place_axis (grid : DataGrid.t) (zaxis : nat)
    (st : Np.matrix * list Z * nat) (axis : nat) : Result (Np.matrix * list Z * nat) :=
  let aff := fst (fst st) in
  let shp := snd (fst st) in
  let c := snd st in
  if negb (Nat.eqb axis zaxis) then
    n <- py_nth (DataGrid.shape grid) axis ;;
    Ok (Np.set_col aff c (Np.col (DataGrid.affine grid) axis), <[c:=n]> shp, S c)
  else
    Ok (Np.set_col aff 2 (Np.col (DataGrid.affine grid) axis), shp, c).

Definition __init__ `{Externals} (grid : DataGrid.t) (zaxis : nat) (pos : Q) : Result t :=
  st <- foldM (place_axis grid zaxis) (py_range 3) (Np.zeros2 4 4, [1; 1; 1]%Z, O) ;;
  let aff := fst (fst st) in
  let shp := snd (fst st) in
  let aff := Np.set_col aff 3 (Np.vadd (Np.col (DataGrid.affine grid) 3)
                                      (Np.vscale_l pos (Np.col aff 2))) in
  g <- DataGrid.__init__ shp aff ;;
  Ok {| super := g;
        basis := [Np.col (DataGrid.transform g) 0; Np.col (DataGrid.transform g) 1];
        normal := Np.col (DataGrid.transform g) 2 |}.

End OrthoSlice.

(* ===================================================================== *)
(** * class QpData *)
(* ===================================================================== *)

Module QpData.

Definition loc := nat.

(** 3D or 4D data defined on a [DataGrid].  [grid] is a reference: several
    data objects may share one grid object.  [rawdata] is the array that the
    subclass serves from [raw()]; it is [None] for the bare base class. *)
Record t : Type := mk {
  name : string;
  grid : loc;
  nvols : Z;
  ndim : Z;
  fname : option string;
  dps : Z;
  raw_2dt : bool;
  _regions : option (list Z);
  _range : option (Q * Q);
  roi : bool;
  metadata : gmap string string;
  rawdata : option (Np.ndarray Q)
}.

(** The object store. *)
Record Heap : Type := mkHeap {
  grids : gmap loc DataGrid.t;
  objs : gmap loc t
}.

(** Computations that read and write the store and may raise; the store
    survives an exception. *)
Definition St (A : Type) : Type := Heap -> Result A * Heap.

#[global] Instance St_Monad : Monad St := {
  ret := fun A a h => (Ok a, h);
  bind := fun A B m k h =>
    match m h with
    | (Ok a, h') => k a h'
    | (Raise e, h') => (Raise e, h')
    end
}.

Definition lift {A : Type} (r : Result A) : St A := fun h => (r, h).
Definition raise {A : Type} (e : exn) : St A := fun h => (Raise e, h).

Definition get_grid (l : loc) : St DataGrid.t :=
  fun h => (match grids h !! l with Some g => Ok g | None => Raise BadReference end, h).

Definition get_data (l : loc) : St t :=
  fun h => (match objs h !! l with Some d => Ok d | None => Raise BadReference end, h).

Definition put_grid (l : loc) (g : DataGrid.t) : St unit :=
  fun h => (Ok tt, {| grids := <[l:=g]> (grids h); objs := objs h |}).

Definition put_data (l : loc) (d : t) : St unit :=
  fun h => (Ok tt, {| grids := grids h; objs := <[l:=d]> (objs h) |}).

Definition alloc_data (d : t) : St loc :=
  fun h => let l := fresh (dom (objs h)) in
           (Ok l, {| grids := grids h; objs := <[l:=d]> (objs h) |}).

(** Field updates [self.f = v]. *)
Definition with_roi (d : t) (v : bool) : t :=
  mk (name d) (grid d) (nvols d) (ndim d) (fname d) (dps d) (raw_2dt d)
     (_regions d) (_range d) v (metadata d) (rawdata d).

Definition with_regions (d : t) (v : option (list Z)) : t :=
  mk (name d) (grid d) (nvols d) (ndim d) (fname d) (dps d) (raw_2dt d)
     v (_range d) (roi d) (metadata d) (rawdata d).

Definition with_range (d : t) (v : option (Q * Q)) : t :=
  mk (name d) (grid d) (nvols d) (ndim d) (fname d) (dps d) (raw_2dt d)
     (_regions d) v (roi d) (metadata d) (rawdata d).

Definition with_2dt (d : t) (nv : Z) : t :=
  mk (name d) (grid d) nv 4%Z (fname d) (dps d) true
     (_regions d) (_range d) (roi d) (metadata d) (rawdata d).

Definition with_shape (g : DataGrid.t) (shp : list Z) : DataGrid.t :=
  DataGrid.mk shp (DataGrid.affine g) (DataGrid.origin g) (DataGrid.transform g)
              (DataGrid.inv_transform g) (DataGrid.spacing g) (DataGrid.nvoxels g).

(** What a method returns when it may be a number or a string. *)
Inductive pyval : Type :=
  | VArr (a : Np.ndarray Q)
  | VStr (s : string).

(** A number used as an array index or volume number: an integral value
    stands for a Python integer, any other is rejected by Numpy. *)
Definition as_index (q : Q) : Result Z :=
  if Qeq_bool (inject_Z (Qfloor q)) q then Ok (Qfloor q) else Raise IndexError.

(** [min(l)] on a list of integers. *)
Definition py_min (l : list Z) : Result Z :=
  match l with
  | [] => Raise ValueError
  | x :: r => Ok (fold_left Z.min r x)
  end.

(** [QpData.__init__]: the fields of a new object; [set_roi] is called in
    the constructor and may reject the object. *)
Definition __init__ (nm : string) (g : loc) (nv : Z) (fn : option string)
    (md : option (gmap string string)) (r : bool) (arr : option (Np.ndarray Q))
  : Result t :=
  if r && negb (nv =? 1)%Z
  then Raise (TypeError "ROIs must be static (single volume) 3D data")
  else Ok {| name := nm; grid := g; nvols := nv;
             ndim := if (nv =? 1)%Z then 3%Z else 4%Z;
             fname := fn; dps := 1%Z; raw_2dt := false;
             _regions := None; _range := None; roi := r;
             metadata := default ∅ md; rawdata := arr |}.

(** Modelled from the spec: [quantiphyse.data.NumpyData], the subclass
    that [resample] instantiates, is not among the sources.  The spec has a
    VolumeData own its grid and its N-D sample array, with one volume when
    the array is 3D and [shape[3]] volumes when it is 4D; [raw()] returns
    the array. *)
Definition NumpyData (data : Np.ndarray Q) (g : loc) (nm : string) (r : bool) : St loc :=
  let nv := if Nat.ltb 3 (Np.ndim data) then Z.of_nat (nth 3 (Np.shape data) O) else 1%Z in
  d <- lift (__init__ nm g nv None None r (Some data)) ;;
  alloc_data d.

(** The raw data as a Numpy array. *)
Definition raw (self : loc) : St (Np.ndarray Q) :=
  d <- get_data self ;;
  match rawdata d with
  | Some a => ret a
  | None => raise (NotImplementedError "Internal Error: raw() has not been implemented.")
  end.

(** The specified volume of a multi-volume data set; past the end, the
    last volume. *)
Definition volume (self : loc) (vol : Q) : St (Np.ndarray Q) :=
  rawdata <- raw self ;;
  d <- get_data self ;;
  if (ndim d =? 4)%Z then
    k <- lift (if Qle_bool vol (inject_Z (nvols d - 1)) then as_index vol
               else Ok (nvols d - 1)%Z) ;;
    lift (Np.getitem [Np.full_slice; Np.full_slice; Np.full_slice; Np.IInt k] rawdata)
  else ret rawdata.

(** Data min and max, of the whole data set ([vol = None], cached) or of
    one volume. *)
Definition range (self : loc) (vol : option Q) : St (Q * Q) :=
  match vol with
  | None =>
      d <- get_data self ;;
      match _range d with
      | Some r => ret r
      | None =>
          a <- raw self ;;
          lo <- lift (Np.amin a) ;;
          hi <- lift (Np.amax a) ;;
          put_data self (with_range d (Some (lo, hi))) ;;;
          ret (lo, hi)
      end
  | Some v =>
      voldata <- volume self v ;;
      lo <- lift (Np.amin voldata) ;;
      hi <- lift (Np.amax voldata) ;;
      ret (lo, hi)
  end.

(** The grid a position is given in: [grid], or a unit grid in world space. *)
Definition position_grid `{Externals} (grid : option loc) : St DataGrid.t :=
  match grid with
  | None => lift (DataGrid.__init__ [1; 1; 1]%Z (Np.identity 4))
  | Some l => get_grid l
  end.

(** [[int(math.floor(v+0.5)) for v in self.grid.grid_to_grid(pos[:3], from_grid=grid)]] *)
Definition data_position (self : loc) (pos : Np.vector) (g : DataGrid.t) : St (list Z) :=
  d <- get_data self ;;
  sg <- get_grid (grid d) ;;
  p <- lift (DataGrid.grid_to_grid sg (take 3 pos) (Some g) None false) ;;
  ret (map Np.round_half_up p).

(** The data value at a point. *)
Definition value `{Externals} (self : loc) (pos : Np.vector) (grid : option loc)
    (as_str : bool) : St pyval :=
  g <- position_grid grid ;;
  data_pos <- data_position self pos g ;;
  m <- lift (py_min data_pos) ;;
  v <- (if (m <? 0)%Z then ret (Np.Scalar 0%Q)
        else
          p3 <- lift (py_nth pos 3) ;;
          rawdata <- volume self p3 ;;
          match Np.getitem (map Np.IInt data_pos) rawdata with
          | Ok x => ret x
          | Raise IndexError => ret (Np.Scalar 0%Q)
          | Raise e => raise e
          end) ;;
  if as_str then ret (VStr (sf v)) else ret (VArr v).

(** The time/volume series at a point. *)
Definition timeseries `{Externals} (self : loc) (pos : Np.vector) (grid : option loc)
  : St (list pyval) :=
  d <- get_data self ;;
  if (nvols d =? 1)%Z then
    v <- value self pos grid false ;; ret [v]
  else
    g <- position_grid grid ;;
    data_pos <- data_position self pos g ;;
    m <- lift (py_min data_pos) ;;
    if (m <? 0)%Z then ret []
    else
      rawdata <- raw self ;;
      match Np.getitem (map Np.IInt data_pos ++ [Np.full_slice]) rawdata with
      | Ok (Np.Arr l) => ret (map VArr l)
      | Ok (Np.Scalar _) => raise (TypeError "iteration over a 0-d array")
      | Raise IndexError => ret []
      | Raise e => raise e
      end.

(** The checks that [resample] makes on interpolated ROI data, and the
    cast to 32-bit integers. *)
Definition roi_check (data : Np.ndarray Q) : Result (Np.ndarray Q) :=
  lo <- Np.amin data ;;
  hi <- Np.amax data ;;
  if Np.Qlt_bool lo 0 || Np.Qlt_bool (inject_Z (2 ^ 32)) hi
  then Raise (QpException "ROIs must contain values between 0 and 2**32")
  else if negb (existsb (fun x => Qeq_bool (Np.mod1 x) 0) (Np.flatten data))
  then Raise (QpException "ROIs must contain integers only")
  else Ok (Np.amap (fun x => inject_Z (Np.to_int32 x)) data).

(** The general path of [resample]: the affine interpolation with the
    inverse of the simplified matrix, and the ROI checks after it. *)
Definition resample_affine `{Externals} (is_roi : bool) (data : Np.ndarray Q)
    (tmatrix : Np.matrix) (grid_shape : list Z) (order : Z) : Result (Np.ndarray Q) :=
  tmatrix <- Np.linalg_inv tmatrix ;;
  let affine := Np.sub33 tmatrix in
  let offset := take 3 (Np.col tmatrix 3) in
  let output_shape := grid_shape in
  let is4 := Nat.eqb (Np.ndim data) 4 in
  let affine :=
    if is4 then map (fun r => r ++ [0%Q]) affine ++ [[0; 0; 0; 1]%Q] else affine in
  let offset := if is4 then offset ++ [0%Q] else offset in
  output_shape <-
    (if is4 then n <- py_nth (Np.shape data) 3 ;; Ok (output_shape ++ [Z.of_nat n])
     else Ok output_shape) ;;
  let matrix_arg :=
    if is_diagonal affine then inr (Np.diagonal affine) else inl affine in
  data <- affine_transform data matrix_arg offset output_shape order ;;
  if is_roi then roi_check data else Ok data.

(** Resample the data onto a new grid; returns a new data object. *)
Definition resample `{Externals} (self : loc) (grid : loc) (order : Z) : St loc :=
  data <- raw self ;;
  d <- get_data self ;;
  sg <- get_grid (QpData.grid d) ;;
  tg <- get_grid grid ;;
  inv <- lift (Np.linalg_inv (DataGrid.affine tg)) ;;
  tmatrix <- lift (Np.dot_mm inv (DataGrid.affine sg)) ;;
  r <- lift (DataGrid.simplify_transforms sg tmatrix) ;;
  let reorder := fst (fst r) in
  let flip := snd (fst r) in
  let tmatrix := snd r in
  data <- lift (if negb (list_nat_eqb reorder (py_range 3))
                then Np.transpose data
                       (if Nat.eqb (Np.ndim data) 4 then reorder ++ [3%nat] else reorder)
                else Ok data) ;;
  data <- lift (foldM (fun a dim => Np.flip dim a) flip data) ;;
  data <- lift (if negb (is_identity tmatrix)
                then resample_affine (roi d) data tmatrix (DataGrid.shape tg) order
                else Ok data) ;;
  NumpyData data grid (name d +:+ "_resampled") (roi d).

(** One entry of the result of [mask]. *)
Inductive mask_item : Type :=
  | MData (a : Np.ndarray Q)
  | MMask (m : Np.ndarray bool)
  | MOnes (a : Np.ndarray Z).

Inductive mask_result : Type :=
  | Single (x : mask_item)
  | Tuple (l : list mask_item).

(** [d[m]] for a boolean [m], which must cover the leading axes of [d]. *)
Definition select_masked (m : Np.ndarray bool) (d : Np.ndarray Q) : Result (Np.ndarray Q) :=
  if list_nat_eqb (take (Np.ndim m) (Np.shape d)) (Np.shape m)
  then Ok (Np.Arr (Np.bool_select m d))
  else Raise IndexError.

(** Mask the data by an ROI. *)
Definition mask `{Externals} (self : loc) (roi : option loc) (region : option Q)
    (vol : option Q) (invert output_flat output_mask : bool) : St mask_result :=
  data <- match vol with Some v => volume self v | None => raw self end ;;
  ret_ <-
    match roi with
    | None =>
        ret ([MData (if output_flat then Np.Arr (map Np.Scalar (Np.flatten data)) else data)]
             ++ (if output_mask then [MOnes (Np.full (take 3 (Np.shape data)) 1%Z)] else []))
    | Some r =>
        d <- get_data self ;;
        r' <- resample r (grid d) 0 ;;
        rraw <- raw r' ;;
        let m := match region with
                 | None => Np.amap (fun x => Np.Qlt_bool 0 x) rraw
                 | Some reg => Np.amap (fun x => Qeq_bool x reg) rraw
                 end in
        let m := if invert then Np.amap negb m else m in
        sel <- lift (select_masked m data) ;;
        ret ([MData (if output_flat then sel else Np.masked_copy m data)]
             ++ (if output_mask then [MMask m] else []))
    end ;;
  match ret_ with
  | [x] => ret (Single x)
  | l => ret (Tuple l)
  end.

Definition _get_slice (length : nat) (sign : Q) : Np.index :=
  if Qeq_bool sign 1
  then Np.ISlice (Some 0%Z) (Some (Z.of_nat length)) (Some 1%Z)
  else Np.ISlice (Some (Z.of_nat length - 1)%Z) None (Some (-1)%Z).

(** One pass of the loop over [data_axes] in [slice_data]: the basis vector
    of the slice along [axis] and the extent of the data along it. *)
Definition basis_step (rawdata : Np.ndarray Q) (data_scaled_normal : Np.vector)
    (data_naxis : nat) (acc : list Np.vector * list nat) (axis : nat)
  : Result (list Np.vector * list nat) :=
  sa <- py_nth data_scaled_normal axis ;;
  sn <- py_nth data_scaled_normal data_naxis ;;
  let vec := <[data_naxis := (- (sa / sn))%Q]> (<[axis := 1%Q]> [0; 0; 0]%Q) in
  n <- py_nth (Np.shape rawdata) axis ;;
  Ok (fst acc ++ [vec], snd acc ++ [n]).

(** The fast path of [slice_data]: both basis vectors lie along data axes
    [ax1] and [ax2], and the slice is cut out by indexing. *)
Definition ortho_slice (rawdata : Np.ndarray Q) (slice_shape : list nat)
    (data_origin : Np.vector) (data_naxis : nat) (ax1 : nat) (sign1 : Q)
    (ax2 : nat) (sign2 : Q) : Result (Np.ndarray Q * Np.ndarray Q) :=
  let slices := [Np.INewaxis; Np.INewaxis; Np.INewaxis] in
  n1 <- py_nth (Np.shape rawdata) ax1 ;;
  let slices := <[ax1 := _get_slice n1 sign1]> slices in
  n2 <- py_nth (Np.shape rawdata) ax2 ;;
  let slices := <[ax2 := _get_slice n2 sign2]> slices in
  o <- py_nth data_origin data_naxis ;;
  let pos := Np.round_half_up o in
  nn <- py_nth (Np.shape rawdata) data_naxis ;;
  if (0 <=? pos)%Z && (pos <? Z.of_nat nn)%Z then
    let slices := <[data_naxis := Np.IInt pos]> slices in
    sdata <- Np.getitem slices rawdata ;;
    Ok (sdata, Np.full slice_shape 1%Q)
  else
    Ok (Np.full slice_shape 0%Q, Np.full slice_shape 0%Q).

(** The general path of [slice_data]: an affine slice through the data. *)
Definition affine_slice `{Externals} (is_roi : bool) (rawdata : Np.ndarray Q)
    (slice_shape : list nat) (slice_origin : Np.vector) (slice_basis : list Np.vector)
    (interp_order : Z) : Result (Np.ndarray Q * Np.ndarray Q) :=
  if is_roi then
    sdata <- affineSlice rawdata slice_shape slice_origin slice_basis (py_range 3) 0%Z None ;;
    Ok (sdata, Np.full (Np.shape sdata) 1%Q)
  else
    dmin <- Np.amin rawdata ;;
    sdata <- affineSlice rawdata slice_shape slice_origin slice_basis (py_range 3)
                         interp_order (Some (dmin - 100)%Q) ;;
    Ok (Np.amap (fun x => if Np.Qlt_bool x dmin then 0%Q else x) sdata,
        Np.amap (fun x => if Np.Qlt_bool x dmin then 0%Q else 1%Q) sdata).

(** What [slice_data] computes before it cuts the slice: the volume, the
    plane's origin in data co-ordinates, the data axis nearest to the
    plane's normal, the basis and extent of the slice, the transform and
    offset in the plane, and the outcome of the two [is_ortho_vector]
    tests. *)
Record slice_frame : Type := mk_frame {
  f_rawdata : Np.ndarray Q;
  f_data_origin : Np.vector;
  f_data_naxis : nat;
  f_slice_basis : list Np.vector;
  f_slice_shape : list nat;
  f_slice_origin : Np.vector;
  f_trans_v : Np.matrix;
  f_offset : Np.vector;
  f_ortho1 : option (nat * Q);
  f_ortho2 : option (nat * Q)
}.

Definition slice_geometry `{Externals} (self : loc) (plane : loc) (vol : Q) : St slice_frame :=
  rawdata <- volume self vol ;;
  d <- get_data self ;;
  sg <- get_grid (grid d) ;;
  pl <- get_grid plane ;;
  data_origin <- lift (DataGrid.grid_to_grid sg [0; 0; 0]%Q (Some pl) None false) ;;
  data_normal <- lift (DataGrid.grid_to_grid sg [0; 0; 1]%Q (Some pl) None true) ;;
  data_scaled_normal <-
    lift (mapM (fun idx => n <- py_nth data_normal idx ;;
                           s <- py_nth (DataGrid.spacing sg) idx ;;
                           Ok (n * s * s)%Q) (py_range 3)) ;;
  data_naxis <- lift (Np.argmax (Np.vabs data_scaled_normal)) ;;
  let data_axes := delete data_naxis (py_range 3) in
  bs <- lift (foldM (basis_step rawdata data_scaled_normal data_naxis) data_axes ([], [])) ;;
  let slice_basis := fst bs in
  let slice_shape := snd bs in
  b0 <- lift (py_nth slice_basis 0) ;;
  b1 <- lift (py_nth slice_basis 1) ;;
  t0 <- lift (DataGrid.grid_to_grid sg b0 None (Some pl) true) ;;
  t1 <- lift (DataGrid.grid_to_grid sg b1 None (Some pl) true) ;;
  let trans_v := map (delete 2) [t0; t1] in
  sn <- lift (py_nth data_scaled_normal data_naxis) ;;
  let slice_origin :=
    <[data_naxis := (Np.dot data_origin data_scaled_normal / sn)%Q]> [0; 0; 0]%Q in
  let data_offset := map (fun x => x + (1 # 2))%Q (Np.vsub data_origin slice_origin) in
  off <- lift (DataGrid.grid_to_grid sg data_offset None (Some pl) true) ;;
  let offset := take 2 (Np.vneg off) in
  s0 <- lift (py_nth slice_shape 0) ;;
  o1 <- lift (is_ortho_vector b0 (Z.of_nat s0)) ;;
  o2 <- lift (is_ortho_vector b1 (Z.of_nat s0)) ;;
  ret (mk_frame rawdata data_origin data_naxis slice_basis slice_shape slice_origin
                trans_v offset o1 o2).

(** Extract a data slice in raw data resolution: the slice, its mask, the
    2x2 transform to the plane and the offset in the plane. *)
Definition slice_data `{Externals} (self : loc) (plane : loc) (vol : Q) (interp_order : Z)
  : St (Np.ndarray Q * Np.ndarray Q * Np.matrix * Np.vector) :=
  f <- slice_geometry self plane vol ;;
  d <- get_data self ;;
  sm <- lift match f_ortho1 f, f_ortho2 f with
             | Some (ax1, sign1), Some (ax2, sign2) =>
                 ortho_slice (f_rawdata f) (f_slice_shape f) (f_data_origin f)
                             (f_data_naxis f) ax1 sign1 ax2 sign2
             | _, _ =>
                 affine_slice (roi d) (f_rawdata f) (f_slice_shape f) (f_slice_origin f)
                              (f_slice_basis f) interp_order
             end ;;
  ret (fst sm, snd sm, f_trans_v f, f_offset f).

(** Force 3D static data into the form of 2D multi-volume. *)
Definition set_2dt (self : loc) : St unit :=
  d <- get_data self ;;
  g <- get_grid (grid d) ;;
  s2 <- lift (py_nth (DataGrid.shape g) 2) ;;
  if negb (nvols d =? 1)%Z || (s2 =? 1)%Z
  then raise (RuntimeError "Can only force to 2D timeseries if data was originally 3D static")
  else
    put_data self (with_2dt d s2) ;;;
    put_grid (grid d) (with_shape g (<[2%nat := 1%Z]> (DataGrid.shape g))).

(** The distinct ROI region integers, not including zero. *)
Definition regions (self : loc) : St (list Z) :=
  d <- get_data self ;;
  if negb (roi d) then raise (TypeError "Only ROIs have distinct regions")
  else
    match _regions d with
    | Some r => ret r
    | None =>
        a <- raw self ;;
        let r := Np.unique (map Np.to_int64 (Np.flatten a)) in
        let r := filter (fun x => 0 < x)%Z r in
        put_data self (with_regions d (Some r)) ;;;
        ret r
    end.

(** Set whether data should be interpreted as a region of interest. *)
Definition set_roi (self : loc) (r : bool) : St unit :=
  d <- get_data self ;;
  if r && negb (nvols d =? 1)%Z
  then raise (TypeError "ROIs must be static (single volume) 3D data")
  else put_data self (with_roi d r).

(** [np.any(raw, axis=<the two spatial axes other than dim>)] *)
Definition any_along (rawdata : Np.ndarray Q) (dim : nat) : Result (list bool) :=
  if Nat.ltb (Np.ndim rawdata) 3 then Raise ValueError
  else
    n <- py_nth (Np.shape rawdata) dim ;;
    mapM (fun i => sub <- Np.getitem (replicate dim Np.full_slice ++ [Np.IInt (Z.of_nat i)])
                                     rawdata ;;
                   Ok (existsb (fun x => negb (Qeq_bool x 0)) (Np.flatten sub)))
         (seq 0 n).

(** [np.where(nonzero)[0][[0, -1]]] *)
Definition first_last (nonzero : list bool) : Result (Z * Z) :=
  match filter (fun i => nth i nonzero false = true) (seq 0 (length nonzero)) with
  | [] => Raise IndexError
  | i :: r => Ok (Z.of_nat i, Z.of_nat (List.last r i))
  end.

(** One pass of the loop over [dim] in [get_bounding_box]. *)
Definition bounding_step (self : loc) (slices : list Np.index) (dim : nat)
  : St (list Np.index) :=
  a <- raw self ;;
  nonzero <- lift (any_along a dim) ;;
  bb <- lift (first_last nonzero) ;;
  ret (<[dim := Np.ISlice (Some (fst bb)) (Some (snd bb + 1)%Z) None]> slices).

Fixpoint for_each {A B : Type} (f : A -> B -> St A) (l : list B) (acc : A) : St A :=
  match l with
  | [] => ret acc
  | x :: r => acc' <- f acc x ;; for_each f r acc'
  end.

(** The slices that describe the bounding box of this ROI. *)
Definition get_bounding_box (self : loc) (ndim : nat) : St (list Np.index) :=
  d <- get_data self ;;
  if negb (roi d) then raise (RuntimeError "get_bounding_box() called on non-ROI data")
  else
    for_each (bounding_step self) (py_range (Nat.min ndim 3)) (replicate ndim Np.full_slice).

(** The invariant of a data object of the store: [self] refers to [d], whose
    grid object is [g] and whose raw array is [a]; the grid was built by
    its constructor and has positive extents, the array has the extents of
    the grid, with a trailing volume axis when there are several volumes,
    and an ROI has a single volume. *)
Definition valid_data `{Externals} (h : Heap) (self : loc) (d : t) (g : DataGrid.t)
    (a : Np.ndarray Q) : Prop :=
  objs h !! self = Some d /\
  grids h !! grid d = Some g /\
  rawdata d = Some a /\
  DataGrid.constructed g /\
  (1 <= nvols d)%Z /\
  ndim d = (if (nvols d =? 1)%Z then 3%Z else 4%Z) /\
  (roi d = true -> nvols d = 1%Z) /\
  Forall (fun n => 0 < n)%Z (DataGrid.shape g) /\
  Np.has_shape (map Z.to_nat (DataGrid.shape g)
                ++ (if (nvols d =? 1)%Z then [] else [Z.to_nat (nvols d)])) a.

(** A computation leaves every grid object of the store as it was. *)
Definition keeps_grids {A : Type} (m : St A) : Prop :=
  forall h, grids (snd (m h)) = grids h.

(** A computation leaves the whole store as it was, whether it returns or
    raises. *)
Definition reads_only {A : Type} (m : St A) : Prop :=
  forall h, snd (m h) = h.

(** A computation leaves the shape and the affine of every grid object of
    the store as they were. *)
Definition keeps_geometry {A : Type} (m : St A) : Prop :=
  forall h l g, grids h !! l = Some g ->
    exists g', grids (snd (m h)) !! l = Some g' /\
               DataGrid.shape g' = DataGrid.shape g /\
               DataGrid.affine g' = DataGrid.affine g.

End QpData.


(* ===================================================================== *)
(** * Concrete data for the examples *)
(* ===================================================================== *)

Module Examples.

(** A square root on rationals that is exact on squares, and interpolation
    routines that are never reached where this instance is used. *)
Definition rational_sqrt (q : Q) : Q :=
  Z.sqrt (Qnum q * Zpos (Qden q)) # Qden q.

Definition externals : Externals := {|
  np_sqrt := rational_sqrt;
  affine_transform := fun _ _ _ _ _ => Raise (NotImplementedError "scipy.ndimage");
  affineSlice := fun _ _ _ _ _ _ _ => Raise (NotImplementedError "pyqtgraph");
  sf := fun _ => "?"%string
|}.

(** A grid with transposed, flipped and scaled axes. *)
Definition oblique_affine : Np.matrix :=
  [[0; -2; 0; 5]; [3; 0; 0; 7]; [0; 0; 4; 9]; [0; 0; 0; 1]]%Q.

(** A grid whose first two axes both point mostly along world axis 0. *)
Definition skewed_affine : Np.matrix :=
  [[2; 3; 0; 0]; [1; 1; 0; 0]; [0; 0; 1; 0]; [0; 0; 0; 1]]%Q.

Definition grid_of (shp : list Z) (aff : Np.matrix) : DataGrid.t :=
  match DataGrid.__init__ (H := externals) shp aff with
  | Ok g => g
  | Raise _ => DataGrid.mk [] [] [] [] [] [] 0
  end.

Definition unit_grid : DataGrid.t := grid_of [2; 2; 3]%Z (Np.identity 4).
Definition oblique_grid : DataGrid.t := grid_of [2; 3; 4]%Z oblique_affine.
Definition skewed_grid : DataGrid.t := grid_of [2; 2; 2]%Z skewed_affine.

(** A 2x2x3 volume holding [7 + 6 i + 3 j + k] at [(i, j, k)]. *)
Definition ramp : Np.ndarray Q :=
  Np.Arr (map (fun i => Np.Arr (map (fun j => Np.Arr (map (fun k =>
    Np.Scalar (inject_Z (Z.of_nat (7 + i * 6 + j * 3 + k)))) (seq 0 3))) (seq 0 2))) (seq 0 2)).

(** A store with one grid (at 0) and one ROI data object on it (at 0). *)
Definition store : QpData.Heap :=
  snd (QpData.NumpyData ramp 0%nat "ramp" true
         {| QpData.grids := {[ 0%nat := unit_grid ]}; QpData.objs := ∅ |}).

Definition ramp_data : QpData.t :=
  match QpData.objs store !! 0%nat with
  | Some d => d
  | None => QpData.mk "" 0%nat 0 0 None 0 false None None false ∅ None
  end.


(** An ROI of two voxels [0, 1] along x on a unit grid (at 0), a grid with
    half the spacing along x (at 1), and what linear interpolation
    ([order=1]) of the two voxels at x = 0, 1/2, 1 yields. *)
Definition two_voxels : Np.ndarray Q :=
  Np.Arr [Np.Arr [Np.Arr [Np.Scalar 0]]; Np.Arr [Np.Arr [Np.Scalar 1]]]%Q.

Definition interpolated : Np.ndarray Q :=
  Np.Arr [Np.Arr [Np.Arr [Np.Scalar 0]]; Np.Arr [Np.Arr [Np.Scalar (1 # 2)]];
          Np.Arr [Np.Arr [Np.Scalar 1]]]%Q.

Definition linear_externals : Externals := {|
  np_sqrt := rational_sqrt;
  affine_transform := fun _ _ _ _ order =>
    if (order =? 1)%Z then Ok interpolated else Raise (NotImplementedError "scipy.ndimage");
  affineSlice := fun _ _ _ _ _ _ _ => Raise (NotImplementedError "pyqtgraph");
  sf := fun _ => "?"%string
|}.

(** A 2x2x3 series of two volumes, the second being the first plus 100, on
    the unit grid. *)
Definition series : Np.ndarray Q :=
  Np.Arr (map (fun i => Np.Arr (map (fun j => Np.Arr (map (fun k => Np.Arr (map (fun t =>
    Np.Scalar (inject_Z (Z.of_nat (7 + i * 6 + j * 3 + k + t * 100)))) (seq 0 2)))
    (seq 0 3))) (seq 0 2))) (seq 0 2)).

Definition series_store : QpData.Heap :=
  snd (QpData.NumpyData series 0%nat "series" false
         {| QpData.grids := {[ 0%nat := unit_grid ]}; QpData.objs := ∅ |}).

Definition series_data : QpData.t :=
  match QpData.objs series_store !! 0%nat with
  | Some d => d
  | None => QpData.mk "" 0%nat 0 0 None 0 false None None false ∅ None
  end.

(** A 10x10x10 ROI that is 1 on the block [[2:5, 3:6, 1:4]] and 0 elsewhere,
    on a grid with identity affine. *)
Definition block : Np.ndarray Q :=
  Np.Arr (map (fun i => Np.Arr (map (fun j => Np.Arr (map (fun k =>
    Np.Scalar (if (Nat.leb 2 i && Nat.ltb i 5 && Nat.leb 3 j && Nat.ltb j 6
                   && Nat.leb 1 k && Nat.ltb k 4)%bool then 1 else 0)%Q)
    (seq 0 10))) (seq 0 10))) (seq 0 10)).

Definition block_store : QpData.Heap :=
  snd (QpData.NumpyData block 0%nat "block" true
         {| QpData.grids := {[ 0%nat := grid_of [10; 10; 10]%Z (Np.identity 4) ]};
            QpData.objs := ∅ |}).

(** A 2x2x3 ROI with the single voxel [(1, 0, 2)] set, and one with no
    voxel set, on the unit grid. *)
Definition spot : Np.ndarray Q :=
  Np.Arr (map (fun i => Np.Arr (map (fun j => Np.Arr (map (fun k =>
    Np.Scalar (if (Nat.eqb i 1 && Nat.eqb j 0 && Nat.eqb k 2)%bool then 1 else 0)%Q)
    (seq 0 3))) (seq 0 2))) (seq 0 2)).

Definition spot_store : QpData.Heap :=
  snd (QpData.NumpyData spot 0%nat "spot" true
         {| QpData.grids := {[ 0%nat := unit_grid ]}; QpData.objs := ∅ |}).

Definition spot_data : QpData.t :=
  match QpData.objs spot_store !! 0%nat with
  | Some d => d
  | None => QpData.mk "" 0%nat 0 0 None 0 false None None false ∅ None
  end.

Definition blank : Np.ndarray Q := Np.full [2; 2; 3]%nat 0%Q.

Definition blank_store : QpData.Heap :=
  snd (QpData.NumpyData blank 0%nat "blank" true
         {| QpData.grids := {[ 0%nat := unit_grid ]}; QpData.objs := ∅ |}).

Definition blank_data : QpData.t :=
  match QpData.objs blank_store !! 0%nat with
  | Some d => d
  | None => QpData.mk "" 0%nat 0 0 None 0 false None None false ∅ None
  end.

(** An ROI with a label beyond 64 bits. *)
Definition huge : Np.ndarray Q :=
  Np.Arr [Np.Arr [Np.Arr [Np.Scalar 1%Q]]; Np.Arr [Np.Arr [Np.Scalar 2%Q]];
          Np.Arr [Np.Arr [Np.Scalar (inject_Z (10 ^ 19))]]].

Definition huge_store : QpData.Heap :=
  snd (QpData.NumpyData huge 0%nat "huge" true
         {| QpData.grids := {[ 0%nat := grid_of [3; 1; 1]%Z (Np.identity 4) ]};
            QpData.objs := ∅ |}).

(** A grid of unit voxels whose origin is half a voxel along the first
    axis. *)
Definition offset_grid : DataGrid.t :=
  grid_of [2; 2; 2]%Z [[1; 0; 0; 1 # 2]; [0; 1; 0; 0]; [0; 0; 1; 0]; [0; 0; 0; 1]]%Q.

(** The unit grid and the oblique grid once more, with entries written as
    other fractions of the same value. *)
Definition unit_twin : DataGrid.t :=
  grid_of [2; 2; 3]%Z [[2 # 2; 0; 0; 0]; [0; 3 # 3; 0; 0]; [0; 0; 1; 0]; [0; 0; 0; 1]]%Q.

Definition oblique_twin : DataGrid.t :=
  grid_of [2; 3; 4]%Z [[0; -4 # 2; 0; 5]; [6 # 2; 0; 0; 7]; [0; 0; 4; 9]; [0; 0; 0; 1]]%Q.

(** The example store with a second grid object (at 1) that matches the
    first. *)
Definition twin_store : QpData.Heap :=
  {| QpData.grids := <[1%nat := unit_twin]> (QpData.grids store);
     QpData.objs := QpData.objs store |}.

(** The oblique grid in standard orientation. *)
Definition oblique_standard : DataGrid.t :=
  grid_of [3; 2; 4]%Z [[2; 0; 0; 1]; [0; 3; 0; 7]; [0; 0; 4; 9]; [0; 0; 0; 1]]%Q.

(** A square root to six decimal places, and an affine slice that yields
    one sample of value 7 and one point outside the data. *)
Definition fine_sqrt (q : Q) : Q :=
  Z.sqrt (Qnum q * Zpos (Qden q) * 10 ^ 12) # (Qden q * 10 ^ 6).

Definition slicing_externals : Externals := {|
  np_sqrt := fine_sqrt;
  affine_transform := fun _ _ _ _ _ => Raise (NotImplementedError "scipy.ndimage");
  affineSlice := fun _ _ _ _ _ _ cval =>
    Ok (Np.Arr [Np.Arr [Np.Scalar 7%Q; Np.Scalar (default 0%Q cval)]]);
  sf := fun _ => "?"%string
|}.

(** A plane (at 1) that is tilted against the grid of the series. *)
Definition tilted_grid : DataGrid.t :=
  match DataGrid.__init__ (H := slicing_externals) [2; 2; 3]%Z
          [[1; 0; 1; 0]; [0; 1; 0; 0]; [0; 0; 2; 0]; [0; 0; 0; 1]]%Q with
  | Ok g => g
  | Raise _ => DataGrid.mk [] [] [] [] [] [] 0
  end.

Definition tilted_store : QpData.Heap :=
  {| QpData.grids := <[1%nat := tilted_grid]> (QpData.grids series_store);
     QpData.objs := QpData.objs series_store |}.

Definition tilted_frame : QpData.slice_frame :=
  match fst (QpData.slice_geometry (H := slicing_externals) 0%nat 1%nat 0 tilted_store) with
  | Ok f => f
  | Raise _ => QpData.mk_frame (Np.Arr []) [] 0 [] [] [] [] [] None None
  end.

Definition half_affine : Np.matrix :=
  [[1 # 2; 0; 0; 0]; [0; 1; 0; 0]; [0; 0; 1; 0]; [0; 0; 0; 1]]%Q.

Definition roi_store : QpData.Heap :=
  snd (QpData.NumpyData two_voxels 0%nat "roi" true
         {| QpData.grids := {[ 0%nat := grid_of [2; 1; 1]%Z (Np.identity 4);
                               1%nat := grid_of [3; 1; 1]%Z half_affine ]};
            QpData.objs := ∅ |}).

End Examples.

(* ===================================================================== *)
(** * Theorems *)
(* ===================================================================== *)

Import DataGrid(constructed).
Import QpData.

(* --------------------------------------------------------------------- *)
(** ** Grid construction and the maps between grid and world *)

(** Unfolding of the co-ordinate maps on floats. *)
Ltac unfold_world_to_grid :=
  unfold DataGrid.world_to_grid, DataGrid.world_to_grid_as; cbn [Np.astype].

Ltac unfold_grid_to_grid :=
  unfold DataGrid.grid_to_grid; cbn [DataGrid.grid_to_grid_as];
  change (DataGrid.world_to_grid_as Np.float64) with DataGrid.world_to_grid.



Lemma shape_is_rows (m : Np.matrix) r c :
  Np.shape_is m r c = true -> length m = r /\ Forall (fun row => length row = c) m.
Proof.
  unfold Np.shape_is. intros H. apply andb_prop in H as [H1 H2].
  apply Nat.eqb_eq in H1. split; [exact H1|].
  apply List.Forall_forall. intros x Hx.
  rewrite forallb_forall in H2. apply Nat.eqb_eq, H2, Hx.
Qed.

Lemma length3 {A} (l : list A) : length l = 3%nat -> exists a b c, l = [a; b; c].
Proof. destruct l as [|a [|b [|c [|]]]]; try discriminate. eauto. Qed.

Lemma length4 {A} (l : list A) : length l = 4%nat -> exists a b c d, l = [a; b; c; d].
Proof. destruct l as [|a [|b [|c [|d [|]]]]]; try discriminate. eauto. Qed.

Lemma shape_is_4_4 (m : Np.matrix) :
  Np.shape_is m 4 4 = true ->
  exists a00 a01 a02 a03 a10 a11 a12 a13 a20 a21 a22 a23 a30 a31 a32 a33,
    m = [[a00; a01; a02; a03]; [a10; a11; a12; a13];
         [a20; a21; a22; a23]; [a30; a31; a32; a33]].
Proof.
  intros H. apply shape_is_rows in H as [Hl Hr].
  apply length4 in Hl as (r0 & r1 & r2 & r3 & ->).
  repeat match goal with H : Forall _ (_ :: _) |- _ => inversion H; clear H; subst end.
  repeat match goal with H : length ?r = 4%nat |- _ =>
    apply length4 in H as (? & ? & ? & ? & ->) end.
  repeat eexists.
Qed.


Lemma init_inv `{Externals} shp aff g :
  DataGrid.__init__ shp aff = Ok g ->
  length shp = 3%nat /\ Np.shape_is aff 4 4 = true /\
  Np.linalg_inv (Np.sub33 aff) = Ok (DataGrid.inv_transform g) /\
  DataGrid.shape g = shp /\ DataGrid.affine g = aff /\
  DataGrid.origin g = take 3 (Np.col aff 3) /\
  DataGrid.transform g = Np.sub33 aff /\
  DataGrid.spacing g = map (fun i => linalg_norm (Np.col aff i)) (py_range 3).
Proof.
  unfold DataGrid.__init__.
  destruct (Nat.eqb (length shp) 3) eqn:E1; [|discriminate].
  destruct (Np.shape_is aff 4 4) eqn:E2; [|discriminate].
  cbn [negb]. destruct (Np.linalg_inv (Np.sub33 aff)) eqn:E3; [|discriminate].
  cbn. intros [= <-]. cbn. apply Nat.eqb_eq in E1. auto 10.
Qed.

Lemma linalg_inv_ok (m mi : Np.matrix) :
  Np.linalg_inv m = Ok mi ->
  Np.shape_is m (length m) (length m) = true /\ ~ (Np.det (length m) m == 0)%Q /\
  mi = Np.tabulate (length m) (length m)
         (fun i j => Np.sgn (i + j) * Np.det (pred (length m)) (Np.minor m j i) / Np.det (length m) m)%Q.
Proof.
  unfold Np.linalg_inv.
  destruct (Np.shape_is m (length m) (length m)); [|discriminate]. cbn [negb].
  destruct (Qeq_bool _ 0) eqn:E; [discriminate|]. intros [= <-].
  apply Qeq_bool_neq in E. auto.
Qed.

Local Open Scope Q_scope.

Lemma div_sum3 c0 c1 c2 a0 a1 a2 D d :
  ~ D == 0 -> c0 * a0 + (c1 * a1 + c2 * a2) == d * D ->
  c0 / D * a0 + (c1 / D * a1 + (c2 / D * a2 + 0)) == d.
Proof.
  intros HD Hs.
  apply Qeq_trans with ((c0 * a0 + (c1 * a1 + c2 * a2)) / D); [field; exact HD|].
  rewrite Hs. field. exact HD.
Qed.

(** The 3x3 inverse applied to [T v], given up to equality of rationals. *)
Lemma inv3_apply a00 a01 a02 a10 a11 a12 a20 a21 a22 mi x y z u0 u1 u2 :
  Np.linalg_inv [[a00; a01; a02]; [a10; a11; a12]; [a20; a21; a22]] = Ok mi ->
  u0 == a00 * x + a01 * y + a02 * z ->
  u1 == a10 * x + a11 * y + a12 * z ->
  u2 == a20 * x + a21 * y + a22 * z ->
  exists w, Np.dot_mv mi [u0; u1; u2] = Ok w /\ Np.veq w [x; y; z].
Proof.
  intros Hi H0 H1 H2. apply linalg_inv_ok in Hi as (_ & HD & ->).
  cbn [length] in *. set (D := Np.det 3 _) in *.
  eexists. split; [reflexivity|].
  cbv [Np.tabulate Np.dot Np.minor seq map nth delete list_delete zip_with Np.qsum
       Nat.add Nat.pred length].
  assert (HD' : D == a00 * (a11 * a22 - a12 * a21) - a01 * (a10 * a22 - a12 * a20)
                     + a02 * (a10 * a21 - a11 * a20)).
  { subst D. cbv [Np.det Np.minor Np.mget Np.sgn seq map nth delete list_delete Np.qsum Nat.even Nat.add]. ring. }
  unfold Np.veq.
  repeat match goal with
         | |- Forall2 _ (_ :: _) (_ :: _) => apply List.Forall2_cons
         | |- Forall2 _ [] [] => apply List.Forall2_nil
         end.
  all: cbv [Np.det Np.minor Np.mget Np.sgn seq map nth delete list_delete Np.qsum Nat.even Nat.add].
  all: rewrite H0, H1, H2; field_simplify_eq; [|exact HD]; rewrite HD'; ring.
Qed.

Lemma veq_refl v : Np.veq v v.
Proof. induction v; constructor; [reflexivity | assumption]. Qed.

Lemma world_grid_inverse `{Externals} (g : DataGrid.t) (c : Np.vector) (direction : bool) :
  constructed g -> (length c = 3 \/ length c = 4)%nat ->
  exists w c', DataGrid.grid_to_world g c direction = Ok w /\
               DataGrid.world_to_grid g w direction = Ok c' /\
               Np.veq c' c /\ w !! 3%nat = c !! 3%nat /\ c' !! 3%nat = c !! 3%nat.
Proof.
  intros (shp & aff & Hg) Hc.
  apply init_inv in Hg as (_ & Hs & Hi & _ & _ & Ho & Ht & _).
  apply shape_is_4_4 in Hs
    as (a00 & a01 & a02 & a03 & a10 & a11 & a12 & a13 & a20 & a21 & a22 & a23
        & a30 & a31 & a32 & a33 & ->).
  cbn [Np.sub33 Np.col map take nth] in Ho, Ht, Hi.
  unfold DataGrid.grid_to_world. unfold_world_to_grid. rewrite Ho, Ht. clear Ho Ht.
  destruct Hc as [Hc | Hc];
    [apply length3 in Hc as (x & y & z & ->) | apply length4 in Hc as (x & y & z & t & ->)];
    destruct direction; cbn -[Np.dot_mv]; cbn [Np.dot_mv forallb length Nat.eqb andb map Np.dot zip_with Np.qsum].
  all: match goal with |- exists w c', Ok ?W = Ok w /\ _ => exists W end.
  all: cbn -[Np.dot_mv].
  all: match goal with
       | |- context [Np.dot_mv (DataGrid.inv_transform _) [?u0; ?u1; ?u2]] =>
           destruct (inv3_apply _ _ _ _ _ _ _ _ _ _ x y z u0 u1 u2 Hi) as (w & Hw & Hv);
             [ring ..|]
       end.
  all: rewrite Hw; apply Forall2_length in Hv as Hl; cbn in Hl.
  all: apply length3 in Hl as (w0 & w1 & w2 & ->).
  all: cbn; eexists; (split; [reflexivity|]); (split; [reflexivity|]); (split; [| split; reflexivity]).
  all: unfold Np.veq in *.
  all: apply Forall2_cons_1 in Hv as [H0 Hv]; apply Forall2_cons_1 in Hv as [H1 Hv];
       apply Forall2_cons_1 in Hv as [H2 _].
  all: repeat apply List.Forall2_cons; try apply List.Forall2_nil; try assumption; reflexivity.
Qed.

(** C1. Round trip through world space: for every grid [g] that the
    constructor builds and every 3D or 4D coordinate [c], positions and
    directions alike, [world_to_grid (grid_to_world c)] succeeds and equals
    [c] entry by entry (exactly, numbers being rationals here); the fourth
    entry of a 4D coordinate is handed through unchanged by both maps. *)
Theorem grid_world_roundtrip `{Externals} (g : DataGrid.t) (c : Np.vector) (direction : bool) :
  constructed g -> (length c = 3 \/ length c = 4)%nat ->
  exists w c', DataGrid.grid_to_world g c direction = Ok w /\
               DataGrid.world_to_grid g w direction = Ok c' /\
               Np.veq c' c /\ w !! 3%nat = c !! 3%nat /\ c' !! 3%nat = c !! 3%nat.
Proof. apply world_grid_inverse. Qed.

Lemma constructed_shapes `{Externals} g :
  constructed g ->
  Np.shape_is (DataGrid.transform g) 3 3 = true /\
  Np.shape_is (DataGrid.inv_transform g) 3 3 = true /\
  length (DataGrid.origin g) = 3%nat /\ length (DataGrid.shape g) = 3%nat.
Proof.
  intros (shp & aff & Hg).
  apply init_inv in Hg as (Hl & Hs & Hi & Hsh & _ & Ho & Ht & _).
  apply shape_is_4_4 in Hs
    as (a00 & a01 & a02 & a03 & a10 & a11 & a12 & a13 & a20 & a21 & a22 & a23
        & a30 & a31 & a32 & a33 & ->).
  rewrite Ho, Ht, Hsh. apply linalg_inv_ok in Hi as (_ & _ & ->). auto.
Qed.

Lemma dot_mv_ok (m : Np.matrix) (v : Np.vector) n :
  Np.shape_is m n (length v) = true ->
  exists w, Np.dot_mv m v = Ok w /\ length w = n.
Proof.
  intros Hm. unfold Np.dot_mv. apply andb_prop in Hm as [Hl Hr].
  rewrite Hr. eexists. split; [reflexivity|].
  rewrite length_map. apply Nat.eqb_eq, Hl.
Qed.

Lemma take3_length {A} (c : list A) :
  (length c = 3 \/ length c = 4)%nat -> length (take 3 c) = 3%nat.
Proof. intros [Hc | Hc]; rewrite length_take; lia. Qed.

Lemma grid_to_world_ok `{Externals} g c direction :
  constructed g -> (length c = 3 \/ length c = 4)%nat ->
  exists w, DataGrid.grid_to_world g c direction = Ok w /\ length w = length c.
Proof.
  intros Hg Hc. apply constructed_shapes in Hg as (Ht & _ & Ho & _).
  unfold DataGrid.grid_to_world.
  pose proof (take3_length c Hc) as H3.
  destruct (dot_mv_ok (DataGrid.transform g) (take 3 c) 3) as (w & -> & Hw);
    [rewrite H3; exact Ht|].
  cbn [bind Result_Monad].
  assert (Hv : length (Np.vadd w (DataGrid.origin g)) = 3%nat).
  { unfold Np.vadd. rewrite length_zip_with. lia. }
  unfold py_nth.
  destruct Hc as [Hc | Hc]; rewrite Hc; cbn [Nat.eqb]; destruct direction; cbn [negb].
  1-2: eexists; split; [reflexivity | assumption].
  all: destruct (c !! 3%nat) as [c3|] eqn:E; [|apply lookup_ge_None in E; lia].
  all: eexists; split; [reflexivity|]; rewrite length_app; cbn [length]; lia.
Qed.

Lemma world_to_grid_ok `{Externals} g c direction :
  constructed g -> (length c = 3 \/ length c = 4)%nat ->
  exists w, DataGrid.world_to_grid g c direction = Ok w /\ length w = length c.
Proof.
  intros Hg Hc. apply constructed_shapes in Hg as (_ & Ht & Ho & _).
  unfold_world_to_grid.
  pose proof (take3_length c Hc) as H3.
  assert (Hv : length (Np.vsub (take 3 c) (DataGrid.origin g)) = 3%nat).
  { unfold Np.vsub. rewrite length_zip_with. lia. }
  rewrite H3, Ho. cbn [Nat.eqb]. unfold py_nth.
  destruct direction; cbn [negb bind Result_Monad].
  - destruct (dot_mv_ok (DataGrid.inv_transform g) (take 3 c) 3) as (w & -> & Hw);
      [rewrite H3; exact Ht|].
    destruct Hc as [Hc | Hc]; rewrite Hc; cbn [Nat.eqb].
    + eexists; split; [reflexivity | assumption].
    + destruct (c !! 3%nat) as [c3|] eqn:E; [|apply lookup_ge_None in E; lia].
      eexists; split; [reflexivity|]; rewrite length_app; cbn [length]; lia.
  - destruct (dot_mv_ok (DataGrid.inv_transform g) (Np.vsub (take 3 c) (DataGrid.origin g)) 3)
      as (w & -> & Hw); [rewrite Hv; exact Ht|].
    destruct Hc as [Hc | Hc]; rewrite Hc; cbn [Nat.eqb].
    + eexists; split; [reflexivity | assumption].
    + destruct (c !! 3%nat) as [c3|] eqn:E; [|apply lookup_ge_None in E; lia].
      eexists; split; [reflexivity|]; rewrite length_app; cbn [length]; lia.
Qed.

Lemma grid_to_grid_ok `{Externals} g f c direction :
  constructed g -> constructed f -> (length c = 3 \/ length c = 4)%nat ->
  exists w, DataGrid.grid_to_grid g c (Some f) None direction = Ok w /\ length w = length c.
Proof.
  intros Hg Hf Hc. unfold_grid_to_grid.
  destruct (grid_to_world_ok f c direction Hf Hc) as (w & -> & Hw).
  cbn [bind Result_Monad]. rewrite <- Hw in Hc.
  destruct (world_to_grid_ok g w direction Hg Hc) as (w' & -> & Hw').
  eexists; split; [reflexivity | congruence].
Qed.

Lemma grid_to_grid_ok' `{Externals} g t c direction :
  constructed g -> constructed t -> (length c = 3 \/ length c = 4)%nat ->
  exists w, DataGrid.grid_to_grid g c None (Some t) direction = Ok w /\ length w = length c.
Proof.
  intros Hg Hf Hc. unfold_grid_to_grid.
  destruct (grid_to_world_ok g c direction Hg Hc) as (w & -> & Hw).
  cbn [bind Result_Monad]. rewrite <- Hw in Hc.
  destruct (world_to_grid_ok t w direction Hf Hc) as (w' & -> & Hw').
  eexists; split; [reflexivity | congruence].
Qed.

(** C7. [grid_to_grid] on a 3D or 4D coordinate succeeds exactly when one
    of [from_grid] and [to_grid] is given and the other is not; with neither
    or with both it raises the same [RuntimeError] whatever the coordinate
    and the direction flag. *)
Theorem grid_to_grid_exactly_one `{Externals} (g : DataGrid.t) (coord : Np.vector)
    (from_grid to_grid : option DataGrid.t) (direction : bool) :
  constructed g ->
  (forall f, from_grid = Some f -> constructed f) ->
  (forall t, to_grid = Some t -> constructed t) ->
  (length coord = 3 \/ length coord = 4)%nat ->
  (is_ok (DataGrid.grid_to_grid g coord from_grid to_grid direction) = true <->
     (from_grid <> None /\ to_grid = None) \/ (from_grid = None /\ to_grid <> None))
  /\ ((from_grid = None /\ to_grid = None) \/ (from_grid <> None /\ to_grid <> None) ->
      forall any_coord any_direction,
        DataGrid.grid_to_grid g any_coord from_grid to_grid any_direction =
        Raise (RuntimeError "Exactly one of from_grid and to_grid must be specified")).
Proof.
  intros Hg Hf Ht Hc. split.
  - destruct from_grid as [f|], to_grid as [t|].
    + cbn. split; [discriminate|]. intros [[_ [=]] | [[=] _]].
    + destruct (grid_to_grid_ok g f coord direction Hg (Hf f eq_refl) Hc) as (w & -> & _).
      cbn. split; [intros _; left; split; [discriminate | reflexivity] | reflexivity].
    + destruct (grid_to_grid_ok' g t coord direction Hg (Ht t eq_refl) Hc) as (w & -> & _).
      cbn. split; [intros _; right; split; [reflexivity | discriminate] | reflexivity].
    + cbn. split; [discriminate|]. intros [[[] _] | [_ []]]; reflexivity.
  - intros [[-> ->] | [Hfn Htn]] c' d'; [reflexivity|].
    destruct from_grid, to_grid; try congruence. reflexivity.
Qed.

Lemma argmax_from_range l : forall bi b i r,
  Np.argmax_from bi b i l = r -> r = bi \/ (i <= r < i + length l)%nat.
Proof.
  induction l as [|x l IH]; intros bi b i r; cbn [Np.argmax_from length].
  - intros <-. left. reflexivity.
  - destruct (Qle_bool x b); intros Hr; apply IH in Hr; lia.
Qed.

Lemma argmax_lt v i : Np.argmax v = Ok i -> (i < length v)%nat.
Proof.
  destruct v as [|x l]; [discriminate|]. cbn [Np.argmax length].
  intros [= Hr]. apply argmax_from_range in Hr. lia.
Qed.

Lemma argmax_ok v : (0 < length v)%nat -> exists i, Np.argmax v = Ok i /\ (i < length v)%nat.
Proof.
  destruct v as [|x l]; cbn [length]; [lia|]. intros _.
  eexists. split; [reflexivity|].
  apply (argmax_lt (x :: l)). reflexivity.
Qed.

Lemma world_axes_ok `{Externals} g :
  constructed g ->
  exists a b c, DataGrid.world_axes g = Ok [a; b; c] /\ (a < 3 /\ b < 3 /\ c < 3)%nat.
Proof.
  intros Hg. apply constructed_shapes in Hg as (Ht & _).
  apply shape_is_rows in Ht as [Hl Hr].
  unfold DataGrid.world_axes. cbn [py_range seq mapM].
  assert (Hc : forall j, length (Np.vabs (Np.col (DataGrid.transform g) j)) = 3%nat).
  { intros j. unfold Np.vabs, Np.col. rewrite !length_map. exact Hl. }
  destruct (argmax_ok (Np.vabs (Np.col (DataGrid.transform g) 0))) as (a & -> & Ha); [rewrite Hc; lia|].
  destruct (argmax_ok (Np.vabs (Np.col (DataGrid.transform g) 1))) as (b & -> & Hb); [rewrite Hc; lia|].
  destruct (argmax_ok (Np.vabs (Np.col (DataGrid.transform g) 2))) as (c & -> & Hcc); [rewrite Hc; lia|].
  rewrite Hc in *. cbn. eauto 10.
Qed.

(** [np.argmax]: the entry found is maximal, and strictly above every
    entry before it. *)
Lemma argmax_from_spec (l : list Q) : forall (p : list Q) bi b,
  p !! bi = Some b ->
  (forall j y, p !! j = Some y -> y <= b) ->
  (forall j y, (j < bi)%nat -> p !! j = Some y -> y < b) ->
  exists x, (p ++ l) !! (Np.argmax_from bi b (length p) l) = Some x /\
    (forall j y, (p ++ l) !! j = Some y -> y <= x) /\
    (forall j y, (j < Np.argmax_from bi b (length p) l)%nat -> (p ++ l) !! j = Some y -> y < x).
Proof.
  induction l as [|x l IH]; intros p bi b Hb Hmax Hfirst; cbn [Np.argmax_from].
  - rewrite app_nil_r. eauto.
  - replace (p ++ x :: l) with ((p ++ [x]) ++ l) by (rewrite <- app_assoc; reflexivity).
    replace (S (length p)) with (length (p ++ [x])) by (rewrite length_app; cbn; lia).
    destruct (Qle_bool x b) eqn:E.
    + apply Qle_bool_iff in E. apply IH.
      * apply lookup_app_l_Some, Hb.
      * intros j y Hj. apply lookup_app_Some in Hj as [Hj | [_ Hj]]; [eauto|].
        apply list_lookup_singleton_Some in Hj as [_ <-]. exact E.
      * intros j y Hlt Hj. apply lookup_app_Some in Hj as [Hj | [Hge _]]; [eauto|].
        apply lookup_lt_Some in Hb. lia.
    + assert (Hlt : b < x).
      { apply Qnot_le_lt. intros Hle. apply Qle_bool_iff in Hle. congruence. }
      rewrite length_app. cbn [length]. rewrite Nat.add_1_r.
      replace (S (length p)) with (length (p ++ [x])) by (rewrite length_app; cbn; lia).
      apply IH.
      * rewrite lookup_app_r by lia. rewrite Nat.sub_diag. reflexivity.
      * intros j y Hj. apply lookup_app_Some in Hj as [Hj | [_ Hj]].
        -- apply Qle_trans with b; [eauto | apply Qlt_le_weak, Hlt].
        -- apply list_lookup_singleton_Some in Hj as [_ <-]. apply Qle_refl.
      * intros j y Hjl Hj. apply lookup_app_Some in Hj as [Hj | [Hge _]]; [|lia].
        apply Qle_lt_trans with b; [eauto | exact Hlt].
Qed.

Lemma argmax_spec (v : list Q) i :
  Np.argmax v = Ok i ->
  exists x, v !! i = Some x /\
    (forall j y, v !! j = Some y -> y <= x) /\
    (forall j y, (j < i)%nat -> v !! j = Some y -> y < x).
Proof.
  destruct v as [|x l]; [discriminate|]. cbn [Np.argmax]. intros [= <-].
  apply (argmax_from_spec l [x] 0%nat x).
  - reflexivity.
  - intros [|j] y; cbn; [intros [= <-]; apply Qle_refl | discriminate].
  - intros j y Hj. lia.
Qed.

Lemma lookup_map {A B} (f : A -> B) (l : list A) i : map f l !! i = f <$> (l !! i).
Proof.
  revert i. induction l as [|x l IH]; intros [|i]; cbn; [reflexivity .. | apply IH].
Qed.

(** [world_axes] holds, for each grid axis, the first row in which the
    column of the transform is largest in magnitude. *)
Lemma world_axes_dominant `{Externals} g :
  constructed g ->
  exists a b c, DataGrid.world_axes g = Ok [a; b; c] /\ (a < 3 /\ b < 3 /\ c < 3)%nat /\
    forall axis k, [a; b; c] !! axis = Some k ->
      (forall r, (r < 3)%nat ->
         Qabs (Np.mget (DataGrid.transform g) r axis)
         <= Qabs (Np.mget (DataGrid.transform g) k axis)) /\
      (forall r, (r < k)%nat ->
         Qabs (Np.mget (DataGrid.transform g) r axis)
         < Qabs (Np.mget (DataGrid.transform g) k axis)).
Proof.
  intros Hg. destruct (world_axes_ok g Hg) as (a & b & c & Hw & Ha & Hb & Hc).
  exists a, b, c. split; [exact Hw|]. split; [auto|].
  apply constructed_shapes in Hg as (Ht & _).
  apply shape_is_rows in Ht as [Hl _].
  assert (Hcol : forall axis r, (r < 3)%nat ->
            Np.vabs (Np.col (DataGrid.transform g) axis) !! r
            = Some (Qabs (Np.mget (DataGrid.transform g) r axis))).
  { intros axis r Hr. unfold Np.vabs, Np.col, Np.mget.
    destruct (lookup_lt_is_Some_2 (DataGrid.transform g) r) as [row E]; [lia|].
    rewrite (nth_lookup_Some _ _ [] _ E).
    etransitivity; [apply lookup_map|].
    etransitivity; [apply f_equal, lookup_map|].
    etransitivity; [apply f_equal, f_equal, E|]. reflexivity. }
  assert (Hspec : forall axis k, (k < 3)%nat ->
            Np.argmax (Np.vabs (Np.col (DataGrid.transform g) axis)) = Ok k ->
            (forall r, (r < 3)%nat ->
               Qabs (Np.mget (DataGrid.transform g) r axis)
               <= Qabs (Np.mget (DataGrid.transform g) k axis)) /\
            (forall r, (r < k)%nat ->
               Qabs (Np.mget (DataGrid.transform g) r axis)
               < Qabs (Np.mget (DataGrid.transform g) k axis))).
  { intros axis k Hk Hm. apply argmax_spec in Hm as (x & Hx & Hmax & Hfirst).
    assert (Hxx : Some x = Some (Qabs (Np.mget (DataGrid.transform g) k axis)))
      by (etransitivity; [symmetry; exact Hx | exact (Hcol axis k Hk)]).
    injection Hxx as ->.
    split; intros r Hr.
    - apply (Hmax r _ (Hcol axis r Hr)).
    - assert (Hr3 : (r < 3)%nat) by lia.
      apply (Hfirst r _ Hr (Hcol axis r Hr3)). }
  unfold DataGrid.world_axes in Hw. cbn [py_range seq mapM] in Hw.
  destruct (Np.argmax (Np.vabs (Np.col (DataGrid.transform g) 0))) as [a'|] eqn:E0;
    [|discriminate].
  destruct (Np.argmax (Np.vabs (Np.col (DataGrid.transform g) 1))) as [b'|] eqn:E1;
    [|discriminate].
  destruct (Np.argmax (Np.vabs (Np.col (DataGrid.transform g) 2))) as [c'|] eqn:E2;
    [|discriminate].
  cbn in Hw. injection Hw as <- <- <-.
  intros [|[|[|axis]]] k; cbn; intros [= <-]; auto.
Qed.

Ltac small_nat n :=
  match goal with
  | H : (n < 3)%nat |- _ =>
      destruct n as [|[|[|n]]]; [clear H | clear H | clear H | exfalso; lia]
  end.

(** C9. The dominant world axis of a grid axis is the first row in which
    the column of the transform for that axis is largest in magnitude; [wa]
    lists the dominant world axes of the three grid axes.  [get_ras_axes]
    returns exactly when [wa] is a permutation of 0, 1, 2; it then returns
    four integers, the last being 3, the first three inverting the
    assignment; when two grid axes have the same dominant world axis it
    raises [ValueError]. *)
Theorem get_ras_axes_bijection `{Externals} (g : DataGrid.t) :
  constructed g ->
  exists wa, DataGrid.world_axes g = Ok wa /\ length wa = 3%nat /\
    (forall axis k, wa !! axis = Some k ->
       (k < 3)%nat /\
       (forall r, (r < 3)%nat ->
          Qabs (Np.mget (DataGrid.transform g) r axis)
          <= Qabs (Np.mget (DataGrid.transform g) k axis)) /\
       (forall r, (r < k)%nat ->
          Qabs (Np.mget (DataGrid.transform g) r axis)
          < Qabs (Np.mget (DataGrid.transform g) k axis))) /\
    ((exists axes, DataGrid.get_ras_axes g = Ok axes) <-> wa ≡ₚ [0; 1; 2]%nat) /\
    (forall axes, DataGrid.get_ras_axes g = Ok axes ->
       length axes = 4%nat /\ axes !! 3%nat = Some 3%nat /\
       forall k a, (k < 3)%nat -> axes !! k = Some a -> wa !! a = Some k) /\
    (forall i j a, i <> j -> wa !! i = Some a -> wa !! j = Some a ->
       DataGrid.get_ras_axes g = Raise ValueError).
Proof.
  intros Hg.
  destruct (world_axes_dominant g Hg) as (a & b & c & Hw & (Ha & Hb & Hc) & Hdom).
  exists [a; b; c]. split; [exact Hw|]. split; [reflexivity|].
  split.
  { intros axis k Hk. split; [|apply Hdom, Hk].
    destruct axis as [|[|[|axis]]]; cbn in Hk; try discriminate;
      injection Hk as <-; assumption. }
  unfold DataGrid.get_ras_axes. rewrite Hw. clear Hw Hg Hdom.
  small_nat a; small_nat b; small_nat c; cbn.
  all: split; [| split].
  all: try (split; [intros _; apply (bool_decide_unpack _); vm_compute; exact I
                   | intros _; eexists; reflexivity]).
  all: try (split; [intros [? [=]]
                   | intros P; exfalso; revert P; apply (bool_decide_eq_false_1 _);
                     vm_compute; reflexivity]).
  all: try (intros axes [= <-]; split; [reflexivity|]; split; [reflexivity|];
            intros k x Hk Hx; small_nat k; cbn in Hx; injection Hx as <-; reflexivity).
  all: try (intros ? [=]).
  all: intros [|[|[|i]]] [|[|[|j]]] x Hij; cbn; try congruence; try discriminate.
  all: intros [= <-]; try discriminate; try reflexivity.
Qed.

Local Close Scope Q_scope.

(* --------------------------------------------------------------------- *)
(** ** Standard orientation *)

Local Open Scope Q_scope.

Lemma Qopp_square (x : Q) : (- x) * (- x) = x * x.
Proof. destruct x as [n d]. unfold Qmult, Qopp. cbn. f_equal. lia. Qed.

Lemma linalg_norm_vneg `{Externals} (v : Np.vector) :
  linalg_norm (Np.vneg v) = linalg_norm v.
Proof.
  unfold linalg_norm, Np.vneg. f_equal.
  induction v as [|x v IH]; [reflexivity|].
  cbn [map Np.qsum]. rewrite IH, Qopp_square. reflexivity.
Qed.

Lemma linalg_inv_exists (m : Np.matrix) :
  Np.shape_is m (length m) (length m) = true -> ~ Np.det (length m) m == 0 ->
  exists mi, Np.linalg_inv m = Ok mi.
Proof.
  intros Hs Hd. unfold Np.linalg_inv. rewrite Hs. cbn [negb].
  destruct (Qeq_bool _ 0) eqn:E; [apply Qeq_bool_eq in E; contradiction|].
  eexists. reflexivity.
Qed.

Ltac small_nat4 n :=
  match goal with
  | H : (n < 4)%nat |- _ =>
      destruct n as [|[|[|[|n]]]]; [clear H | clear H | clear H | clear H | exfalso; lia]
  end.

Ltac perm3 :=
  first [ reflexivity
        | apply perm_swap
        | apply perm_skip; apply perm_swap
        | eapply perm_trans; [apply perm_swap | apply perm_skip; apply perm_swap]
        | eapply perm_trans; [apply perm_skip; apply perm_swap | apply perm_swap]
        | eapply perm_trans; [apply perm_swap |
            eapply perm_trans; [apply perm_skip; apply perm_swap | apply perm_swap]] ].

(** C8. For every grid [g] that the constructor builds, [get_standard]
    returns a grid whose three spacings are a reordering of those of [g]. *)
Theorem get_standard_spacing `{Externals} (g : DataGrid.t) :
  constructed g ->
  exists g', DataGrid.get_standard g = Ok g' /\
             DataGrid.spacing g' ≡ₚ DataGrid.spacing g.
Proof.
  intros (shp & aff & Hg). pose proof Hg as Hinit.
  apply init_inv in Hg as (Hl & Hs & Hi & Hsh & Haf & _ & _ & Hsp).
  apply shape_is_4_4 in Hs
    as (a00 & a01 & a02 & a03 & a10 & a11 & a12 & a13 & a20 & a21 & a22 & a23
        & a30 & a31 & a32 & a33 & ->).
  apply length3 in Hl as (s0 & s1 & s2 & ->).
  apply linalg_inv_ok in Hi as (_ & HD & _).
  unfold DataGrid.get_standard, DataGrid.simplify_transforms.
  rewrite Haf, Hsh, Hsp.
  cbn [py_range seq foldM]. unfold DataGrid.order_step.
  set (absmat := map Np.vabs _).
  destruct (argmax_ok (Np.col absmat 0)) as (a & -> & Ha); [cbn; lia|].
  cbn [bind Result_Monad fst snd app].
  destruct (argmax_ok (Np.col absmat 1)) as (b & -> & Hb); [cbn; lia|].
  cbn [bind Result_Monad fst snd app].
  destruct (argmax_ok (Np.col absmat 2)) as (c & -> & Hc); [cbn; lia|].
  cbn [bind Result_Monad fst snd app].
  cbn [length Np.col map absmat] in Ha, Hb, Hc. clear absmat.
  match goal with
  | |- context [list_nat_eqb ?x ?y] => destruct (list_nat_eqb x y) eqn:E
  end.
  2: { cbn -[DataGrid.__init__]. rewrite Hinit. eexists; split; [reflexivity|]. rewrite Hsp. reflexivity. }
  small_nat4 a; small_nat4 b; small_nat4 c; try discriminate E; clear E.
  all: destruct (Np.Qlt_bool _ 0); destruct (Np.Qlt_bool _ 0); destruct (Np.Qlt_bool _ 0).
  all: cbn [app mapM py_nth lookup list_lookup bind Result_Monad fst snd enumerate length seq zip zip_with
            fold_left foldM DataGrid.adjust_origin Np.set_col Np.col Np.vneg Np.vsub Np.vscale
            map take drop nth insert list_insert].
  all: unfold DataGrid.__init__; cbn [length Nat.eqb negb Np.shape_is forallb andb Np.sub33 map take].
  all: match goal with
       | |- context [Np.linalg_inv ?m] =>
           destruct (linalg_inv_exists m) as (mi & ->); [reflexivity | |]
       end.
  all: try (intros Hd; apply HD; revert Hd;
            cbv [Np.det Np.minor Np.mget Np.sgn seq map nth delete list_delete Np.qsum Nat.even Nat.add
                 Np.sub33 take length];
            intros Hd;
            match type of Hd with
            | ?D' == 0 =>
                first [ apply Qeq_trans with D'; [ring | exact Hd]
                      | apply Qeq_trans with (- D'); [ring | rewrite Hd; reflexivity] ]
            end).
  all: cbn [bind Result_Monad]; eexists; (split; [reflexivity|]).
  all: cbn [DataGrid.spacing py_range seq map Np.col nth].
  all: repeat match goal with
         | |- context [linalg_norm [- ?x; - ?y; - ?z; - ?w]] =>
             change [- x; - y; - z; - w] with (Np.vneg [x; y; z; w]);
             rewrite linalg_norm_vneg
         end.
  all: perm3.
Qed.

Local Close Scope Q_scope.

(* --------------------------------------------------------------------- *)
(** ** Resampling onto the same grid *)

Local Open Scope Q_scope.

Lemma div_sum4 c0 c1 c2 c3 a0 a1 a2 a3 D d :
  ~ D == 0 -> c0 * a0 + (c1 * a1 + (c2 * a2 + c3 * a3)) == d * D ->
  c0 / D * a0 + (c1 / D * a1 + (c2 / D * a2 + (c3 / D * a3 + 0))) == d.
Proof.
  intros HD Hs.
  apply Qeq_trans with ((c0 * a0 + (c1 * a1 + (c2 * a2 + c3 * a3))) / D); [field; exact HD|].
  rewrite Hs. field. exact HD.
Qed.

Ltac split_forall2 :=
  repeat match goal with
         | |- Forall2 _ (_ :: _) (_ :: _) => apply List.Forall2_cons
         | |- Forall2 _ [] [] => apply List.Forall2_nil
         end.

(** [inv(A) . A] is the identity, entry by entry. *)
Lemma inv4_left (m : Np.matrix) :
  Np.shape_is m 4 4 = true -> ~ Np.det 4 m == 0 ->
  exists mi t, Np.linalg_inv m = Ok mi /\ Np.dot_mm mi m = Ok t /\ Np.meq t (Np.identity 4).
Proof.
  intros Hs HD.
  apply shape_is_4_4 in Hs
    as (a00 & a01 & a02 & a03 & a10 & a11 & a12 & a13 & a20 & a21 & a22 & a23
        & a30 & a31 & a32 & a33 & ->).
  unfold Np.linalg_inv. cbn [length Np.shape_is Nat.eqb forallb andb negb].
  destruct (Qeq_bool _ 0) eqn:E; [apply Qeq_bool_eq in E; contradiction|]. clear E.
  do 2 eexists. split; [reflexivity|]. split; [reflexivity|].
  set (D := Np.det 4 _) in *.
  cbv [Np.identity Np.minor Np.tabulate Np.dot Np.col Np.mget seq map nth delete list_delete
       zip_with Np.qsum Nat.add Nat.pred length Nat.eqb].
  unfold Np.meq, Np.veq. split_forall2.
  all: apply div_sum4; [exact HD|].
  all: subst D; cbv [Np.det Np.minor Np.mget Np.sgn seq map nth delete list_delete Np.qsum
                     Nat.even Nat.add].
  all: ring.
Qed.

Lemma small_bounds x : near_zero x -> - (1 # 1000) < x /\ x < 1 # 1000.
Proof.
  unfold near_zero, EQ_TOL. intros Hx. apply Qabs_Qlt_condition in Hx. destruct Hx. split; lra.
Qed.

Lemma unit_bounds x : near_one x -> 999 # 1000 < x /\ x < 1001 # 1000.
Proof.
  unfold near_one, EQ_TOL. intros Hx. apply Qabs_Qlt_condition in Hx. destruct Hx. split; lra.
Qed.

Lemma abs_small x : near_zero x -> Qabs x < 1 # 1000.
Proof.
  intros Hx. apply small_bounds in Hx as [Hl Hu]. apply Qabs_Qlt_condition. split; lra.
Qed.

Lemma abs_unit x : near_one x -> 999 # 1000 < Qabs x.
Proof.
  intros Hx. apply unit_bounds in Hx as [Hl Hu]. rewrite Qabs_pos by lra. exact Hl.
Qed.

Lemma test_small_unit a b : near_zero a -> near_one b -> Qle_bool (Qabs a) (Qabs b) = true.
Proof.
  intros Ha Hb. apply Qle_bool_iff. apply abs_small in Ha. apply abs_unit in Hb. lra.
Qed.

Lemma test_unit_small a b : near_zero a -> near_one b -> Qle_bool (Qabs b) (Qabs a) = false.
Proof.
  intros Ha Hb. destruct (Qle_bool (Qabs b) (Qabs a)) eqn:E; [|reflexivity].
  apply Qle_bool_iff in E. apply abs_small in Ha. apply abs_unit in Hb. lra.
Qed.

Lemma test_unit_pos b : near_one b -> Qle_bool 0 b = true.
Proof. intros Hb. apply Qle_bool_iff. apply unit_bounds in Hb. lra. Qed.

Lemma test_tol x e : Qabs (x - e) < EQ_TOL -> Qle_bool EQ_TOL (Qabs (x - e)) = false.
Proof.
  intros Hx. destruct (Qle_bool EQ_TOL (Qabs (x - e))) eqn:E; [|reflexivity].
  apply Qle_bool_iff in E. lra.
Qed.

Lemma near_identity4 (t : Np.matrix) :
  near_identity t ->
  exists t00 t01 t02 t03 t10 t11 t12 t13 t20 t21 t22 t23 t30 t31 t32 t33,
    t = [[t00; t01; t02; t03]; [t10; t11; t12; t13];
         [t20; t21; t22; t23]; [t30; t31; t32; t33]] /\
    (near_one t00 /\ near_zero t01 /\ near_zero t02 /\ near_zero t03) /\
    (near_zero t10 /\ near_one t11 /\ near_zero t12 /\ near_zero t13) /\
    (near_zero t20 /\ near_zero t21 /\ near_one t22 /\ near_zero t23) /\
    (near_zero t30 /\ near_zero t31 /\ near_zero t32 /\ near_one t33).
Proof.
  unfold near_identity. cbv [Np.identity Np.tabulate seq map Nat.eqb]. intros Ht.
  repeat match goal with
         | H : Forall2 _ _ (_ :: _) |- _ =>
             apply Forall2_cons_inv_r in H as (? & ? & ? & ? & ->)
         | H : Forall2 _ _ [] |- _ => apply Forall2_nil_inv_r in H as ->
         end.
  repeat eexists; assumption.
Qed.

Lemma meq_near_identity (t : Np.matrix) : Np.meq t (Np.identity 4) -> near_identity t.
Proof.
  unfold Np.meq, Np.veq, near_identity. intros Ht.
  eapply Forall2_impl; [exact Ht|]. intros r e Hr.
  eapply Forall2_impl; [exact Hr|]. cbn beta. intros x y Hxy.
  assert (Hz : x - y == 0) by (rewrite Hxy; ring).
  rewrite Hz. reflexivity.
Qed.

(** Decide the comparisons of [simplify_transforms] on a matrix whose
    entries are near 0 or near 1. *)
Ltac near_tests :=
  repeat match goal with
         | H : _ /\ _ |- _ => destruct H
         end;
  repeat match goal with
         | Hs : near_zero ?a, Hu : near_one ?b |- context [Qle_bool (Qabs ?a) (Qabs ?b)] =>
             rewrite (test_small_unit a b Hs Hu)
         | Hs : near_zero ?a, Hu : near_one ?b |- context [Qle_bool (Qabs ?b) (Qabs ?a)] =>
             rewrite (test_unit_small a b Hs Hu)
         | Hu : near_one ?b |- context [Qle_bool 0 ?b] =>
             rewrite (test_unit_pos b Hu)
         | H : Qabs (?x - ?e) < EQ_TOL |- context [Qle_bool EQ_TOL (Qabs (?x - ?e))] =>
             rewrite (test_tol x e H)
         | _ => progress cbn [negb nth andb]
         | |- context [if Qle_bool (Qabs ?a) (Qabs ?b) then _ else _] =>
             destruct (Qle_bool (Qabs a) (Qabs b))
         end.

(** On a matrix within tolerance of the identity, [simplify_transforms]
    finds the identity order and no flips, and [is_identity] holds. *)
Lemma simplify_near_identity (g : DataGrid.t) (t : Np.matrix) :
  length (DataGrid.shape g) = 3%nat -> near_identity t ->
  DataGrid.simplify_transforms g t = Ok ([0; 1; 2]%nat, [], t) /\ is_identity t = true.
Proof.
  intros Hl Ht. apply length3 in Hl as (s0 & s1 & s2 & Hs).
  apply near_identity4 in Ht
    as (t00 & t01 & t02 & t03 & t10 & t11 & t12 & t13 & t20 & t21 & t22 & t23
        & t30 & t31 & t32 & t33 & -> & He).
  assert (Ho : foldM (DataGrid.order_step
                 [[t00; t01; t02; t03]; [t10; t11; t12; t13];
                  [t20; t21; t22; t23]; [t30; t31; t32; t33]]
                 (map Np.vabs [[t00; t01; t02; t03]; [t10; t11; t12; t13];
                  [t20; t21; t22; t23]; [t30; t31; t32; t33]])) (py_range 3) ([], [])
               = Ok ([0; 1; 2]%nat, [])).
  { cbn [py_range seq foldM]. unfold DataGrid.order_step.
    cbn [map Np.vabs Np.col nth Np.argmax Np.argmax_from bind Result_Monad fst snd app].
    unfold Np.Qlt_bool, Np.mget. near_tests. all: reflexivity. }
  split.
  - unfold DataGrid.simplify_transforms. rewrite Ho, Hs. reflexivity.
  - unfold is_identity, Np.all_close, Np.Qlt_bool.
    cbv [length Np.identity Np.tabulate seq map Nat.eqb zip zip_with forallb fst snd andb].
    unfold near_zero, near_one in *. near_tests. reflexivity.
Qed.

Lemma run_get_data h l d : objs h !! l = Some d -> get_data l h = (Ok d, h).
Proof. intros E. unfold get_data. rewrite E. reflexivity. Qed.

Lemma run_get_grid h l g : grids h !! l = Some g -> get_grid l h = (Ok g, h).
Proof. intros E. unfold get_grid. rewrite E. reflexivity. Qed.

Lemma run_raw h l d a :
  objs h !! l = Some d -> rawdata d = Some a -> raw l h = (Ok a, h).
Proof.
  intros E Ea. unfold raw. cbn [bind St_Monad]. rewrite (run_get_data h l d E), Ea.
  reflexivity.
Qed.

Lemma run_bind {A B} (m : St A) (k : A -> St B) h a h' :
  m h = (Ok a, h') -> bind m k h = k a h'.
Proof. intros E. cbn [bind St_Monad]. rewrite E. reflexivity. Qed.

Lemma run_lift {A B} (r : Result A) (k : A -> St B) h a :
  r = Ok a -> bind (lift r) k h = k a h.
Proof. intros ->. reflexivity. Qed.

Lemma has_shape_ndim {A} shp (a : Np.ndarray A) :
  Np.has_shape shp a -> (Np.ndim a <= length shp)%nat.
Proof.
  unfold Np.ndim. revert a. induction shp as [|n shp IH]; intros a.
  - intros [x ->]. cbn. lia.
  - intros (l & -> & Hl & Hf). cbn [Np.shape length].
    destruct l as [|x l]; cbn [length]; [lia|].
    apply Forall_cons_1 in Hf as [Hx _]. apply IH in Hx. lia.
Qed.

(** C3. Resampling a data object onto its own grid (the affine being
    invertible as a 4x4 matrix) allocates a new data object on the same grid
    that holds the very raw array of the original; no interpolation routine
    is consulted, whatever [Externals] provides. *)
Theorem resample_same_grid `{Externals} (h : Heap) (self : loc) (d : QpData.t)
    (g : DataGrid.t) (a : Np.ndarray Q) (order : Z) :
  valid_data h self d g a ->
  ~ Np.det 4 (DataGrid.affine g) == 0 ->
  exists l d',
    resample self (grid d) order h
      = (Ok l, {| grids := grids h; objs := <[l := d']> (objs h) |}) /\
    objs h !! l = None /\
    rawdata d' = Some a /\ grid d' = grid d /\ roi d' = roi d /\
    name d' = (name d +:+ "_resampled")%string.
Proof.
  intros (Hd & Hg & Ha & Hc & Hnv & Hnd & Hroi & Hpos & Hshape) Hdet.
  pose proof (constructed_shapes g Hc) as (_ & _ & _ & Hl).
  destruct Hc as (shp & aff & Hinit).
  apply init_inv in Hinit as (_ & Hs & _ & _ & Haff & _).
  rewrite <- Haff in Hs.
  destruct (inv4_left (DataGrid.affine g) Hs Hdet) as (mi & t & Hi & Ht & Hid).
  destruct (simplify_near_identity g t Hl (meq_near_identity t Hid)) as [Hsimp Hident].
  unfold resample.
  rewrite (run_bind _ _ h a h (run_raw h self d a Hd Ha)).
  rewrite (run_bind _ _ h d h (run_get_data h self d Hd)).
  rewrite (run_bind _ _ h g h (run_get_grid h _ g Hg)).
  rewrite (run_bind _ _ h g h (run_get_grid h _ g Hg)).
  rewrite (run_lift _ _ h mi Hi).
  rewrite (run_lift _ _ h t Ht).
  rewrite (run_lift _ _ h _ Hsimp).
  cbn [fst snd]. rewrite Hident.
  cbn [list_nat_eqb py_range seq negb foldM].
  change (list_nat_eqb [0%nat; 1%nat; 2%nat] [0%nat; 1%nat; 2%nat]) with true.
  cbn [negb]. rewrite !(run_lift _ _ h a eq_refl).
  unfold NumpyData, QpData.__init__.
  assert (Hchk : roi d && negb ((if Nat.ltb 3 (Np.ndim a)
                                 then Z.of_nat (nth 3 (Np.shape a) O) else 1%Z) =? 1)%Z = false).
  { destruct (roi d) eqn:Er; [|reflexivity]. cbn [andb].
    rewrite (Hroi eq_refl) in Hshape. cbn [Z.eqb Pos.eqb] in Hshape. rewrite app_nil_r in Hshape.
    apply has_shape_ndim in Hshape. rewrite length_map, Hl in Hshape.
    destruct (Nat.ltb_spec 3 (Np.ndim a)); [lia | reflexivity]. }
  rewrite Hchk. cbn [bind St_Monad lift alloc_data].
  do 2 eexists. split; [reflexivity|].
  split; [apply not_elem_of_dom, is_fresh|].
  cbn. auto.
Qed.

Local Close Scope Q_scope.

(* --------------------------------------------------------------------- *)
(** ** ROI regions and the ROI check of resample *)

Lemma insert_unique_elem x l z : z ∈ Np.insert_unique x l <-> z = x \/ z ∈ l.
Proof.
  induction l as [|y r IH]; cbn [Np.insert_unique].
  - rewrite elem_of_cons, elem_of_nil. tauto.
  - destruct (Z.ltb_spec x y); [rewrite !elem_of_cons; tauto|].
    destruct (Z.eqb_spec x y) as [->|Hne].
    + rewrite !elem_of_cons. tauto.
    + rewrite !elem_of_cons, IH. tauto.
Qed.

Lemma insert_unique_sorted x l :
  StronglySorted Z.lt l -> StronglySorted Z.lt (Np.insert_unique x l).
Proof.
  induction l as [|y r IH]; cbn [Np.insert_unique]; intros Hs.
  - constructor; constructor.
  - apply StronglySorted_inv in Hs as [Hr Hy].
    destruct (Z.ltb_spec x y).
    + constructor; [constructor; assumption|].
      constructor; [assumption|].
      eapply List.Forall_impl; [|exact Hy]. cbn. intros; lia.
    + destruct (Z.eqb_spec x y) as [->|Hne]; [constructor; assumption|].
      constructor; [apply IH; exact Hr|].
      apply List.Forall_forall. intros z Hz. apply list_elem_of_In in Hz.
      apply insert_unique_elem in Hz as [-> | Hz]; [lia|].
      rewrite List.Forall_forall in Hy. apply Hy, list_elem_of_In, Hz.
Qed.

Lemma unique_elem l z : z ∈ Np.unique l <-> z ∈ l.
Proof.
  induction l as [|x l IH]; cbn; [reflexivity|].
  rewrite insert_unique_elem, elem_of_cons, IH. reflexivity.
Qed.

Lemma unique_sorted l : StronglySorted Z.lt (Np.unique l).
Proof.
  induction l as [|x l IH]; cbn; [constructor|].
  apply insert_unique_sorted, IH.
Qed.

Lemma filter_sorted (P : Z -> Prop) `{forall z, Decision (P z)} l :
  StronglySorted Z.lt l -> StronglySorted Z.lt (filter P l).
Proof.
  induction 1 as [|x l Hs IH Hx]; [constructor|].
  rewrite filter_cons. destruct (decide (P x)); [|exact IH].
  constructor; [exact IH|].
  apply List.Forall_forall. intros z Hz. apply list_elem_of_In, list_elem_of_filter in Hz as [_ Hz].
  rewrite List.Forall_forall in Hx. apply Hx, list_elem_of_In, Hz.
Qed.

(** The cast to 64 bits: among the positive integers it yields exactly the
    truncations below [2^63]. *)
Lemma to_int64_positive (x : Q) (z : Z) :
  (0 < z)%Z -> Np.to_int64 x = z <-> Np.trunc x = z /\ (z < 2 ^ 63)%Z.
Proof.
  intros Hz. unfold Np.to_int64.
  destruct (Z.leb_spec (- 2 ^ 63) (Np.trunc x)); destruct (Z.ltb_spec (Np.trunc x) (2 ^ 63));
    cbn [andb]; lia.
Qed.

(** C10, as amended. On an ROI whose regions are not cached yet, [regions]
    returns the values of the raw array after truncation to integer that are
    strictly positive and below [2^63], the range of the integer type the
    array is cast to: each exactly once, in strictly ascending order, and
    nothing else; the list is cached, so that a later call returns it
    again. *)
Theorem regions_distinct_positive (h : Heap) (self : loc) (d : QpData.t) (a : Np.ndarray Q) :
  objs h !! self = Some d -> rawdata d = Some a -> roi d = true -> _regions d = None ->
  exists r h',
    regions self h = (Ok r, h') /\
    StronglySorted Z.lt r /\
    (forall z, z ∈ r <->
       (0 < z < 2 ^ 63)%Z /\ exists x, x ∈ Np.flatten a /\ Np.trunc x = z) /\
    regions self h' = (Ok r, h').
Proof.
  intros Hd Ha Hroi Hnone.
  unfold regions at 1.
  rewrite (run_bind _ _ h d h (run_get_data h self d Hd)).
  rewrite Hroi, Hnone. cbn [negb].
  rewrite (run_bind _ _ h a h (run_raw h self d a Hd Ha)).
  set (r := filter _ _).
  cbn [bind St_Monad put_data ret].
  exists r. eexists. split; [reflexivity|].
  split; [apply filter_sorted, unique_sorted|].
  split.
  - intros z. subst r. rewrite list_elem_of_filter, unique_elem, list_elem_of_fmap.
    split.
    + intros [Hz (x & Hx & Hin)]. symmetry in Hx.
      apply (to_int64_positive x z Hz) in Hx as [Ht Hlt].
      split; [lia|]. exists x. auto.
    + intros [[Hz Hlt] (x & Hin & Ht)]. split; [exact Hz|].
      exists x. split; [|exact Hin]. symmetry. apply (to_int64_positive x z Hz). auto.
  - unfold regions. cbn [bind St_Monad get_data objs].
    rewrite lookup_insert_eq. cbn. rewrite Hroi. reflexivity.
Qed.


Lemma fold_min_elem (l : list Q) x :
  fold_left (fun m y => if Np.Qlt_bool y m then y else m) l x ∈ x :: l.
Proof.
  revert x. induction l as [|y l IH]; intros x; cbn [fold_left].
  - apply elem_of_cons; left; reflexivity.
  - specialize (IH (if Np.Qlt_bool y x then y else x)).
    apply elem_of_cons in IH as [-> | IH].
    + destruct (Np.Qlt_bool y x); rewrite !elem_of_cons; auto.
    + rewrite !elem_of_cons; auto.
Qed.

Lemma fold_max_elem (l : list Q) x :
  fold_left (fun m y => if Np.Qlt_bool m y then y else m) l x ∈ x :: l.
Proof.
  revert x. induction l as [|y l IH]; intros x; cbn [fold_left].
  - apply elem_of_cons; left; reflexivity.
  - specialize (IH (if Np.Qlt_bool x y then y else x)).
    apply elem_of_cons in IH as [-> | IH].
    + destruct (Np.Qlt_bool x y); rewrite !elem_of_cons; auto.
    + rewrite !elem_of_cons; auto.
Qed.

Local Open Scope Q_scope.

Lemma mod1_integer x z : x == inject_Z z -> Np.mod1 x == 0.
Proof.
  intros Hx. unfold Np.mod1. rewrite Hx at 2. rewrite Qfloor_Z. rewrite Hx. ring.
Qed.

(** The part of C2 that the code meets: all-integer data in range passes. *)
Lemma roi_check_accepts_integers (data : Np.ndarray Q) :
  Np.flatten data <> [] ->
  Forall (fun x => exists z, x == inject_Z z /\ (0 <= z < 2 ^ 32)%Z) (Np.flatten data) ->
  exists r, roi_check data = Ok r.
Proof.
  intros Hne Hall. unfold roi_check, Np.amin, Np.amax.
  destruct (Np.flatten data) as [|x l] eqn:E; [contradiction|].
  cbn [bind Result_Monad].
  rewrite List.Forall_forall in Hall.
  pose proof (fold_min_elem l x) as Hlo. pose proof (fold_max_elem l x) as Hhi.
  apply list_elem_of_In, Hall in Hlo as (zl & Hzl & Hrl).
  apply list_elem_of_In, Hall in Hhi as (zh & Hzh & Hrh).
  assert (H1 : Np.Qlt_bool (fold_left (fun m y => if Np.Qlt_bool y m then y else m) l x) 0
               = false).
  { unfold Np.Qlt_bool. apply negb_false_iff, Qle_bool_iff. rewrite Hzl.
    change 0 with (inject_Z 0). rewrite <- Zle_Qle. lia. }
  assert (H2 : Np.Qlt_bool (inject_Z (2 ^ 32))
                 (fold_left (fun m y => if Np.Qlt_bool m y then y else m) l x) = false).
  { unfold Np.Qlt_bool. apply negb_false_iff, Qle_bool_iff. rewrite Hzh.
    rewrite <- Zle_Qle. lia. }
  rewrite H1, H2. cbn [orb existsb].
  destruct (Hall x (or_introl eq_refl)) as (z & Hz & _).
  assert (H3 : Qeq_bool (Np.mod1 x) 0 = true).
  { apply Qeq_bool_iff, (mod1_integer x z Hz). }
  rewrite H3. cbn. eexists. reflexivity.
Qed.

Local Close Scope Q_scope.

(* --------------------------------------------------------------------- *)
(** ** Which operations write to grid objects *)

Lemma keeps_ret {A} (a : A) : keeps_grids (ret a : St A).
Proof. intros h. reflexivity. Qed.

Lemma keeps_lift {A} (r : Result A) : keeps_grids (lift r).
Proof. intros h. reflexivity. Qed.

Lemma keeps_raise {A} e : keeps_grids (raise e : St A).
Proof. intros h. reflexivity. Qed.

Lemma keeps_get_grid l : keeps_grids (get_grid l).
Proof. intros h. reflexivity. Qed.

Lemma keeps_get_data l : keeps_grids (get_data l).
Proof. intros h. reflexivity. Qed.

Lemma keeps_put_data l d : keeps_grids (put_data l d).
Proof. intros h. reflexivity. Qed.

Lemma keeps_alloc_data d : keeps_grids (alloc_data d).
Proof. intros h. reflexivity. Qed.

Lemma keeps_bind {A B} (m : St A) (k : A -> St B) :
  keeps_grids m -> (forall a, keeps_grids (k a)) -> keeps_grids (bind m k).
Proof.
  intros Hm Hk h. cbn [bind St_Monad]. specialize (Hm h).
  destruct (m h) as [[a|e] h1]; cbn [snd] in *; [|exact Hm].
  rewrite (Hk a h1). exact Hm.
Qed.

Create HintDb keeps discriminated.
#[local] Hint Resolve keeps_ret keeps_lift keeps_raise keeps_get_grid keeps_get_data
  keeps_put_data keeps_alloc_data : keeps.

(** Walk through a monadic definition, one bind or branch at a time. *)
Ltac keeps_step :=
  match goal with
  | |- keeps_grids (bind _ _) => apply keeps_bind; [| intros ?]
  | |- keeps_grids (match ?x with _ => _ end) => destruct x
  | |- keeps_grids _ => solve [auto with keeps]
  end.

Ltac keeps := repeat keeps_step.

Lemma keeps_raw self : keeps_grids (raw self).
Proof. unfold raw. keeps. Qed.
#[local] Hint Resolve keeps_raw : keeps.

Lemma keeps_volume self vol : keeps_grids (volume self vol).
Proof. unfold volume. keeps. Qed.
#[local] Hint Resolve keeps_volume : keeps.

Lemma keeps_position_grid `{Externals} grid : keeps_grids (position_grid grid).
Proof. unfold position_grid. keeps. Qed.

Lemma keeps_data_position self pos g : keeps_grids (data_position self pos g).
Proof. unfold data_position. keeps. Qed.
#[local] Hint Resolve keeps_position_grid keeps_data_position : keeps.

Lemma keeps_value `{Externals} self pos grid as_str :
  keeps_grids (value self pos grid as_str).
Proof. unfold value. keeps. Qed.
#[local] Hint Resolve keeps_value : keeps.

Lemma keeps_timeseries `{Externals} self pos grid : keeps_grids (timeseries self pos grid).
Proof. unfold timeseries. keeps. Qed.

Lemma keeps_NumpyData data g nm r : keeps_grids (NumpyData data g nm r).
Proof. unfold NumpyData. keeps. Qed.
#[local] Hint Resolve keeps_NumpyData : keeps.

Lemma keeps_resample `{Externals} self grid order : keeps_grids (resample self grid order).
Proof. unfold resample. keeps. Qed.
#[local] Hint Resolve keeps_resample : keeps.

Lemma keeps_mask `{Externals} self roi region vol invert output_flat output_mask :
  keeps_grids (mask self roi region vol invert output_flat output_mask).
Proof. unfold mask. keeps. Qed.

Lemma keeps_slice_geometry `{Externals} self plane vol :
  keeps_grids (slice_geometry self plane vol).
Proof. unfold slice_geometry. keeps. Qed.
#[local] Hint Resolve keeps_slice_geometry : keeps.

Lemma keeps_slice_data `{Externals} self plane vol order :
  keeps_grids (slice_data self plane vol order).
Proof. unfold slice_data. keeps. Qed.

Lemma keeps_regions self : keeps_grids (regions self).
Proof. unfold regions. keeps. Qed.

Lemma keeps_set_roi self r : keeps_grids (set_roi self r).
Proof. unfold set_roi. keeps. Qed.

Lemma keeps_bounding_step self slices dim : keeps_grids (bounding_step self slices dim).
Proof. unfold bounding_step. keeps. Qed.
#[local] Hint Resolve keeps_bounding_step : keeps.

Lemma keeps_for_each {A B} (f : A -> B -> St A) l :
  (forall a b, keeps_grids (f a b)) -> forall acc, keeps_grids (for_each f l acc).
Proof.
  intros Hf. induction l as [|x l IH]; intros acc; cbn [for_each]; keeps.
Qed.

Lemma keeps_get_bounding_box self ndim : keeps_grids (get_bounding_box self ndim).
Proof.
  unfold get_bounding_box. keeps. apply keeps_for_each. auto with keeps.
Qed.

Lemma set_2dt_effect self h :
  (fst (set_2dt self h) <> Ok tt -> snd (set_2dt self h) = h) /\
  (fst (set_2dt self h) = Ok tt ->
   exists d g,
     objs h !! self = Some d /\ grids h !! grid d = Some g /\
     grids (snd (set_2dt self h)) =
       <[grid d := with_shape g (<[2%nat := 1%Z]> (DataGrid.shape g))]> (grids h)).
Proof.
  unfold set_2dt. cbn [bind St_Monad]. unfold get_data, get_grid, lift, py_nth.
  destruct (objs h !! self) as [d|] eqn:Ed; cbn [fst snd]; [|split; [reflexivity | discriminate]].
  destruct (grids h !! grid d) as [g|] eqn:Eg; cbn [fst snd]; [|split; [reflexivity | discriminate]].
  destruct (DataGrid.shape g !! 2%nat) as [s2|]; cbn [fst snd]; [|split; [reflexivity | discriminate]].
  destruct (negb (nvols d =? 1)%Z || (s2 =? 1)%Z); cbn [fst snd raise put_data put_grid grids];
    [split; [reflexivity | discriminate]|].
  split; [intros []; reflexivity|]. intros _. exists d, g. auto.
Qed.

(** C4, as amended. [value], [timeseries], [mask], [resample],
    [slice_data], [regions], [get_bounding_box] and [set_roi] leave every
    grid object of the store as it was, whether they return or raise.
    [set_2dt] changes nothing when it raises; when it returns, it has
    overwritten the third entry of the shape of the data's own grid object
    with 1, in place, and left every other grid, and the rest of that grid,
    as they were. *)
Theorem core_operations_keep_grids `{Externals} :
  (forall self pos grid as_str, keeps_grids (value self pos grid as_str)) /\
  (forall self pos grid, keeps_grids (timeseries self pos grid)) /\
  (forall self roi region vol invert output_flat output_mask,
     keeps_grids (mask self roi region vol invert output_flat output_mask)) /\
  (forall self grid order, keeps_grids (resample self grid order)) /\
  (forall self plane vol order, keeps_grids (slice_data self plane vol order)) /\
  (forall self, keeps_grids (regions self)) /\
  (forall self ndim, keeps_grids (get_bounding_box self ndim)) /\
  (forall self r, keeps_grids (set_roi self r)) /\
  (forall self h,
     (fst (set_2dt self h) <> Ok tt -> snd (set_2dt self h) = h) /\
     (fst (set_2dt self h) = Ok tt ->
      exists d g,
        objs h !! self = Some d /\ grids h !! grid d = Some g /\
        grids (snd (set_2dt self h)) =
          <[grid d := with_shape g (<[2%nat := 1%Z]> (DataGrid.shape g))]> (grids h))).
Proof.
  repeat split; intros.
  - apply keeps_value.
  - apply keeps_timeseries.
  - apply keeps_mask.
  - apply keeps_resample.
  - apply keeps_slice_data.
  - apply keeps_regions.
  - apply keeps_get_bounding_box.
  - apply keeps_set_roi.
  - apply set_2dt_effect; assumption.
  - apply set_2dt_effect; assumption.
Qed.

(* --------------------------------------------------------------------- *)
(** ** Indexing of rectangular arrays *)

Lemma norm_int_in n i : (0 <= i < Z.of_nat n)%Z -> Np.norm_int n i = Ok (Z.to_nat i).
Proof.
  intros Hi. unfold Np.norm_int.
  destruct (Z.leb_spec 0 i); [|lia]. destruct (Z.ltb_spec i (Z.of_nat n)); [|lia].
  reflexivity.
Qed.


Lemma norm_int_lt n i k : Np.norm_int n i = Ok k -> (k < n)%nat.
Proof.
  unfold Np.norm_int.
  destruct (Z.leb_spec 0 i); destruct (Z.ltb_spec i (Z.of_nat n)); cbn [andb].
  all: try (intros [= <-]; lia).
  all: destruct (Z.leb_spec (- Z.of_nat n) i); destruct (Z.ltb_spec i 0); cbn [andb];
    try discriminate; intros [= <-]; lia.
Qed.

Lemma py_nth_lookup {A} (l : list A) k x : l !! k = Some x -> py_nth l k = Ok x.
Proof. intros E. unfold py_nth. rewrite E. reflexivity. Qed.

Lemma py_nth_lt {A} (l : list A) k : (k < length l)%nat -> exists x, py_nth l k = Ok x /\ l !! k = Some x.
Proof.
  intros Hk. unfold py_nth. destruct (l !! k) as [x|] eqn:E; [eauto|].
  apply lookup_ge_None in E. lia.
Qed.


Lemma slice_indices_full n :
  Np.slice_indices (Z.of_nat n) None None None = Ok (seq 0 n).
Proof.
  unfold Np.slice_indices. cbn [default Z.eqb Z.ltb Z.compare].
  replace ((Z.of_nat n - 0 + 1 - 1) / 1)%Z with (Z.of_nat n) by (rewrite Z.div_1_r; lia).
  rewrite Nat2Z.id. f_equal.
  rewrite <- (List.map_id (seq 0 n)) at 2. apply List.map_ext. intros k. lia.
Qed.

Lemma omap_lookup_seq_from {A} (l p : list A) :
  omap (fun k => (p ++ l) !! k) (seq (length p) (length l)) = l.
Proof.
  revert p. induction l as [|x l IH]; intros p; [reflexivity|].
  cbn [length seq]. cbn. rewrite list_lookup_middle by reflexivity.
  f_equal. specialize (IH (p ++ [x])).
  rewrite length_app, Nat.add_1_r, <- app_assoc in IH. exact IH.
Qed.

Lemma omap_lookup_seq {A} (l : list A) : omap (fun k => l !! k) (seq 0 (length l)) = l.
Proof. apply (omap_lookup_seq_from l []). Qed.

Lemma getitem_full_slice {A} rest (l : list (Np.ndarray A)) :
  Np.getitem (Np.full_slice :: rest) (Np.Arr l) =
  (sub <- mapM (Np.getitem rest) l ;; Ok (Np.Arr sub)).
Proof.
  unfold Np.full_slice. cbn [Np.getitem].
  rewrite slice_indices_full. cbn [bind Result_Monad]. rewrite omap_lookup_seq. reflexivity.
Qed.

Lemma mapM_inv {A B} (f : A -> Result B) l ys :
  mapM f l = Ok ys -> Forall2 (fun x y => f x = Ok y) l ys.
Proof.
  revert ys. induction l as [|x l IH]; intros ys; cbn [mapM].
  - intros [= <-]. constructor.
  - cbn [bind Result_Monad]. destruct (f x) as [y|] eqn:Ey; [|discriminate].
    destruct (mapM f l) as [ys'|]; [|discriminate]. intros [= <-].
    constructor; [exact Ey | apply IH; reflexivity].
Qed.

Lemma mapM_ok {A B} (f : A -> Result B) (P : B -> Prop) l :
  Forall (fun x => exists y, f x = Ok y /\ P y) l ->
  exists ys, mapM f l = Ok ys /\ length ys = length l /\ Forall P ys.
Proof.
  induction 1 as [|x l (y & Hy & Py) _ (ys & Hys & Hl & Hp)]; cbn [mapM].
  - exists []. repeat split. constructor.
  - rewrite Hy, Hys. cbn. exists (y :: ys). repeat split; [cbn; lia | constructor; assumption].
Qed.


(** Taking one volume [a[:, ..., :, k]] of a rectangular array. *)
Lemma getitem_last_axis {A} nv k pre : forall (a : Np.ndarray A),
  Np.has_shape (pre ++ [nv]) a -> (0 <= k < Z.of_nat nv)%Z ->
  exists v, Np.getitem (replicate (length pre) Np.full_slice ++ [Np.IInt k]) a = Ok v /\
            Np.has_shape pre v.
Proof.
  intros a Ha Hk. revert a Ha. induction pre as [|n pre IH]; intros a Ha.
  - destruct Ha as (l & -> & Hl & Hall). cbn [length replicate app Np.getitem].
    rewrite Hl, (norm_int_in nv k Hk). cbn [bind Result_Monad].
    destruct (py_nth_lt l (Z.to_nat k)) as (x & -> & Hx); [lia|].
    cbn. exists x. split; [reflexivity|].
    rewrite List.Forall_forall in Hall. apply Hall, list_elem_of_In, list_elem_of_lookup. eauto.
  - destruct Ha as (l & -> & Hl & Hall). cbn [length replicate app].
    rewrite getitem_full_slice.
    destruct (mapM_ok (Np.getitem (replicate (length pre) Np.full_slice ++ [Np.IInt k]))
                (Np.has_shape pre) l) as (ys & -> & Hys & Hp).
    { eapply List.Forall_impl; [|exact Hall]. intros x Hx. apply IH, Hx. }
    cbn. eexists. split; [reflexivity|]. exists ys. repeat split; [lia | exact Hp].
Qed.


(* --------------------------------------------------------------------- *)
(** ** Value lookup outside the data *)



Lemma as_index_integer k : as_index (inject_Z k) = Ok k.
Proof.
  unfold as_index. rewrite Qfloor_Z.
  destruct (Qeq_bool (inject_Z k) (inject_Z k)) eqn:E; [reflexivity|].
  apply Qeq_bool_neq in E. exfalso. apply E. reflexivity.
Qed.

(** Under the invariant, any non-negative volume number yields a 3D volume
    with the extents of the grid. *)
Lemma volume_ok `{Externals} h self d g a k :
  valid_data h self d g a -> (0 <= k)%Z ->
  exists v, volume self (inject_Z k) h = (Ok v, h) /\
            Np.has_shape (map Z.to_nat (DataGrid.shape g)) v.
Proof.
  intros (Hd & Hg & Ha & Hc & Hnv & Hnd & Hroi & Hpos & Hshape) Hk.
  unfold volume.
  rewrite (run_bind _ _ h a h (run_raw h self d a Hd Ha)).
  rewrite (run_bind _ _ h d h (run_get_data h self d Hd)).
  rewrite Hnd. destruct (nvols d =? 1)%Z eqn:E1; cbn [Z.eqb Pos.eqb].
  - rewrite app_nil_r in Hshape. exists a. split; [reflexivity | exact Hshape].
  - apply Z.eqb_neq in E1.
    pose proof (constructed_shapes g Hc) as (_ & _ & _ & Hl).
    set (kk := if Qle_bool (inject_Z k) (inject_Z (nvols d - 1)) then as_index (inject_Z k)
               else Ok (nvols d - 1)%Z).
    assert (Hkk : exists k', kk = Ok k' /\ (0 <= k' < nvols d)%Z).
    { subst kk. destruct (Qle_bool _ _) eqn:Eq.
      - apply Qle_bool_iff in Eq. rewrite <- Zle_Qle in Eq.
        rewrite as_index_integer. exists k. split; [reflexivity | lia].
      - exists (nvols d - 1)%Z. split; [reflexivity | lia]. }
    destruct Hkk as (k' & -> & Hk').
    rewrite (run_lift _ _ h k' eq_refl).
    destruct (getitem_last_axis (Z.to_nat (nvols d)) k' (map Z.to_nat (DataGrid.shape g)) a Hshape)
      as (v & Hv & Hvs); [lia|].
    rewrite length_map, Hl in Hv. cbn [replicate app] in Hv.
    unfold lift. rewrite Hv. eauto.
Qed.



Local Open Scope Q_scope.



Local Close Scope Q_scope.

(* --------------------------------------------------------------------- *)
(** ** Index expressions and inversion of store computations *)



Lemma has_shape_shape {A} shp : forall (a : Np.ndarray A),
  Np.has_shape shp a -> Forall (fun n => 0 < n)%nat shp -> Np.shape a = shp.
Proof.
  induction shp as [|n shp IH]; intros a Ha Hpos.
  - destruct Ha as [x ->]. reflexivity.
  - destruct Ha as (l & -> & Hl & Hall). apply Forall_cons_1 in Hpos as [Hn Hpos].
    cbn [Np.shape]. rewrite Hl. f_equal.
    destruct l as [|x l]; [cbn in Hl; lia|].
    apply Forall_cons_1 in Hall as [Hx _]. apply IH; assumption.
Qed.


Lemma bind_inv {A B} (m : St A) (k : A -> St B) h b h2 :
  bind m k h = (Ok b, h2) -> exists a h1, m h = (Ok a, h1) /\ k a h1 = (Ok b, h2).
Proof.
  cbn [bind St_Monad]. destruct (m h) as [[a|e] h1]; [eauto | discriminate].
Qed.

Lemma lift_inv {A} (r : Result A) h a h1 : lift r h = (Ok a, h1) -> r = Ok a /\ h1 = h.
Proof. unfold lift. intros [= -> ->]. auto. Qed.










(* --------------------------------------------------------------------- *)
(** ** Axis-aligned slices *)

Tactic Notation "invert_bind" hyp(H) "as" ident(a) ident(Hs) :=
  let h1 := fresh "h" in
  apply bind_inv in H as (a & h1 & Hs & H).




(* --------------------------------------------------------------------- *)
(** ** The theorems at the example data *)

Lemma unit_grid_constructed : DataGrid.constructed (H := Examples.externals) Examples.unit_grid.
Proof. exists [2; 2; 3]%Z, (Np.identity 4). reflexivity. Qed.

Lemma oblique_grid_constructed :
  DataGrid.constructed (H := Examples.externals) Examples.oblique_grid.
Proof. exists [2; 3; 4]%Z, Examples.oblique_affine. reflexivity. Qed.

Lemma skewed_grid_constructed :
  DataGrid.constructed (H := Examples.externals) Examples.skewed_grid.
Proof. exists [2; 2; 2]%Z, Examples.skewed_affine. reflexivity. Qed.

Lemma store_valid :
  valid_data (H := Examples.externals) Examples.store 0%nat Examples.ramp_data
             Examples.unit_grid Examples.ramp.
Proof.
  unfold valid_data. split; [reflexivity|]. split; [reflexivity|]. split; [reflexivity|].
  split; [exact unit_grid_constructed|].
  split; [vm_compute; discriminate|]. split; [reflexivity|]. split; [reflexivity|].
  split; [repeat constructor|].
  cbn. repeat (eexists; split; [reflexivity|]; split; [reflexivity|]; repeat constructor).
  all: repeat (eexists; split; [reflexivity|]; split; [reflexivity|]; repeat constructor).
  all: eexists; reflexivity.
Qed.

(** C1 at the oblique grid and the coordinate (1, 2, 3, 8). *)
Lemma grid_world_roundtrip_witness :
  exists w c',
    DataGrid.grid_to_world Examples.oblique_grid [1; 2; 3; 8]%Q false = Ok w /\
    DataGrid.world_to_grid Examples.oblique_grid w false = Ok c' /\
    Np.veq c' [1; 2; 3; 8]%Q /\ w !! 3%nat = Some 8%Q /\ c' !! 3%nat = Some 8%Q.
Proof.
  apply (grid_world_roundtrip (H := Examples.externals) Examples.oblique_grid [1; 2; 3; 8]%Q false).
  - exists [2; 3; 4]%Z, Examples.oblique_affine. reflexivity.
  - right. reflexivity.
Defined.

(** C7 with [from_grid] alone. *)
Lemma grid_to_grid_exactly_one_witness :
  is_ok (DataGrid.grid_to_grid Examples.unit_grid [1; 2; 3]%Q
           (Some Examples.oblique_grid) None false) = true.
Proof.
  apply (grid_to_grid_exactly_one (H := Examples.externals) Examples.unit_grid [1; 2; 3]%Q
           (Some Examples.oblique_grid) None false).
  - exists [2; 2; 3]%Z, (Np.identity 4). reflexivity.
  - intros f [= <-]. exists [2; 3; 4]%Z, Examples.oblique_affine. reflexivity.
  - intros t [=].
  - left. reflexivity.
  - left. split; [discriminate | reflexivity].
Defined.

(** C9 at the oblique grid. *)
Lemma get_ras_axes_bijection_witness :
  exists wa, DataGrid.world_axes Examples.oblique_grid = Ok wa /\ length wa = 3%nat /\
    (forall axis k, wa !! axis = Some k ->
       (k < 3)%nat /\
       (forall r, (r < 3)%nat ->
          Qabs (Np.mget (DataGrid.transform Examples.oblique_grid) r axis)
          <= Qabs (Np.mget (DataGrid.transform Examples.oblique_grid) k axis))%Q /\
       (forall r, (r < k)%nat ->
          Qabs (Np.mget (DataGrid.transform Examples.oblique_grid) r axis)
          < Qabs (Np.mget (DataGrid.transform Examples.oblique_grid) k axis))%Q) /\
    ((exists axes, DataGrid.get_ras_axes Examples.oblique_grid = Ok axes) <-> wa ≡ₚ [0; 1; 2]%nat) /\
    (forall axes, DataGrid.get_ras_axes Examples.oblique_grid = Ok axes ->
       length axes = 4%nat /\ axes !! 3%nat = Some 3%nat /\
       forall k a, (k < 3)%nat -> axes !! k = Some a -> wa !! a = Some k) /\
    (forall i j a, i <> j -> wa !! i = Some a -> wa !! j = Some a ->
       DataGrid.get_ras_axes Examples.oblique_grid = Raise ValueError).
Proof.
  apply (get_ras_axes_bijection (H := Examples.externals) Examples.oblique_grid).
  exists [2; 3; 4]%Z, Examples.oblique_affine. reflexivity.
Defined.

Example get_ras_axes_oblique : DataGrid.get_ras_axes Examples.oblique_grid = Ok [1; 0; 2; 3]%nat.
Proof. reflexivity. Qed.

Example get_ras_axes_skewed : DataGrid.get_ras_axes Examples.skewed_grid = Raise ValueError.
Proof. reflexivity. Qed.

(** C8 at the oblique grid. *)
Lemma get_standard_spacing_witness :
  exists g', DataGrid.get_standard (H := Examples.externals) Examples.oblique_grid = Ok g' /\
             DataGrid.spacing g' ≡ₚ DataGrid.spacing Examples.oblique_grid.
Proof.
  apply (get_standard_spacing (H := Examples.externals) Examples.oblique_grid).
  exists [2; 3; 4]%Z, Examples.oblique_affine. reflexivity.
Defined.

Example get_standard_oblique :
  (g <- DataGrid.get_standard (H := Examples.externals) Examples.oblique_grid ;;
   Ok (DataGrid.shape g, DataGrid.affine g, DataGrid.spacing g)) =
  Ok ([3; 2; 4]%Z, [[2; 0; 0; 1]; [0; 3; 0; 7]; [0; 0; 4; 9]; [0; 0; 0; 1]]%Q, [2; 3; 4]%Q).
Proof. reflexivity. Qed.

(** C3 at the example store. *)
Lemma resample_same_grid_witness :
  exists l d',
    resample (H := Examples.externals) 0%nat 0%nat 1 Examples.store
      = (Ok l, {| grids := grids Examples.store; objs := <[l := d']> (objs Examples.store) |}) /\
    objs Examples.store !! l = None /\
    rawdata d' = Some Examples.ramp /\ grid d' = 0%nat /\ roi d' = true /\
    name d' = "ramp_resampled"%string.
Proof.
  apply (resample_same_grid (H := Examples.externals) Examples.store 0%nat Examples.ramp_data
           Examples.unit_grid Examples.ramp 1).
  - exact store_valid.
  - vm_compute. discriminate.
Defined.

(** C10 at the example store. *)
Lemma regions_distinct_positive_witness :
  exists r h',
    regions 0%nat Examples.store = (Ok r, h') /\
    StronglySorted Z.lt r /\
    (forall z, z ∈ r <->
       (0 < z < 2 ^ 63)%Z /\ exists x, x ∈ Np.flatten Examples.ramp /\ Np.trunc x = z) /\
    regions 0%nat h' = (Ok r, h').
Proof.
  apply (regions_distinct_positive Examples.store 0%nat Examples.ramp_data Examples.ramp);
    reflexivity.
Defined.

(** C10, at the failing input.  An ROI that holds the labels 1, 2 and
    [10^19]: the third is a strictly positive value of the raw array, and
    is its own truncation, but the cast to 64 bits turns it into the
    smallest integer, which the test [r > 0] drops; [regions] returns the
    labels 1 and 2 only. *)
Theorem regions_beyond_64_bits :
  fst (regions 0%nat Examples.huge_store) = Ok [1; 2]%Z /\
  inject_Z (10 ^ 19) ∈ Np.flatten Examples.huge /\
  Np.trunc (inject_Z (10 ^ 19)) = (10 ^ 19)%Z /\ (0 < 10 ^ 19)%Z /\
  ~ (10 ^ 19)%Z ∈ [1; 2]%Z.
Proof.
  split; [vm_compute; reflexivity|].
  split; [apply list_elem_of_In; vm_compute; tauto|].
  split; [vm_compute; reflexivity|].
  split; [lia|].
  intros Hin. apply list_elem_of_In in Hin. cbn in Hin.
  destruct Hin as [Hin | [Hin | []]]; discriminate Hin.
Qed.

Example regions_ramp :
  fst (regions 0%nat Examples.store) = Ok [7; 8; 9; 10; 11; 12; 13; 14; 15; 16; 17; 18]%Z.
Proof. reflexivity. Qed.

(** C2, at the failing input.  The ROI check after interpolation accepts
    data that holds the fractional value 1/2 next to the integers 0 and 1:
    [roi_check] returns, and so does [resample] of the two-voxel ROI onto the
    grid of half the spacing with linear interpolation; the value 1/2 is then
    cut to 0 by the cast.  The message of the check says that ROIs must
    contain integers only. *)
Theorem resample_roi_accepts_fraction :
  roi_check Examples.interpolated
    = Ok (Np.Arr [Np.Arr [Np.Arr [Np.Scalar 0]]; Np.Arr [Np.Arr [Np.Scalar 0]];
                  Np.Arr [Np.Arr [Np.Scalar 1]]]%Q)
  /\ fst ((l <- resample (H := Examples.linear_externals) 0%nat 1%nat 1 ;; raw l)
            Examples.roi_store)
     = Ok (Np.Arr [Np.Arr [Np.Arr [Np.Scalar 0]]; Np.Arr [Np.Arr [Np.Scalar 0]];
                   Np.Arr [Np.Arr [Np.Scalar 1]]]%Q).
Proof. split; vm_compute; reflexivity. Qed.

(** C4, counterexample: [set_2dt] on the example data overwrites the shape
    [[2; 2; 3]] of the grid object with [[2; 2; 1]]. *)
Lemma set_2dt_changes_grid_shape : ~ keeps_geometry (set_2dt 0%nat).
Proof.
  intros Hk.
  destruct (Hk Examples.store 0%nat Examples.unit_grid eq_refl) as (g' & Hg' & Hshape & _).
  vm_compute in Hg'. injection Hg' as <-. discriminate Hshape.
Qed.



Lemma series_store_valid :
  valid_data (H := Examples.externals) Examples.series_store 0%nat Examples.series_data
             Examples.unit_grid Examples.series.
Proof.
  unfold valid_data. split; [reflexivity|]. split; [reflexivity|]. split; [reflexivity|].
  split; [exact unit_grid_constructed|].
  split; [vm_compute; discriminate|]. split; [reflexivity|]. split; [discriminate|].
  split; [repeat constructor|].
  cbn. repeat (eexists; split; [reflexivity|]; split; [reflexivity|]; repeat constructor).
  all: repeat (eexists; split; [reflexivity|]; split; [reflexivity|]; repeat constructor).
  all: repeat (eexists; split; [reflexivity|]; split; [reflexivity|]; repeat constructor).
  all: eexists; reflexivity.
Qed.


Example value_past_the_end :
  fst (value (H := Examples.externals) 0%nat [1; 1; 3; 0]%Q (Some 0%nat) false Examples.store)
  = Ok (VArr (Np.Scalar 0%Q)).
Proof. vm_compute. reflexivity. Qed.


Example slice_outside_volume :
  fst (slice_data (H := Examples.externals) 0%nat 1%nat 0 0
         {| grids := <[1%nat := Examples.grid_of [2; 2; 3]%Z
                                  [[1; 0; 0; 0]; [0; 1; 0; 0]; [0; 0; 1; 5]; [0; 0; 0; 1]]%Q]>
                       (grids Examples.store);
            objs := objs Examples.store |})
  = Ok (Np.full [2; 2]%nat 0%Q, Np.full [2; 2]%nat 0%Q, [[1; 0]; [0; 1]]%Q, [-256 # 512; -256 # 512]%Q).
Proof. vm_compute. reflexivity. Qed.

(** The examples of the specification. *)
Example orthoslice_of_identity_grid :
  (s <- OrthoSlice.__init__ (H := Examples.externals)
          (Examples.grid_of [10; 10; 10]%Z (Np.identity 4)) 2 5 ;;
   Ok (DataGrid.shape (OrthoSlice.super s), OrthoSlice.normal s))
  = Ok ([10; 10; 1]%Z, [0; 0; 1]%Q).
Proof. vm_compute. reflexivity. Qed.

Example bounding_box_of_block :
  fst (get_bounding_box 0%nat 3 Examples.block_store)
  = Ok [Np.ISlice (Some 2%Z) (Some 5%Z) None; Np.ISlice (Some 3%Z) (Some 6%Z) None;
        Np.ISlice (Some 1%Z) (Some 4%Z) None].
Proof. vm_compute. reflexivity. Qed.

Example regions_of_block : fst (regions 0%nat Examples.block_store) = Ok [1%Z].
Proof. vm_compute. reflexivity. Qed.

(* --------------------------------------------------------------------- *)
(** ** Coordinate maps: round trips, directions, composition *)

Local Open Scope Q_scope.

Lemma veq_sym a b : Np.veq a b -> Np.veq b a.
Proof.
  unfold Np.veq. intros Hab. induction Hab; constructor; [symmetry; assumption | assumption].
Qed.

Lemma veq_trans a b c : Np.veq a b -> Np.veq b c -> Np.veq a c.
Proof.
  unfold Np.veq. intros Hab. revert c. induction Hab as [|x y a b Hxy _ IH]; intros c Hbc.
  - apply Forall2_nil_inv_l in Hbc as ->. constructor.
  - apply Forall2_cons_inv_l in Hbc as (z & c' & Hyz & Hbc & ->).
    constructor; [rewrite Hxy; exact Hyz | apply IH, Hbc].
Qed.

Lemma veq3 (v : Np.vector) x y z :
  Np.veq v [x; y; z] -> exists a b c, v = [a; b; c] /\ a == x /\ b == y /\ c == z.
Proof.
  unfold Np.veq. intros Hv.
  apply Forall2_cons_inv_r in Hv as (a & r0 & Ha & Hv & ->).
  apply Forall2_cons_inv_r in Hv as (b & r1 & Hb & Hv & ->).
  apply Forall2_cons_inv_r in Hv as (c & r2 & Hc & Hv & ->).
  apply Forall2_nil_inv_r in Hv as ->. eauto 10.
Qed.

Lemma veq3_intro a b c x y z : a == x -> b == y -> c == z -> Np.veq [a; b; c] [x; y; z].
Proof. intros. unfold Np.veq. repeat apply List.Forall2_cons; try apply List.Forall2_nil; assumption. Qed.

(** The entries of a grid that the constructor built. *)
Lemma constructed_entries `{Externals} g :
  constructed g ->
  exists a00 a01 a02 a03 a10 a11 a12 a13 a20 a21 a22 a23 a30 a31 a32 a33,
    DataGrid.affine g = [[a00; a01; a02; a03]; [a10; a11; a12; a13];
                         [a20; a21; a22; a23]; [a30; a31; a32; a33]] /\
    DataGrid.transform g = [[a00; a01; a02]; [a10; a11; a12]; [a20; a21; a22]] /\
    DataGrid.origin g = [a03; a13; a23] /\
    Np.linalg_inv [[a00; a01; a02]; [a10; a11; a12]; [a20; a21; a22]]
      = Ok (DataGrid.inv_transform g) /\
    length (DataGrid.shape g) = 3%nat.
Proof.
  intros (shp & aff & Hg).
  apply init_inv in Hg as (Hl & Hs & Hi & Hsh & Haf & Ho & Ht & _).
  apply shape_is_4_4 in Hs
    as (a00 & a01 & a02 & a03 & a10 & a11 & a12 & a13 & a20 & a21 & a22 & a23
        & a30 & a31 & a32 & a33 & ->).
  cbn [Np.sub33 Np.col map take nth] in Ho, Ht, Hi.
  exists a00, a01, a02, a03, a10, a11, a12, a13, a20, a21, a22, a23, a30, a31, a32, a33.
  rewrite Hsh. auto.
Qed.

(** The 3x3 matrix applied to [inv(T) u], given up to equality of rationals. *)
Lemma inv3_apply_r a00 a01 a02 a10 a11 a12 a20 a21 a22 mi u0 u1 u2 :
  Np.linalg_inv [[a00; a01; a02]; [a10; a11; a12]; [a20; a21; a22]] = Ok mi ->
  exists x y z, Np.dot_mv mi [u0; u1; u2] = Ok [x; y; z] /\
    a00 * x + a01 * y + a02 * z == u0 /\
    a10 * x + a11 * y + a12 * z == u1 /\
    a20 * x + a21 * y + a22 * z == u2.
Proof.
  intros Hi. apply linalg_inv_ok in Hi as (_ & HD & ->).
  cbn [length] in *. set (D := Np.det 3 _) in *.
  do 3 eexists. split; [reflexivity|].
  cbv [Np.tabulate Np.dot Np.minor seq map nth delete list_delete zip_with Np.qsum
       Nat.add Nat.pred length].
  assert (HD' : D == a00 * (a11 * a22 - a12 * a21) - a01 * (a10 * a22 - a12 * a20)
                     + a02 * (a10 * a21 - a11 * a20)).
  { subst D. cbv [Np.det Np.minor Np.mget Np.sgn seq map nth delete list_delete Np.qsum Nat.even Nat.add]. ring. }
  cbv [Np.det Np.minor Np.mget Np.sgn seq map nth delete list_delete Np.qsum Nat.even Nat.add].
  repeat split.
  all: field_simplify_eq; [|exact HD]; rewrite HD'; ring.
Qed.

Lemma grid_world_inverse `{Externals} (g : DataGrid.t) (w : Np.vector)
    (direction : bool) :
  constructed g -> (length w = 3 \/ length w = 4)%nat ->
  exists c w', DataGrid.world_to_grid g w direction = Ok c /\
               DataGrid.grid_to_world g c direction = Ok w' /\
               Np.veq w' w /\ c !! 3%nat = w !! 3%nat /\ w' !! 3%nat = w !! 3%nat.
Proof.
  intros Hg Hw.
  destruct (constructed_entries g Hg)
    as (a00 & a01 & a02 & a03 & a10 & a11 & a12 & a13 & a20 & a21 & a22 & a23
        & a30 & a31 & a32 & a33 & _ & Ht & Ho & Hi & _).
  unfold DataGrid.grid_to_world. unfold_world_to_grid. rewrite Ho, Ht. clear Ho Ht.
  destruct Hw as [Hw | Hw];
    [apply length3 in Hw as (x & y & z & ->) | apply length4 in Hw as (x & y & z & t & ->)];
    destruct direction; cbn -[Np.dot_mv].
  all: match goal with
       | |- context [Np.dot_mv (DataGrid.inv_transform _) [?u0; ?u1; ?u2]] =>
           destruct (inv3_apply_r _ _ _ _ _ _ _ _ _ _ u0 u1 u2 Hi)
             as (p & q & r & -> & H0 & H1 & H2)
       end.
  all: cbn; do 2 eexists; (split; [reflexivity|]); (split; [reflexivity|]).
  all: split; [| split; reflexivity].
  all: unfold Np.veq; repeat apply List.Forall2_cons; try apply List.Forall2_nil;
       try reflexivity.
  all: cbn [Np.dot take zip_with Np.qsum].
  all: lra.
Qed.

(** The cast of three co-ordinates gives three co-ordinates, and leaves
    floats as they are. *)
Lemma astype3 (dt : Np.dtype) (a b c : Q) :
  exists p q r, Np.astype dt [a; b; c] = [p; q; r].
Proof. destruct dt; cbn; eauto. Qed.

Lemma astype_length (dt : Np.dtype) (v : Np.vector) : length (Np.astype dt v) = length v.
Proof. destruct dt; cbn [Np.astype]; [apply length_map | reflexivity]. Qed.

(** X1. Round trip through grid space: for every grid that the constructor
    builds and every 3D or 4D world coordinate [w], of integers or of
    floats, [grid_to_world (world_to_grid w)] succeeds, and the fourth entry
    is the one of [w] in both results.  The first three entries are those of
    [w] for a direction; for a position they are those of [w] plus what the
    cast to the type of [w] takes off the origin.  So the round trip gives
    back [w] for directions, for floats, and for integers when the origin of
    the grid is integral. *)
Theorem world_grid_world_roundtrip `{Externals} (g : DataGrid.t) (dt : Np.dtype)
    (w : Np.vector) (direction : bool) :
  constructed g -> (length w = 3 \/ length w = 4)%nat ->
  exists c w', DataGrid.world_to_grid_as dt g w direction = Ok c /\
               DataGrid.grid_to_world g c direction = Ok w' /\
               c !! 3%nat = w !! 3%nat /\ w' !! 3%nat = w !! 3%nat /\
               Np.veq (take 3 w')
                 (if direction then take 3 w
                  else Np.vadd (take 3 w)
                         (Np.vsub (DataGrid.origin g) (Np.astype dt (DataGrid.origin g)))) /\
               (direction = true \/
                Np.veq (Np.astype dt (DataGrid.origin g)) (DataGrid.origin g) ->
                Np.veq w' w).
Proof.
  intros Hg Hw.
  destruct (constructed_entries g Hg)
    as (a00 & a01 & a02 & a03 & a10 & a11 & a12 & a13 & a20 & a21 & a22 & a23
        & a30 & a31 & a32 & a33 & _ & Ht & Ho & Hi & _).
  unfold DataGrid.grid_to_world, DataGrid.world_to_grid_as. rewrite Ho, Ht. clear Ho Ht.
  destruct (astype3 dt a03 a13 a23) as (o0 & o1 & o2 & ->).
  destruct Hw as [Hw | Hw];
    [apply length3 in Hw as (x & y & z & ->) | apply length4 in Hw as (x & y & z & t & ->)];
    destruct direction; cbn -[Np.dot_mv].
  all: match goal with
       | |- context [Np.dot_mv (DataGrid.inv_transform _) [?u0; ?u1; ?u2]] =>
           destruct (inv3_apply_r _ _ _ _ _ _ _ _ _ _ u0 u1 u2 Hi)
             as (p & q & r & -> & H0 & H1 & H2)
       end.
  all: cbn; do 2 eexists; (split; [reflexivity|]); (split; [reflexivity|]).
  all: split; [reflexivity|]; split; [reflexivity|].
  all: split;
    [ apply veq3_intro; cbn [Np.dot take zip_with Np.qsum]; lra
    | intros [Hd | Ho]; [try discriminate Hd | try apply veq3 in Ho
                                                  as (? & ? & ? & [= <- <- <-] & E0 & E1 & E2)] ].
  all: unfold Np.veq; repeat apply List.Forall2_cons; try apply List.Forall2_nil;
       try reflexivity.
  all: cbn [Np.dot take zip_with Np.qsum].
  all: lra.
Qed.

(** The entries of the inverse transform of a constructed grid. *)
Lemma inverse_entries `{Externals} g :
  constructed g ->
  exists m00 m01 m02 m10 m11 m12 m20 m21 m22,
    DataGrid.inv_transform g = [[m00; m01; m02]; [m10; m11; m12]; [m20; m21; m22]].
Proof.
  intros Hg. apply constructed_shapes in Hg as (_ & Hi & _).
  apply shape_is_rows in Hi as [Hl Hr].
  apply length3 in Hl as (r0 & r1 & r2 & Hm). rewrite Hm in *.
  repeat match goal with H : Forall _ (_ :: _) |- _ => inversion H; clear H; subst end.
  repeat match goal with H : length ?r = 3%nat |- _ =>
    apply length3 in H as (? & ? & ? & ->) end.
  repeat eexists.
Qed.

(** X2. With [direction=True] the origin is left out, so that a direction
    is mapped like the difference of two positions: the images of [a] and
    [b] differ by the image of [a - b] taken as a direction, under
    [grid_to_world], and under [world_to_grid] when [a] and [b] are of the
    same type (both integers or both floats). *)
Theorem direction_is_displacement `{Externals} (g : DataGrid.t) (dt dt' : Np.dtype)
    (a b : Np.vector) :
  constructed g -> length a = 3%nat -> length b = 3%nat ->
  (exists wa wb wd,
     DataGrid.grid_to_world g a false = Ok wa /\
     DataGrid.grid_to_world g b false = Ok wb /\
     DataGrid.grid_to_world g (Np.vsub a b) true = Ok wd /\
     Np.veq (Np.vsub wa wb) wd) /\
  (exists ga gb gd,
     DataGrid.world_to_grid_as dt g a false = Ok ga /\
     DataGrid.world_to_grid_as dt g b false = Ok gb /\
     DataGrid.world_to_grid_as dt' g (Np.vsub a b) true = Ok gd /\
     Np.veq (Np.vsub ga gb) gd).
Proof.
  intros Hg Ha Hb.
  destruct (constructed_entries g Hg)
    as (a00 & a01 & a02 & a03 & a10 & a11 & a12 & a13 & a20 & a21 & a22 & a23
        & a30 & a31 & a32 & a33 & _ & Ht & Ho & _ & _).
  destruct (inverse_entries g Hg)
    as (m00 & m01 & m02 & m10 & m11 & m12 & m20 & m21 & m22 & Hm).
  apply length3 in Ha as (x & y & z & ->). apply length3 in Hb as (u & v & w & ->).
  unfold DataGrid.grid_to_world, DataGrid.world_to_grid_as. rewrite Ho, Ht, Hm.
  destruct (astype3 dt a03 a13 a23) as (o0 & o1 & o2 & ->).
  split; cbn; do 3 eexists; repeat (split; [reflexivity|]).
  all: apply veq3_intro; ring.
Qed.

(** X3. Both coordinate maps raise [ValueError] on fewer than three
    coordinates (the 3x3 matrix product fails).  With three or more they
    return the image of the first three, followed by the fourth entry when
    there are exactly four; entries of a longer coordinate are dropped. *)
Theorem coordinate_arity `{Externals} (g : DataGrid.t) (c : Np.vector) (direction : bool) :
  constructed g ->
  ((length c < 3)%nat ->
     DataGrid.grid_to_world g c direction = Raise ValueError /\
     DataGrid.world_to_grid g c direction = Raise ValueError) /\
  ((3 <= length c)%nat ->
     exists w v, DataGrid.grid_to_world g (take 3 c) direction = Ok w /\
                 DataGrid.world_to_grid g (take 3 c) direction = Ok v /\
                 length w = 3%nat /\ length v = 3%nat /\
                 DataGrid.grid_to_world g c direction
                   = Ok (w ++ (if Nat.eqb (length c) 4 then drop 3 c else [])) /\
                 DataGrid.world_to_grid g c direction
                   = Ok (v ++ (if Nat.eqb (length c) 4 then drop 3 c else []))).
Proof.
  intros Hg.
  destruct (constructed_entries g Hg)
    as (a00 & a01 & a02 & a03 & a10 & a11 & a12 & a13 & a20 & a21 & a22 & a23
        & a30 & a31 & a32 & a33 & _ & Ht & Ho & _ & _).
  destruct (inverse_entries g Hg)
    as (m00 & m01 & m02 & m10 & m11 & m12 & m20 & m21 & m22 & Hm).
  unfold DataGrid.grid_to_world. unfold_world_to_grid. rewrite Ho, Ht, Hm.
  split; intros Hc.
  - destruct c as [|x [|y [|z c]]]; cbn [length] in Hc; try lia;
      destruct direction; split; reflexivity.
  - destruct c as [|x [|y [|z c]]]; cbn [length] in Hc; try lia.
    destruct c as [|t [|t' c]]; destruct direction; cbn;
      do 2 eexists; repeat (split; [reflexivity|]); rewrite ?app_nil_r; reflexivity.
Qed.

(** Equal vectors, entry by entry, are transformed to equal vectors. *)
Lemma veq_length a b : Np.veq a b -> length a = length b.
Proof. apply Forall2_length. Qed.

Lemma dot_veq r : forall a b, Np.veq a b -> Np.dot r a == Np.dot r b.
Proof.
  unfold Np.dot, Np.veq. induction r as [|x r IH]; intros a b Hab; [reflexivity|].
  destruct Hab as [|p q a b Hpq Hab]; [reflexivity|].
  cbn [zip_with Np.qsum]. rewrite Hpq, (IH a b Hab). reflexivity.
Qed.

Lemma dot_mv_veq m a b r :
  Np.veq a b -> Np.dot_mv m a = Ok r -> exists r', Np.dot_mv m b = Ok r' /\ Np.veq r r'.
Proof.
  intros Hab. unfold Np.dot_mv. rewrite (veq_length a b Hab).
  destruct (forallb _ m); [|discriminate]. intros [= <-].
  eexists. split; [reflexivity|].
  unfold Np.veq. induction m as [|row m IH]; cbn [map]; constructor; [|exact IH].
  apply dot_veq, Hab.
Qed.

Lemma zip_with_veq (f : Q -> Q -> Q) (o : Np.vector) a b :
  (forall x y z, x == y -> f x z == f y z) ->
  Np.veq a b -> Np.veq (zip_with f a o) (zip_with f b o).
Proof.
  intros Hf Hab. unfold Np.veq in *. revert o.
  induction Hab as [|x y a b Hxy _ IH]; intros [|z o]; cbn [zip_with]; constructor;
    [apply Hf, Hxy | apply IH].
Qed.

Lemma veq_take n a b : Np.veq a b -> Np.veq (take n a) (take n b).
Proof. apply Forall2_take. Qed.

Lemma veq_app a b c d : Np.veq a b -> Np.veq c d -> Np.veq (a ++ c) (b ++ d).
Proof. apply Forall2_app. Qed.

Lemma veq_nth3 (a b : list Q) x :
  Forall2 Qeq a b -> py_nth a 3 = Ok x -> exists y, py_nth b 3 = Ok y /\ x == y.
Proof.
  unfold py_nth. intros Hab.
  destruct (a !! 3%nat) as [x'|] eqn:E; [|discriminate].
  intros [= <-].
  destruct (Forall2_lookup_l _ _ _ _ _ Hab E) as (y & -> & Hxy). eauto.
Qed.

Lemma world_to_grid_veq (g : DataGrid.t) w w' direction c :
  Np.veq w w' -> DataGrid.world_to_grid g w direction = Ok c ->
  exists c', DataGrid.world_to_grid g w' direction = Ok c' /\ Np.veq c c'.
Proof.
  intros Hw. unfold_world_to_grid.
  pose proof (veq_take 3 w w' Hw) as Ht.
  rewrite <- (veq_length w w' Hw), <- (veq_length _ _ Ht).
  set (v := if negb direction then _ else _).
  set (v' := if negb direction then _ else _).
  assert (Hv : forall x, v = Ok x -> exists x', v' = Ok x' /\ Np.veq x x').
  { subst v v'. destruct direction; cbn [negb].
    - intros x [= <-]. eauto.
    - destruct (Nat.eqb _ _); [|discriminate]. intros x [= <-].
      eexists. split; [reflexivity|]. apply zip_with_veq; [|exact Ht].
      intros p q r Hpq. rewrite Hpq. reflexivity. }
  destruct v as [x|]; [|discriminate]. destruct (Hv x eq_refl) as (x' & -> & Hx).
  cbn [bind Result_Monad].
  destruct (Np.dot_mv _ x) as [r|] eqn:Er; [|discriminate].
  destruct (dot_mv_veq _ x x' r Hx Er) as (r' & -> & Hr).
  cbn [bind Result_Monad].
  destruct (Nat.eqb (length w) 4).
  - destruct (py_nth w 3) as [t|] eqn:Et; [|discriminate].
    destruct (veq_nth3 w w' t Hw Et) as (t' & -> & Htt). cbn. intros [= <-].
    eexists. split; [reflexivity|]. apply veq_app; [exact Hr|].
    constructor; [exact Htt | constructor].
  - intros [= <-]. eauto.
Qed.

Lemma grid_to_grid_inverse_float `{Externals} (g t : DataGrid.t) (c : Np.vector)
    (direction : bool) :
  constructed g -> constructed t -> (length c = 3 \/ length c = 4)%nat ->
  (exists p c', DataGrid.grid_to_grid g c None (Some t) direction = Ok p /\
                DataGrid.grid_to_grid g p (Some t) None direction = Ok c' /\
                Np.veq c' c) /\
  (exists q c', DataGrid.grid_to_grid g c (Some t) None direction = Ok q /\
                DataGrid.grid_to_grid g q None (Some t) direction = Ok c' /\
                Np.veq c' c).
Proof.
  intros Hg Ht Hc.
  assert (Hgen : forall g t, constructed g -> constructed t ->
    exists p c', DataGrid.grid_to_grid g c None (Some t) direction = Ok p /\
                 DataGrid.grid_to_grid g p (Some t) None direction = Ok c' /\
                 Np.veq c' c).
  { clear g t Hg Ht. intros g t Hg Ht. unfold_grid_to_grid.
    destruct (world_grid_inverse g c direction Hg Hc) as (W & c0 & HW & Hc0 & Hv0 & _).
    rewrite HW. cbn [bind Result_Monad].
    assert (HWl : (length W = 3 \/ length W = 4)%nat).
    { destruct (grid_to_world_ok g c direction Hg Hc) as (W1 & HW1 & Hl).
      rewrite HW in HW1. injection HW1 as <-. lia. }
    destruct (grid_world_inverse t W direction Ht HWl) as (p & W' & Hp & HW' & HvW & _).
    rewrite Hp. exists p. rewrite HW'. cbn [bind Result_Monad].
    destruct (world_to_grid_veq g W W' direction c0 (veq_sym _ _ HvW) Hc0) as (c' & Hc' & Hv').
    exists c'. repeat split; [exact Hc'|].
    eapply veq_trans; [apply veq_sym, Hv' | exact Hv0]. }
  split; [apply Hgen; assumption|].
  destruct (Hgen t g Ht Hg) as (q & c' & Hq & Hc' & Hv).
  exists q, c'. unfold DataGrid.grid_to_grid in *. cbn [DataGrid.grid_to_grid_as] in *. auto.
Qed.

Lemma grid_to_grid_chain_float `{Externals} (ga gb gc : DataGrid.t) (v : Np.vector)
    (direction : bool) :
  constructed ga -> constructed gb -> constructed gc ->
  (length v = 3 \/ length v = 4)%nat ->
  exists p q r, DataGrid.grid_to_grid gb v (Some ga) None direction = Ok p /\
                DataGrid.grid_to_grid gc p (Some gb) None direction = Ok q /\
                DataGrid.grid_to_grid gc v (Some ga) None direction = Ok r /\
                Np.veq q r.
Proof.
  intros Ha Hb Hc Hv. unfold_grid_to_grid.
  destruct (grid_to_world_ok ga v direction Ha Hv) as (W & HW & HWl).
  rewrite HW. cbn [bind Result_Monad].
  assert (HWl' : (length W = 3 \/ length W = 4)%nat) by lia.
  destruct (grid_world_inverse gb W direction Hb HWl') as (p & W' & Hp & HW' & HvW & _).
  rewrite Hp. exists p. rewrite HW'. cbn [bind Result_Monad].
  destruct (world_to_grid_ok gc W direction Hc HWl') as (r & Hr & _).
  destruct (world_to_grid_veq gc W W' direction r (veq_sym _ _ HvW) Hr) as (q & Hq & Hqr).
  exists q, r. repeat split; [exact Hq | exact Hr | apply veq_sym, Hqr].
Qed.

(** Where the cast leaves the origin as it is, the type of the
    co-ordinates makes no difference. *)
Lemma zip_with_veq_r (f : Q -> Q -> Q) (v : Np.vector) a b :
  (forall x y z, x == y -> f z x == f z y) ->
  Np.veq a b -> Np.veq (zip_with f v a) (zip_with f v b).
Proof.
  intros Hf Hab. unfold Np.veq in *. revert v.
  induction Hab as [|x y a b Hxy _ IH]; intros [|z v]; cbn [zip_with]; constructor;
    [apply Hf, Hxy | apply IH].
Qed.

Lemma world_to_grid_as_exact (g : DataGrid.t) (dt : Np.dtype) w direction c :
  direction = true \/ Np.veq (Np.astype dt (DataGrid.origin g)) (DataGrid.origin g) ->
  DataGrid.world_to_grid g w direction = Ok c ->
  exists c', DataGrid.world_to_grid_as dt g w direction = Ok c' /\ Np.veq c' c.
Proof.
  intros Hex. unfold_world_to_grid. unfold DataGrid.world_to_grid_as.
  set (v := if negb direction then _ else _).
  set (v' := if negb direction then _ else _).
  assert (Hv : forall x, v = Ok x -> exists x', v' = Ok x' /\ Np.veq x x').
  { subst v v'. destruct direction; cbn [negb].
    - intros x [= <-]. eexists. split; [reflexivity | apply veq_refl].
    - destruct Hex as [Hd | Ho]; [discriminate Hd|].
      destruct (Nat.eqb _ _); [|discriminate]. intros x [= <-].
      eexists. split; [reflexivity|]. apply zip_with_veq_r; [|apply veq_sym, Ho].
      intros p q r Hpq. rewrite Hpq. reflexivity. }
  destruct v as [x|]; [|discriminate]. destruct (Hv x eq_refl) as (x' & -> & Hx).
  cbn [bind Result_Monad].
  destruct (Np.dot_mv _ x) as [r|] eqn:Er; [|discriminate].
  destruct (dot_mv_veq _ x x' r Hx Er) as (r' & -> & Hr).
  cbn [bind Result_Monad].
  destruct (Nat.eqb (length w) 4).
  - destruct (py_nth w 3) as [t|]; [|discriminate]. cbn. intros [= <-].
    eexists. split; [reflexivity|]. apply veq_app; [apply veq_sym, Hr | apply veq_refl].
  - intros [= <-]. eexists. split; [reflexivity | apply veq_sym, Hr].
Qed.

Lemma grid_to_world_veq (g : DataGrid.t) c c' direction w :
  Np.veq c c' -> DataGrid.grid_to_world g c direction = Ok w ->
  exists w', DataGrid.grid_to_world g c' direction = Ok w' /\ Np.veq w w'.
Proof.
  intros Hc. unfold DataGrid.grid_to_world.
  pose proof (veq_take 3 c c' Hc) as Ht.
  rewrite <- (veq_length c c' Hc).
  destruct (Np.dot_mv _ (take 3 c)) as [r|] eqn:Er; [|discriminate].
  destruct (dot_mv_veq _ _ _ r Ht Er) as (r' & -> & Hr).
  cbn [bind Result_Monad].
  assert (Hr' : Np.veq (if negb direction then Np.vadd r (DataGrid.origin g) else r)
                       (if negb direction then Np.vadd r' (DataGrid.origin g) else r')).
  { destruct direction; cbn [negb]; [exact Hr|].
    apply zip_with_veq; [|exact Hr]. intros p q s Hpq. rewrite Hpq. reflexivity. }
  destruct (Nat.eqb (length c) 4).
  - destruct (py_nth c 3) as [t|] eqn:Et; [|discriminate].
    destruct (veq_nth3 c c' t Hc Et) as (t' & -> & Htt). cbn. intros [= <-].
    eexists. split; [reflexivity|]. apply veq_app; [exact Hr'|].
    constructor; [exact Htt | constructor].
  - intros [= <-]. eauto.
Qed.

Lemma grid_to_grid_veq (g f : DataGrid.t) c c' direction r :
  Np.veq c c' -> DataGrid.grid_to_grid g c (Some f) None direction = Ok r ->
  exists r', DataGrid.grid_to_grid g c' (Some f) None direction = Ok r' /\ Np.veq r r'.
Proof.
  intros Hc. unfold_grid_to_grid.
  destruct (DataGrid.grid_to_world f c direction) as [w|] eqn:Ew; [|discriminate].
  destruct (grid_to_world_veq f c c' direction w Hc Ew) as (w' & -> & Hw).
  cbn [bind Result_Monad]. apply world_to_grid_veq, Hw.
Qed.

Lemma grid_to_grid_veq' (g t : DataGrid.t) c c' direction r :
  Np.veq c c' -> DataGrid.grid_to_grid g c None (Some t) direction = Ok r ->
  exists r', DataGrid.grid_to_grid g c' None (Some t) direction = Ok r' /\ Np.veq r r'.
Proof.
  intros Hc. unfold_grid_to_grid.
  destruct (DataGrid.grid_to_world g c direction) as [w|] eqn:Ew; [|discriminate].
  destruct (grid_to_world_veq g c c' direction w Hc Ew) as (w' & -> & Hw).
  cbn [bind Result_Monad]. apply world_to_grid_veq, Hw.
Qed.

(** X4. [grid_to_grid] with [to_grid=t] and [grid_to_grid] with
    [from_grid=t] undo each other, in either order, on 3D and 4D
    coordinates: for directions, and for positions when the cast to the type
    of the world co-ordinates leaves the origin of the grid converted to as
    it is (floats, or an integral origin). *)
Theorem grid_to_grid_inverse `{Externals} (dt : Np.dtype) (g t : DataGrid.t)
    (c : Np.vector) (direction : bool) :
  constructed g -> constructed t -> (length c = 3 \/ length c = 4)%nat ->
  (direction = true \/ Np.veq (Np.astype dt (DataGrid.origin t)) (DataGrid.origin t) ->
   exists p c', DataGrid.grid_to_grid_as dt g c None (Some t) direction = Ok p /\
                DataGrid.grid_to_grid g p (Some t) None direction = Ok c' /\
                Np.veq c' c) /\
  (direction = true \/ Np.veq (Np.astype dt (DataGrid.origin g)) (DataGrid.origin g) ->
   exists q c', DataGrid.grid_to_grid_as dt g c (Some t) None direction = Ok q /\
                DataGrid.grid_to_grid g q None (Some t) direction = Ok c' /\
                Np.veq c' c).
Proof.
  intros Hg Ht Hc.
  destruct (grid_to_grid_inverse_float g t c direction Hg Ht Hc)
    as ((p0 & c0 & Hp0 & Hc0 & Hv0) & (q0 & c1 & Hq0 & Hc1 & Hv1)).
  split; intros Hex.
  - unfold DataGrid.grid_to_grid in Hp0. cbn [DataGrid.grid_to_grid_as] in *.
    destruct (DataGrid.grid_to_world g c direction) as [W|]; [|discriminate].
    cbn [bind Result_Monad] in *.
    destruct (world_to_grid_as_exact t dt W direction p0 Hex Hp0) as (p & -> & Hpp).
    destruct (grid_to_grid_veq g t p0 p direction c0 (veq_sym _ _ Hpp) Hc0)
      as (c' & Hc' & Hcc).
    exists p, c'. split; [reflexivity|]. split; [exact Hc'|].
    eapply veq_trans; [apply veq_sym, Hcc | exact Hv0].
  - unfold DataGrid.grid_to_grid in Hq0. cbn [DataGrid.grid_to_grid_as] in *.
    destruct (DataGrid.grid_to_world t c direction) as [W|]; [|discriminate].
    cbn [bind Result_Monad] in *.
    destruct (world_to_grid_as_exact g dt W direction q0 Hex Hq0) as (q & -> & Hqq).
    destruct (grid_to_grid_veq' g t q0 q direction c1 (veq_sym _ _ Hqq) Hc1)
      as (c' & Hc' & Hcc).
    exists q, c'. split; [reflexivity|]. split; [exact Hc'|].
    eapply veq_trans; [apply veq_sym, Hcc | exact Hv1].
Qed.

(** X5. Conversions chain: taking a coordinate from grid [ga] to [gb] and
    on from [gb] to [gc] gives the coordinate that the conversion from [ga]
    to [gc] gives: for directions, and for positions when the cast to the
    type of the world co-ordinates leaves the origins of [gb] and [gc] as
    they are (floats, or integral origins). *)
Theorem grid_to_grid_chain `{Externals} (dt : Np.dtype) (ga gb gc : DataGrid.t)
    (v : Np.vector) (direction : bool) :
  constructed ga -> constructed gb -> constructed gc ->
  (length v = 3 \/ length v = 4)%nat ->
  direction = true \/
    (Np.veq (Np.astype dt (DataGrid.origin gb)) (DataGrid.origin gb) /\
     Np.veq (Np.astype dt (DataGrid.origin gc)) (DataGrid.origin gc)) ->
  exists p q r, DataGrid.grid_to_grid_as dt gb v (Some ga) None direction = Ok p /\
                DataGrid.grid_to_grid gc p (Some gb) None direction = Ok q /\
                DataGrid.grid_to_grid_as dt gc v (Some ga) None direction = Ok r /\
                Np.veq q r.
Proof.
  intros Ha Hb Hc Hv Hex.
  destruct (grid_to_grid_chain_float ga gb gc v direction Ha Hb Hc Hv)
    as (p0 & q0 & r0 & Hp0 & Hq0 & Hr0 & Hqr).
  unfold DataGrid.grid_to_grid in Hp0, Hr0. cbn [DataGrid.grid_to_grid_as] in *.
  destruct (DataGrid.grid_to_world ga v direction) as [W|]; [|discriminate].
  cbn [bind Result_Monad] in *.
  assert (Hexb : direction = true \/
                 Np.veq (Np.astype dt (DataGrid.origin gb)) (DataGrid.origin gb))
    by (destruct Hex as [Hd | [Hob _]]; auto).
  assert (Hexc : direction = true \/
                 Np.veq (Np.astype dt (DataGrid.origin gc)) (DataGrid.origin gc))
    by (destruct Hex as [Hd | [_ Hoc]]; auto).
  destruct (world_to_grid_as_exact gb dt W direction p0 Hexb Hp0) as (p & -> & Hpp).
  destruct (world_to_grid_as_exact gc dt W direction r0 Hexc Hr0) as (r & -> & Hrr).
  destruct (grid_to_grid_veq gc gb p0 p direction q0 (veq_sym _ _ Hpp) Hq0)
    as (q & Hq & Hqq).
  exists p, q, r. split; [reflexivity|]. split; [exact Hq|]. split; [reflexivity|].
  eapply veq_trans; [apply veq_sym, Hqq|].
  eapply veq_trans; [exact Hqr | apply veq_sym, Hrr].
Qed.

(** [np.array_equal] on matrices is equality entry by entry. *)
Lemma array_equal_meq a b : Np.array_equal a b = true <-> Np.meq a b.
Proof.
  unfold Np.array_equal, Np.meq, Np.veq. split.
  - intros Hab. apply andb_prop in Hab as [Hl Hab]. apply Nat.eqb_eq in Hl.
    revert b Hl Hab. induction a as [|r a IH]; intros [|s b] Hl Hab; try discriminate;
      constructor.
    + cbn [zip zip_with forallb fst snd] in Hab.
      apply andb_prop in Hab as [Hrs _]. apply andb_prop in Hrs as [Hl' Hrs].
      apply Nat.eqb_eq in Hl'. clear -Hl' Hrs.
      revert s Hl' Hrs. induction r as [|x r IH]; intros [|y s] Hl Hrs; try discriminate;
        constructor.
      * cbn in Hrs. apply andb_prop in Hrs as [Hxy _]. apply Qeq_bool_eq, Hxy.
      * cbn in Hrs. apply andb_prop in Hrs as [_ Hrs]. apply IH; [|exact Hrs].
        cbn in Hl. lia.
    + cbn [zip zip_with forallb] in Hab. apply andb_prop in Hab as [_ Hab].
      apply IH; [cbn in Hl; lia | exact Hab].
  - intros Hab. unfold Np.vector in *.
    rewrite (Forall2_length _ _ _ Hab), Nat.eqb_refl. cbn [andb].
    induction Hab as [|r s a b Hrs _ IH]; [reflexivity|].
    cbn [zip zip_with forallb fst snd]. rewrite IH, andb_true_r.
    rewrite (Forall2_length _ _ _ Hrs), Nat.eqb_refl. cbn [andb].
    clear -Hrs. induction Hrs as [|x y r s Hxy _ IH]; [reflexivity|].
    cbn. rewrite IH, andb_true_r. apply Qeq_eq_bool, Hxy.
Qed.

Lemma meq_refl a : Np.meq a a.
Proof. induction a; constructor; [apply veq_refl | assumption]. Qed.

Lemma meq_sym a b : Np.meq a b -> Np.meq b a.
Proof.
  unfold Np.meq. intros Hab. induction Hab; constructor; [apply veq_sym; assumption | assumption].
Qed.

Lemma meq_trans a b c : Np.meq a b -> Np.meq b c -> Np.meq a c.
Proof.
  unfold Np.meq. intros Hab. revert c. induction Hab as [|x y a b Hxy _ IH]; intros c Hbc.
  - apply Forall2_nil_inv_l in Hbc as ->. constructor.
  - apply Forall2_cons_inv_l in Hbc as (z & c' & Hyz & Hbc & ->).
    constructor; [eapply veq_trans; eassumption | apply IH, Hbc].
Qed.

(** X6. [matches] is an equivalence on grids: every grid matches itself,
    and matching is symmetric and transitive (the affines are compared with
    [np.array_equal], the shapes as lists). *)
Theorem matches_equivalence :
  (forall g, DataGrid.matches g g = true) /\
  (forall g1 g2, DataGrid.matches g1 g2 = true -> DataGrid.matches g2 g1 = true) /\
  (forall g1 g2 g3, DataGrid.matches g1 g2 = true -> DataGrid.matches g2 g3 = true ->
                    DataGrid.matches g1 g3 = true).
Proof.
  unfold DataGrid.matches. repeat split.
  - intros g. apply andb_true_intro. split; [apply array_equal_meq, meq_refl|].
    apply bool_decide_eq_true. reflexivity.
  - intros g1 g2 H12. apply andb_prop in H12 as [Ha Hs].
    apply andb_true_intro. split; [apply array_equal_meq, meq_sym, array_equal_meq, Ha|].
    apply bool_decide_eq_true. apply bool_decide_eq_true in Hs. congruence.
  - intros g1 g2 g3 H12 H23.
    apply andb_prop in H12 as [Ha Hs]. apply andb_prop in H23 as [Hb Ht].
    apply andb_true_intro. split.
    + apply array_equal_meq. eapply meq_trans; apply array_equal_meq; eassumption.
    + apply bool_decide_eq_true. apply bool_decide_eq_true in Hs, Ht. congruence.
Qed.

Lemma meq44 a00 a01 a02 a03 a10 a11 a12 a13 a20 a21 a22 a23 a30 a31 a32 a33
            b00 b01 b02 b03 b10 b11 b12 b13 b20 b21 b22 b23 b30 b31 b32 b33 :
  Np.meq [[a00; a01; a02; a03]; [a10; a11; a12; a13];
          [a20; a21; a22; a23]; [a30; a31; a32; a33]]
         [[b00; b01; b02; b03]; [b10; b11; b12; b13];
          [b20; b21; b22; b23]; [b30; b31; b32; b33]] ->
  (a00 == b00 /\ a01 == b01 /\ a02 == b02 /\ a03 == b03) /\
  (a10 == b10 /\ a11 == b11 /\ a12 == b12 /\ a13 == b13) /\
  (a20 == b20 /\ a21 == b21 /\ a22 == b22 /\ a23 == b23) /\
  (a30 == b30 /\ a31 == b31 /\ a32 == b32 /\ a33 == b33).
Proof.
  unfold Np.meq, Np.veq. intros Hm.
  repeat match goal with
         | H : Forall2 _ (_ :: _) (_ :: _) |- _ => apply Forall2_cons_1 in H as [? H]
         end.
  auto 20.
Qed.

(** X7. Grids that match have the same shape and send every coordinate to
    the same world point, and [grid_to_grid] between them returns the
    coordinate it was given. *)
Theorem matching_grids_share_coordinates `{Externals} (g1 g2 : DataGrid.t) (c : Np.vector)
    (direction : bool) :
  constructed g1 -> constructed g2 -> DataGrid.matches g1 g2 = true ->
  (length c = 3 \/ length c = 4)%nat ->
  DataGrid.shape g1 = DataGrid.shape g2 /\
  (exists w1 w2, DataGrid.grid_to_world g1 c direction = Ok w1 /\
                 DataGrid.grid_to_world g2 c direction = Ok w2 /\ Np.veq w1 w2) /\
  (exists c', DataGrid.grid_to_grid g1 c None (Some g2) direction = Ok c' /\ Np.veq c' c).
Proof.
  intros H1 H2 Hm Hc. unfold DataGrid.matches in Hm.
  apply andb_prop in Hm as [Ha Hs]. apply bool_decide_eq_true in Hs.
  apply array_equal_meq in Ha.
  split; [exact Hs|].
  assert (Hw : exists w1 w2, DataGrid.grid_to_world g1 c direction = Ok w1 /\
                 DataGrid.grid_to_world g2 c direction = Ok w2 /\ Np.veq w1 w2).
  { destruct (constructed_entries g1 H1)
      as (a00 & a01 & a02 & a03 & a10 & a11 & a12 & a13 & a20 & a21 & a22 & a23
          & a30 & a31 & a32 & a33 & Haf1 & Ht1 & Ho1 & _ & _).
    destruct (constructed_entries g2 H2)
      as (b00 & b01 & b02 & b03 & b10 & b11 & b12 & b13 & b20 & b21 & b22 & b23
          & b30 & b31 & b32 & b33 & Haf2 & Ht2 & Ho2 & _ & _).
    rewrite Haf1, Haf2 in Ha. apply meq44 in Ha
      as ((E00 & E01 & E02 & E03) & (E10 & E11 & E12 & E13) & (E20 & E21 & E22 & E23) & _).
    unfold DataGrid.grid_to_world. rewrite Ht1, Ht2, Ho1, Ho2.
    destruct Hc as [Hc | Hc];
      [apply length3 in Hc as (x & y & z & ->) | apply length4 in Hc as (x & y & z & t & ->)];
      destruct direction; cbn; do 2 eexists; repeat (split; [reflexivity|]).
    all: unfold Np.veq; repeat apply List.Forall2_cons; try apply List.Forall2_nil;
         try reflexivity.
    all: rewrite ?E00, ?E01, ?E02, ?E03, ?E10, ?E11, ?E12, ?E13, ?E20, ?E21, ?E22, ?E23;
         reflexivity. }
  split; [exact Hw|].
  destruct Hw as (w1 & w2 & Hw1 & Hw2 & Hv).
  unfold_grid_to_grid. rewrite Hw1. cbn [bind Result_Monad].
  destruct (world_grid_inverse g2 c direction H2 Hc) as (w & c0 & Hw & Hc0 & Hv0 & _).
  rewrite Hw2 in Hw. injection Hw as <-.
  destruct (world_to_grid_veq g2 w2 w1 direction c0 (veq_sym _ _ Hv) Hc0) as (c' & Hc' & Hv').
  exists c'. split; [exact Hc'|].
  eapply veq_trans; [apply veq_sym, Hv' | exact Hv0].
Qed.

Local Close Scope Q_scope.

(* --------------------------------------------------------------------- *)
(** ** What simplify_transforms returns *)

Local Open Scope Q_scope.

Lemma argmax4 (v0 v1 v2 v3 : Q) :
  exists k, Np.argmax [v0; v1; v2; v3] = Ok k /\ (k < 4)%nat /\
    (v0 <= nth k [v0; v1; v2; v3] 0 /\ v1 <= nth k [v0; v1; v2; v3] 0 /\
     v2 <= nth k [v0; v1; v2; v3] 0 /\ v3 <= nth k [v0; v1; v2; v3] 0) /\
    (forall j, (j < k)%nat -> nth j [v0; v1; v2; v3] 0 < nth k [v0; v1; v2; v3] 0).
Proof.
  destruct (argmax_ok [v0; v1; v2; v3]) as (k & Hk & Hlt); [cbn; lia|].
  exists k. split; [exact Hk|]. split; [exact Hlt|].
  destruct (argmax_spec _ _ Hk) as (x & Hx & Hmax & Hfirst).
  assert (Hn : nth k [v0; v1; v2; v3] 0 = x).
  { apply nth_lookup_Some with (d := 0) in Hx. exact Hx. }
  rewrite Hn. split.
  - repeat split; [apply (Hmax 0%nat) | apply (Hmax 1%nat) | apply (Hmax 2%nat)
                   | apply (Hmax 3%nat)]; reflexivity.
  - intros j Hj. apply (Hfirst j); [exact Hj|].
    cbn [length] in Hlt. destruct j as [|[|[|[|j]]]]; try lia; reflexivity.
Qed.

(** The sign test of [simplify_transforms]. *)
Lemma Qlt_bool_true a b : Np.Qlt_bool a b = true -> a < b.
Proof.
  unfold Np.Qlt_bool. intros Hab. apply negb_true_iff in Hab.
  apply Qnot_le_lt. intros Hle. apply Qle_bool_iff in Hle. congruence.
Qed.

Lemma Qlt_bool_false a b : Np.Qlt_bool a b = false -> b <= a.
Proof.
  unfold Np.Qlt_bool. intros Hab. apply negb_false_iff in Hab. apply Qle_bool_iff, Hab.
Qed.

Lemma Qabs_le_neg u w : w < 0 -> Qabs u <= Qabs w -> w <= u /\ u <= - w.
Proof.
  intros Hw Hu. rewrite (Qabs_neg w) in Hu by lra.
  apply Qabs_Qle_condition in Hu. destruct Hu. split; lra.
Qed.

Lemma Qabs_le_pos u w : 0 <= w -> Qabs u <= Qabs w -> - w <= u /\ u <= w.
Proof.
  intros Hw Hu. rewrite (Qabs_pos w) in Hu by lra.
  apply Qabs_Qle_condition in Hu. exact Hu.
Qed.

Ltac small_nat4' n :=
  match goal with
  | H : (n < 4)%nat |- _ =>
      destruct n as [|[|[|[|n]]]]; [clear H | clear H | clear H | clear H | exfalso; lia]
  end.

(** Turn the facts about one column into linear bounds. *)
Ltac column_bounds Hm :=
  let H0 := fresh "B" in let H1 := fresh "B" in let H2 := fresh "B" in let H3 := fresh "B" in
  match type of Hm with
  | _ <= Qabs ?w /\ _ =>
      match goal with
      | Hs : Np.Qlt_bool w 0 = true |- _ =>
          destruct Hm as (H0 & H1 & H2 & H3);
          apply Qlt_bool_true in Hs;
          apply (Qabs_le_neg _ _ Hs) in H0; apply (Qabs_le_neg _ _ Hs) in H1;
          apply (Qabs_le_neg _ _ Hs) in H2; apply (Qabs_le_neg _ _ Hs) in H3
      | Hs : Np.Qlt_bool w 0 = false |- _ =>
          destruct Hm as (H0 & H1 & H2 & H3);
          apply Qlt_bool_false in Hs;
          apply (Qabs_le_pos _ _ Hs) in H0; apply (Qabs_le_pos _ _ Hs) in H1;
          apply (Qabs_le_pos _ _ Hs) in H2; apply (Qabs_le_pos _ _ Hs) in H3
      end
  end.

Lemma simplify_cases (g : DataGrid.t) (mat : Np.matrix) :
  length (DataGrid.shape g) = 3%nat -> Np.shape_is mat 4 4 = true ->
  exists a b c reorder flip m',
    Np.argmax (Np.col (map Np.vabs mat) 0) = Ok a /\
    Np.argmax (Np.col (map Np.vabs mat) 1) = Ok b /\
    Np.argmax (Np.col (map Np.vabs mat) 2) = Ok c /\
    DataGrid.simplify_transforms g mat = Ok (reorder, flip, m') /\
    Np.shape_is m' 4 4 = true /\ NoDup flip /\ Forall (fun d => d < 3)%nat flip /\
    (([a; b; c] ≡ₚ [0; 1; 2]%nat /\ reorder = [a; b; c] /\ DataGrid.dominant_diagonal m') \/
     (~ [a; b; c] ≡ₚ [0; 1; 2]%nat /\ reorder = [0; 1; 2]%nat /\ flip = [] /\ m' = mat)).
Proof.
  intros Hl Hs.
  apply shape_is_4_4 in Hs
    as (a00 & a01 & a02 & a03 & a10 & a11 & a12 & a13 & a20 & a21 & a22 & a23
        & a30 & a31 & a32 & a33 & ->).
  apply length3 in Hl as (s0 & s1 & s2 & Hl).
  unfold DataGrid.simplify_transforms. rewrite Hl.
  cbn [py_range seq foldM]. unfold DataGrid.order_step.
  cbn [map Np.vabs Np.col nth].
  destruct (argmax4 (Qabs a00) (Qabs a10) (Qabs a20) (Qabs a30)) as (a & -> & Ha & Ma & _).
  destruct (argmax4 (Qabs a01) (Qabs a11) (Qabs a21) (Qabs a31)) as (b & -> & Hb & Mb & _).
  destruct (argmax4 (Qabs a02) (Qabs a12) (Qabs a22) (Qabs a32)) as (c & -> & Hc & Mc & _).
  exists a, b, c.
  cbn [bind Result_Monad fst snd app].
  small_nat4' a; small_nat4' b; small_nat4' c.
  all: match goal with
       | |- context [list_nat_eqb ?x ?y] =>
           let v := eval vm_compute in (list_nat_eqb x y) in
           change (list_nat_eqb x y) with v
       end.
  all: cbn match.
  all: try (do 3 eexists; do 5 (split; [reflexivity|]);
            split; [constructor|]; split; [constructor|]; right;
            split; [| repeat split; reflexivity];
            intros P; revert P; apply (bool_decide_eq_false_1 _); vm_compute; reflexivity).
  all: unfold Np.mget; cbn [nth] in *.
  all: repeat match goal with
              | |- context [Np.Qlt_bool ?x 0] =>
                  let S := fresh "S" in destruct (Np.Qlt_bool x 0) eqn:S
              end.
  all: cbn [app mapM py_nth lookup list_lookup bind Result_Monad fst snd enumerate length seq zip zip_with
            fold_left foldM DataGrid.adjust_origin Np.set_col Np.col Np.vneg Np.vsub Np.vscale
            map take drop nth insert list_insert].
  all: do 3 eexists; do 5 (split; [reflexivity|]).
  all: split; [apply (bool_decide_unpack _); vm_compute; exact I|].
  all: split; [repeat constructor; lia|].
  all: left; split; [perm3|]; split; [reflexivity|].
  all: column_bounds Ma; column_bounds Mb; column_bounds Mc.
  all: intros d r Hd Hr; small_nat d; cbn [length] in Hr; small_nat4' r;
       unfold Np.mget; cbn [nth].
  all: apply Qabs_Qle_condition; split; lra.
Qed.

(** X8. [simplify_transforms] on a 4x4 matrix never raises.  With [a], [b],
    [c] the rows of the biggest absolute value in the first three columns:
    when they are a permutation of 0, 1, 2 the axis order returned is
    [[a; b; c]] and in the matrix returned each of the first three columns
    has its biggest absolute value on the diagonal, with a non-negative
    sign; otherwise the order is [[0; 1; 2]], nothing is flipped and the
    matrix is returned as it was.  The flipped axes are distinct and below
    3, and the matrix returned is 4x4. *)
Theorem simplify_transforms_result (g : DataGrid.t) (mat : Np.matrix) :
  length (DataGrid.shape g) = 3%nat -> Np.shape_is mat 4 4 = true ->
  exists a b c reorder flip m',
    Np.argmax (Np.col (map Np.vabs mat) 0) = Ok a /\
    Np.argmax (Np.col (map Np.vabs mat) 1) = Ok b /\
    Np.argmax (Np.col (map Np.vabs mat) 2) = Ok c /\
    DataGrid.simplify_transforms g mat = Ok (reorder, flip, m') /\
    Np.shape_is m' 4 4 = true /\ NoDup flip /\ Forall (fun d => d < 3)%nat flip /\
    (([a; b; c] ≡ₚ [0; 1; 2]%nat /\ reorder = [a; b; c] /\ DataGrid.dominant_diagonal m') \/
     (~ [a; b; c] ≡ₚ [0; 1; 2]%nat /\ reorder = [0; 1; 2]%nat /\ flip = [] /\ m' = mat)).
Proof. apply simplify_cases. Qed.

Local Close Scope Q_scope.

(* --------------------------------------------------------------------- *)
(** ** Idempotence of the standard orientation; orthogonal slices *)

Local Open Scope Q_scope.

(** A matrix that already has a dominant diagonal is left as it is. *)
Lemma simplify_dominant (g : DataGrid.t) (m : Np.matrix) :
  length (DataGrid.shape g) = 3%nat -> Np.shape_is m 4 4 = true ->
  DataGrid.dominant_diagonal m ->
  DataGrid.simplify_transforms g m = Ok ([0; 1; 2]%nat, [], m).
Proof.
  intros Hl Hs Hd.
  apply shape_is_4_4 in Hs
    as (a00 & a01 & a02 & a03 & a10 & a11 & a12 & a13 & a20 & a21 & a22 & a23
        & a30 & a31 & a32 & a33 & ->).
  apply length3 in Hl as (s0 & s1 & s2 & Hl).
  assert (D0 : forall r, (r < 4)%nat -> Qabs (nth r [a00; a10; a20; a30] 0) <= a00).
  { intros r Hr. specialize (Hd 0%nat r). cbn [length] in Hd. unfold Np.mget in Hd.
    small_nat4' r; cbn [nth] in *; apply Hd; lia. }
  assert (D1 : forall r, (r < 4)%nat -> Qabs (nth r [a01; a11; a21; a31] 0) <= a11).
  { intros r Hr. specialize (Hd 1%nat r). cbn [length] in Hd. unfold Np.mget in Hd.
    small_nat4' r; cbn [nth] in *; apply Hd; lia. }
  assert (D2 : forall r, (r < 4)%nat -> Qabs (nth r [a02; a12; a22; a32] 0) <= a22).
  { intros r Hr. specialize (Hd 2%nat r). cbn [length] in Hd. unfold Np.mget in Hd.
    small_nat4' r; cbn [nth] in *; apply Hd; lia. }
  clear Hd.
  unfold DataGrid.simplify_transforms. rewrite Hl.
  cbn [py_range seq foldM]. unfold DataGrid.order_step.
  cbn [map Np.vabs Np.col nth].
  destruct (argmax4 (Qabs a00) (Qabs a10) (Qabs a20) (Qabs a30)) as (a & -> & Ha & _ & Fa).
  destruct (argmax4 (Qabs a01) (Qabs a11) (Qabs a21) (Qabs a31)) as (b & -> & Hb & _ & Fb).
  destruct (argmax4 (Qabs a02) (Qabs a12) (Qabs a22) (Qabs a32)) as (c & -> & Hc & _ & Fc).
  cbn [bind Result_Monad fst snd app].
  pose proof (D0 1%nat ltac:(lia)) as D01. pose proof (D0 2%nat ltac:(lia)) as D02.
  pose proof (D0 3%nat ltac:(lia)) as D03.
  pose proof (D1 2%nat ltac:(lia)) as D12. pose proof (D1 3%nat ltac:(lia)) as D13.
  pose proof (D2 3%nat ltac:(lia)) as D23.
  pose proof (Qle_Qabs a00) as Q0. pose proof (Qle_Qabs a11) as Q1.
  pose proof (Qle_Qabs a22) as Q2.
  cbn [nth] in D01, D02, D03, D12, D13, D23.
  assert (Ea : a = 0%nat).
  { destruct a as [|a]; [reflexivity|]. exfalso.
    specialize (Fa 0%nat ltac:(lia)).
    destruct a as [|[|[|a]]]; cbn [nth] in Fa; [lra | lra | lra | lia]. }
  assert (Eb : (b <= 1)%nat).
  { destruct b as [|[|b]]; [lia | lia |]. exfalso.
    specialize (Fb 1%nat ltac:(lia)).
    destruct b as [|[|b]]; cbn [nth] in Fb; [lra | lra | lia]. }
  assert (Ec : (c <= 2)%nat).
  { destruct c as [|[|[|c]]]; [lia | lia | lia |]. exfalso.
    specialize (Fc 2%nat ltac:(lia)).
    destruct c as [|c]; cbn [nth] in Fc; [lra | lia]. }
  subst a. clear Fa Fb Fc Ha.
  assert (S0 : Np.Qlt_bool a00 0 = false).
  { pose proof (D0 0%nat ltac:(lia)) as B. cbn [nth] in B. pose proof (Qabs_nonneg a00).
    unfold Np.Qlt_bool. apply negb_false_iff, Qle_bool_iff. lra. }
  assert (S1 : Np.Qlt_bool a11 0 = false).
  { pose proof (D1 1%nat ltac:(lia)) as B. cbn [nth] in B. pose proof (Qabs_nonneg a11).
    unfold Np.Qlt_bool. apply negb_false_iff, Qle_bool_iff. lra. }
  assert (S2 : Np.Qlt_bool a22 0 = false).
  { pose proof (D2 2%nat ltac:(lia)) as B. cbn [nth] in B. pose proof (Qabs_nonneg a22).
    unfold Np.Qlt_bool. apply negb_false_iff, Qle_bool_iff. lra. }
  destruct b as [|[|b]]; [| |lia]; (destruct c as [|[|[|c]]]; [| | |lia]).
  all: match goal with
       | |- context [list_nat_eqb ?x ?y] =>
           let v := eval vm_compute in (list_nat_eqb x y) in
           change (list_nat_eqb x y) with v
       end.
  all: cbn match; try reflexivity.
  unfold Np.mget. cbn [nth]. rewrite S0, S1, S2. reflexivity.
Qed.

Lemma simplify_transforms_idempotent_aux (g g' : DataGrid.t) (mat : Np.matrix)
    (reorder flip : list nat) (m' : Np.matrix) :
  length (DataGrid.shape g) = 3%nat -> length (DataGrid.shape g') = 3%nat ->
  Np.shape_is mat 4 4 = true ->
  DataGrid.simplify_transforms g mat = Ok (reorder, flip, m') ->
  DataGrid.simplify_transforms g' m' = Ok ([0; 1; 2]%nat, [], m').
Proof.
  intros Hl Hl' Hs Hr.
  destruct (simplify_cases g mat Hl Hs)
    as (a & b & c & r0 & f0 & m0 & Ha & Hb & Hc & Hr0 & Hs0 & _ & _ & Hcase).
  rewrite Hr in Hr0. injection Hr0 as <- <- <-.
  destruct Hcase as [(_ & _ & Hd) | (Hn & _ & _ & ->)].
  - apply simplify_dominant; assumption.
  - destruct (simplify_cases g' mat Hl' Hs)
      as (a' & b' & c' & r1 & f1 & m1 & Ha' & Hb' & Hc' & Hr1 & _ & _ & _ & Hcase).
    rewrite Ha in Ha'. rewrite Hb in Hb'. rewrite Hc in Hc'.
    injection Ha' as <-. injection Hb' as <-. injection Hc' as <-.
    destruct Hcase as [(Hp & _) | (_ & -> & -> & ->)]; [contradiction | exact Hr1].
Qed.

(** X9. [simplify_transforms] is idempotent: on a matrix that it returned
    it reorders nothing, flips nothing and returns that matrix. *)
Theorem simplify_transforms_idempotent (g g' : DataGrid.t) (mat : Np.matrix)
    (reorder flip : list nat) (m' : Np.matrix) :
  length (DataGrid.shape g) = 3%nat -> length (DataGrid.shape g') = 3%nat ->
  Np.shape_is mat 4 4 = true ->
  DataGrid.simplify_transforms g mat = Ok (reorder, flip, m') ->
  DataGrid.simplify_transforms g' m' = Ok ([0; 1; 2]%nat, [], m').
Proof. apply simplify_transforms_idempotent_aux. Qed.

(** X10. [get_standard] is idempotent: the grid it returns is one the
    constructor builds, and [get_standard] of that grid is that grid. *)
Theorem get_standard_idempotent `{Externals} (g g' : DataGrid.t) :
  constructed g -> DataGrid.get_standard g = Ok g' ->
  DataGrid.get_standard g' = Ok g' /\ constructed g'.
Proof.
  intros Hg Hstd. destruct Hg as (shp & aff & Hg).
  apply init_inv in Hg as (Hl & Hs & _ & Hsh & Haf & _).
  unfold DataGrid.get_standard in Hstd.
  destruct (DataGrid.simplify_transforms g (DataGrid.affine g)) as [[[r f] m']|] eqn:Er;
    [|discriminate].
  cbn [bind Result_Monad fst snd] in Hstd.
  destruct (mapM (py_nth (DataGrid.shape g)) r) as [ns|] eqn:En; [|discriminate].
  cbn [bind Result_Monad] in Hstd.
  pose proof Hstd as Hinit.
  apply init_inv in Hstd as (Hl' & Hs' & _ & Hsh' & Haf' & _).
  split; [|exists ns, m'; exact Hinit].
  unfold DataGrid.get_standard. rewrite Haf'.
  rewrite (simplify_transforms_idempotent_aux g g' (DataGrid.affine g) r f m').
  - cbn [bind Result_Monad fst snd]. rewrite Hsh'.
    apply length3 in Hl' as (n0 & n1 & n2 & ->). cbn. exact Hinit.
  - rewrite Hsh. exact Hl.
  - rewrite Hsh'. exact Hl'.
  - rewrite Haf. exact Hs.
  - exact Er.
Qed.

(** X11. [OrthoSlice] of a constructed grid across one of its three axes
    succeeds and is itself a constructed grid: its shape is the shape of the
    grid without the entry of [zaxis], followed by 1; its normal and its
    basis are the columns of the transform for [zaxis] and for the other two
    axes; and the point [(u, v, w)] of the slice is the world point of the
    grid coordinate that has [pos + w] along [zaxis] and [u], [v] along the
    other two axes. *)
Theorem orthoslice_geometry `{Externals} (g : DataGrid.t) (zaxis : nat) (pos : Q) :
  constructed g -> (zaxis < 3)%nat ->
  exists s, OrthoSlice.__init__ g zaxis pos = Ok s /\
    constructed (OrthoSlice.super s) /\
    DataGrid.shape (OrthoSlice.super s) = delete zaxis (DataGrid.shape g) ++ [1%Z] /\
    OrthoSlice.normal s = Np.col (DataGrid.transform g) zaxis /\
    OrthoSlice.basis s = map (Np.col (DataGrid.transform g)) (delete zaxis [0; 1; 2]%nat) /\
    forall u v w, exists p q,
      DataGrid.grid_to_world (OrthoSlice.super s) [u; v; w] false = Ok p /\
      DataGrid.grid_to_world g (take zaxis [u; v] ++ [pos + w] ++ drop zaxis [u; v]) false
        = Ok q /\
      Np.veq p q.
Proof.
  intros Hg Hz.
  destruct (constructed_entries g Hg)
    as (a00 & a01 & a02 & a03 & a10 & a11 & a12 & a13 & a20 & a21 & a22 & a23
        & a30 & a31 & a32 & a33 & Haf & Ht & Ho & Hi & Hl).
  apply length3 in Hl as (s0 & s1 & s2 & Hl).
  apply linalg_inv_ok in Hi as (_ & HD & _).
  unfold OrthoSlice.__init__. rewrite Ht.
  small_nat zaxis.
  all: cbn [py_range seq foldM]; unfold OrthoSlice.place_axis; rewrite Haf, Hl.
  all: cbn [py_range seq foldM Nat.eqb negb fst snd py_nth lookup
            list_lookup bind Result_Monad Np.zeros2 Np.tabulate map Np.set_col Np.col nth
            zip_with insert list_insert length drop app Np.vadd Np.vscale_l].
  all: match goal with
       | |- context [DataGrid.__init__ ?shp ?aff] =>
           destruct (DataGrid.__init__ shp aff) as [sg|e] eqn:Einit
       end.
  all: try (exfalso; revert Einit; unfold DataGrid.__init__;
            cbn [length Nat.eqb negb Np.shape_is forallb andb Np.sub33 map take];
            match goal with
            | |- context [Np.linalg_inv ?m] =>
                destruct (linalg_inv_exists m) as (mi & ->); [reflexivity | | discriminate]
            end;
            intros Hd; apply HD; revert Hd;
            cbv [Np.det Np.minor Np.mget Np.sgn seq map nth delete list_delete Np.qsum
                 Nat.even Nat.add Np.sub33 take length];
            intros Hd;
            match type of Hd with
            | ?D' == 0 =>
                first [ apply Qeq_trans with D'; [ring | exact Hd]
                      | apply Qeq_trans with (- D'); [ring | rewrite Hd; reflexivity] ]
            end).
  all: cbn [bind Result_Monad]; eexists; (split; [reflexivity|]).
  all: cbn [OrthoSlice.super OrthoSlice.normal OrthoSlice.basis].
  all: split; [eexists _, _; exact Einit|].
  all: apply init_inv in Einit as (_ & _ & _ & Hsh' & _ & Ho' & Ht' & _).
  all: rewrite Hsh', Ht'.
  all: cbn [Np.sub33 Np.col map nth delete list_delete app take] in *.
  all: do 3 (split; [reflexivity|]).
  all: intros u v w; unfold DataGrid.grid_to_world; rewrite Ht, Ho, Ht', Ho';
       cbn; do 2 eexists; do 2 (split; [reflexivity|]).
  all: apply veq3_intro; ring.
Qed.

Local Close Scope Q_scope.

(* --------------------------------------------------------------------- *)
(** ** Volumes and ranges *)

Lemma mapM_ext {A B} (f g : A -> Result B) l :
  Forall (fun x => f x = g x) l -> mapM f l = mapM g l.
Proof.
  induction 1 as [|x l Hx _ IH]; [reflexivity|]. cbn [mapM]. rewrite Hx, IH. reflexivity.
Qed.

Lemma mapM_raise {A B} (f : A -> Result B) e l :
  l <> [] -> Forall (fun x => f x = Raise e) l -> mapM f l = Raise e.
Proof.
  intros Hne Hall. destruct Hall as [|x l Hx _]; [contradiction|].
  cbn [mapM]. rewrite Hx. reflexivity.
Qed.

Lemma has_shape_elem {A} n shp (l : list (Np.ndarray A)) x :
  Np.has_shape (n :: shp) (Np.Arr l) -> x ∈ l -> Np.has_shape shp x.
Proof.
  intros (l' & [= <-] & _ & Hall) Hx.
  rewrite List.Forall_forall in Hall. apply Hall, list_elem_of_In, Hx.
Qed.

Lemma elem_of_concat {A} (x : A) (ls : list (list A)) :
  x ∈ concat ls <-> exists l, x ∈ l /\ l ∈ ls.
Proof.
  rewrite list_elem_of_In, in_concat. split; intros (l & H1 & H2); exists l;
    rewrite ?list_elem_of_In in *; auto.
Qed.

(** Two indices that denote the same place on the last axis select the
    same volume. *)
Lemma getitem_last_congr {A} nv i j pre : forall (a : Np.ndarray A),
  Np.has_shape (pre ++ [nv]) a -> Np.norm_int nv i = Np.norm_int nv j ->
  Np.getitem (replicate (length pre) Np.full_slice ++ [Np.IInt i]) a =
  Np.getitem (replicate (length pre) Np.full_slice ++ [Np.IInt j]) a.
Proof.
  induction pre as [|n pre IH]; intros a Ha Hij.
  - destruct Ha as (l & -> & Hl & _). cbn [length replicate app Np.getitem].
    rewrite Hl, Hij. reflexivity.
  - destruct Ha as (l & -> & Hl & Hall). cbn [length replicate app].
    rewrite !getitem_full_slice. erewrite mapM_ext; [reflexivity|].
    eapply List.Forall_impl; [|exact Hall]. intros x Hx. apply IH; assumption.
Qed.

(** An index outside the last axis is an [IndexError]. *)
Lemma getitem_last_oob {A} nv i pre : forall (a : Np.ndarray A),
  Np.has_shape (pre ++ [nv]) a -> Forall (fun n => 0 < n)%nat pre ->
  Np.norm_int nv i = Raise IndexError ->
  Np.getitem (replicate (length pre) Np.full_slice ++ [Np.IInt i]) a = Raise IndexError.
Proof.
  induction pre as [|n pre IH]; intros a Ha Hpos Hi.
  - destruct Ha as (l & -> & Hl & _). cbn [length replicate app Np.getitem].
    rewrite Hl, Hi. reflexivity.
  - destruct Ha as (l & -> & Hl & Hall). cbn [length replicate app].
    apply Forall_cons_1 in Hpos as [Hn Hpos].
    rewrite getitem_full_slice. rewrite (mapM_raise _ IndexError); [reflexivity | |].
    + intros ->. cbn in Hl. lia.
    + eapply List.Forall_impl; [|exact Hall]. intros x Hx. apply IH; assumption.
Qed.

(** The voxels of the volume [a[:, ..., :, k]] are those of [a] at [k]. *)
Lemma getitem_volume_voxel {A} nv k pre : forall (a v : Np.ndarray A) (idx : list Z),
  Np.has_shape (pre ++ [nv]) a ->
  Np.getitem (replicate (length pre) Np.full_slice ++ [Np.IInt k]) a = Ok v ->
  length idx = length pre ->
  Np.getitem (map Np.IInt idx ++ [Np.IInt k]) a = Np.getitem (map Np.IInt idx) v.
Proof.
  induction pre as [|n pre IH]; intros a v idx Ha Hv Hl.
  - destruct idx; [|discriminate]. cbn [map app]. cbn [length replicate app] in Hv.
    rewrite Hv. reflexivity.
  - destruct idx as [|i idx]; [discriminate|]. cbn in Hl. injection Hl as Hl.
    destruct Ha as (l & -> & Hlen & Hall). cbn [length replicate app] in Hv.
    rewrite getitem_full_slice in Hv.
    destruct (mapM _ l) as [ys|] eqn:Ey; [|discriminate]. cbn in Hv. injection Hv as <-.
    apply mapM_inv in Ey. pose proof (Forall2_length _ _ _ Ey) as Hly.
    cbn [map app Np.getitem]. rewrite <- Hly.
    destruct (Np.norm_int (length l) i) as [m|e] eqn:Em; [|reflexivity].
    cbn [bind Result_Monad]. apply norm_int_lt in Em.
    destruct (py_nth_lt l m Em) as (x & -> & Hx).
    destruct (Forall2_lookup_l _ _ _ _ _ Ey Hx) as (y & Hy & Hxy).
    rewrite (py_nth_lookup ys m y Hy). cbn [bind Result_Monad].
    apply (IH x y idx); [|exact Hxy | exact Hl].
    rewrite List.Forall_forall in Hall. apply Hall, list_elem_of_In, list_elem_of_lookup. eauto.
Qed.

(** Every sample of a volume is a sample of the whole array. *)
Lemma getitem_volume_flatten {A} nv k pre : forall (a v : Np.ndarray A),
  Np.has_shape (pre ++ [nv]) a ->
  Np.getitem (replicate (length pre) Np.full_slice ++ [Np.IInt k]) a = Ok v ->
  forall x, x ∈ Np.flatten v -> x ∈ Np.flatten a.
Proof.
  induction pre as [|n pre IH]; intros a v Ha Hv x Hx.
  - destruct Ha as (l & -> & Hl & _). cbn [length replicate app Np.getitem] in Hv.
    destruct (Np.norm_int (length l) k) as [m|]; [|discriminate].
    cbn [bind Result_Monad] in Hv. unfold py_nth in Hv.
    destruct (l !! m) as [y|] eqn:Ey; [|discriminate]. cbn in Hv. injection Hv as <-.
    cbn [Np.flatten]. apply elem_of_concat. exists (Np.flatten y). split; [exact Hx|].
    apply list_elem_of_fmap. exists y. split; [reflexivity|].
    apply list_elem_of_lookup. eauto.
  - destruct Ha as (l & -> & Hlen & Hall). cbn [length replicate app] in Hv.
    rewrite getitem_full_slice in Hv.
    destruct (mapM _ l) as [ys|] eqn:Ey; [|discriminate]. cbn in Hv. injection Hv as <-.
    apply mapM_inv in Ey. cbn [Np.flatten] in *.
    apply elem_of_concat in Hx as (fy & Hx & Hfy).
    apply list_elem_of_fmap in Hfy as (y & -> & Hy).
    apply list_elem_of_lookup in Hy as (m & Hy).
    destruct (Forall2_lookup_r _ _ _ _ _ Ey Hy) as (x0 & Hx0 & Hxy).
    apply elem_of_concat. exists (Np.flatten x0). split.
    + apply (IH x0 y); [|exact Hxy | exact Hx].
      rewrite List.Forall_forall in Hall. apply Hall, list_elem_of_In, list_elem_of_lookup. eauto.
    + apply list_elem_of_fmap. exists x0. split; [reflexivity|].
      apply list_elem_of_lookup. eauto.
Qed.

Lemma flatten_nonempty {A} shp : forall (a : Np.ndarray A),
  Np.has_shape shp a -> Forall (fun n => 0 < n)%nat shp -> Np.flatten a <> [].
Proof.
  induction shp as [|n shp IH]; intros a Ha Hpos.
  - destruct Ha as [x ->]. discriminate.
  - destruct Ha as (l & -> & Hl & Hall). apply Forall_cons_1 in Hpos as [Hn Hpos].
    destruct l as [|x l]; [cbn in Hl; lia|].
    apply Forall_cons_1 in Hall as [Hx _]. cbn [Np.flatten map concat].
    intros E. apply app_eq_nil in E as [E _]. revert E. apply IH; assumption.
Qed.

Lemma positive_extents (shp : list Z) :
  Forall (fun n => 0 < n)%Z shp -> Forall (fun n => 0 < n)%nat (map Z.to_nat shp).
Proof.
  intros Hp. apply Forall_fmap. eapply List.Forall_impl; [|exact Hp]. cbn. intros; lia.
Qed.

(** What [volume] looks up, under the invariant, for data with several
    volumes. *)
Lemma run_volume `{Externals} h self d g a vol :
  valid_data h self d g a -> nvols d <> 1%Z ->
  volume self vol h =
  (k <- (if Qle_bool vol (inject_Z (nvols d - 1)) then as_index vol else Ok (nvols d - 1)%Z) ;;
   Np.getitem (replicate 3 Np.full_slice ++ [Np.IInt k]) a, h).
Proof.
  intros (Hd & Hg & Ha & Hc & Hnv & Hnd & _) Hn1. unfold volume.
  rewrite (run_bind _ _ h a h (run_raw h self d a Hd Ha)).
  rewrite (run_bind _ _ h d h (run_get_data h self d Hd)).
  rewrite Hnd. apply Z.eqb_neq in Hn1. rewrite Hn1. cbn [Z.eqb Pos.eqb bind St_Monad lift].
  destruct (if Qle_bool _ _ then _ else _); reflexivity.
Qed.

(** X12. [volume] on 3D data returns the raw array whatever the index.  On
    4D data, index [k] with [0 <= k < nvols] gives the array of the grid's
    shape whose voxels are those of volume [k]; an index of [nvols] or more
    is clamped to the last volume; a negative index [-k] down to [-nvols]
    counts from the end, and one below [-nvols] raises [IndexError]. *)
Theorem volume_clamps `{Externals} (h : Heap) (self : loc) (d : QpData.t) (g : DataGrid.t)
    (a : Np.ndarray Q) :
  valid_data h self d g a ->
  (nvols d = 1%Z -> forall vol, volume self vol h = (Ok a, h)) /\
  (nvols d <> 1%Z ->
     (forall k, (0 <= k < nvols d)%Z ->
        exists v, volume self (inject_Z k) h = (Ok v, h) /\
                  Np.has_shape (map Z.to_nat (DataGrid.shape g)) v /\
                  forall idx, length idx = 3%nat ->
                    Np.getitem (map Np.IInt idx) v
                    = Np.getitem (map Np.IInt idx ++ [Np.IInt k]) a) /\
     (forall k, (nvols d <= k)%Z ->
        volume self (inject_Z k) h = volume self (inject_Z (nvols d - 1)) h) /\
     (forall k, (0 < k <= nvols d)%Z ->
        volume self (inject_Z (- k)) h = volume self (inject_Z (nvols d - k)) h) /\
     (forall k, (k < - nvols d)%Z -> volume self (inject_Z k) h = (Raise IndexError, h))).
Proof.
  intros Hv. pose proof Hv as (Hd & Hg & Ha & Hc & Hnv & Hnd & Hroi & Hpos & Hshape).
  pose proof (constructed_shapes g Hc) as (_ & _ & _ & Hl).
  assert (Hl3 : length (map Z.to_nat (DataGrid.shape g)) = 3%nat) by (rewrite length_map; exact Hl).
  split.
  - intros H1 vol. unfold volume.
    rewrite (run_bind _ _ h a h (run_raw h self d a Hd Ha)).
    rewrite (run_bind _ _ h d h (run_get_data h self d Hd)).
    rewrite Hnd, H1. reflexivity.
  - intros Hn1. apply Z.eqb_neq in Hn1 as Hn1b. rewrite Hn1b in Hshape.
    assert (Hle : forall k, (k <= nvols d - 1)%Z ->
              Qle_bool (inject_Z k) (inject_Z (nvols d - 1)) = true).
    { intros k Hk. apply Qle_bool_iff. rewrite <- Zle_Qle. exact Hk. }
    assert (Hgt : forall k, (nvols d - 1 < k)%Z ->
              Qle_bool (inject_Z k) (inject_Z (nvols d - 1)) = false).
    { intros k Hk. destruct (Qle_bool _ _) eqn:E; [|reflexivity].
      apply Qle_bool_iff in E. rewrite <- Zle_Qle in E. lia. }
    repeat split.
    + intros k Hk. destruct (volume_ok h self d g a k Hv) as (v & Hvol & Hvs); [lia|].
      exists v. split; [exact Hvol|]. split; [exact Hvs|].
      intros idx Hidx. symmetry.
      rewrite (run_volume h self d g a _ Hv Hn1) in Hvol.
      rewrite (Hle k), as_index_integer in Hvol by lia.
      cbn [bind Result_Monad] in Hvol. injection Hvol as Hvol.
      eapply (getitem_volume_voxel (Z.to_nat (nvols d)) k (map Z.to_nat (DataGrid.shape g)));
        [exact Hshape | rewrite Hl3; exact Hvol | rewrite Hl3; exact Hidx].
    + intros k Hk. rewrite !(run_volume h self d g a _ Hv Hn1).
      rewrite (Hgt k), (Hle (nvols d - 1)%Z), as_index_integer by lia. reflexivity.
    + intros k Hk. rewrite !(run_volume h self d g a _ Hv Hn1).
      rewrite (Hle (- k)%Z), (Hle (nvols d - k)%Z), !as_index_integer by lia.
      cbn [bind Result_Monad]. f_equal. rewrite <- Hl3.
      apply (getitem_last_congr (Z.to_nat (nvols d))); [exact Hshape|].
      unfold Np.norm_int. rewrite Z2Nat.id by lia.
      replace (0 <=? - k)%Z with false by (symmetry; apply Z.leb_gt; lia).
      replace (- nvols d <=? - k)%Z with true by (symmetry; apply Z.leb_le; lia).
      replace (- k <? 0)%Z with true by (symmetry; apply Z.ltb_lt; lia).
      replace (0 <=? nvols d - k)%Z with true by (symmetry; apply Z.leb_le; lia).
      replace (nvols d - k <? nvols d)%Z with true by (symmetry; apply Z.ltb_lt; lia).
      cbn [andb]. f_equal. f_equal. lia.
    + intros k Hk. rewrite (run_volume h self d g a _ Hv Hn1).
      rewrite (Hle k), as_index_integer by lia. cbn [bind Result_Monad]. f_equal.
      rewrite <- Hl3.
      apply (getitem_last_oob (Z.to_nat (nvols d))); [exact Hshape | apply positive_extents, Hpos |].
      unfold Np.norm_int. rewrite Z2Nat.id by lia.
      replace (0 <=? k)%Z with false by (symmetry; apply Z.leb_gt; lia).
      replace (- nvols d <=? k)%Z with false by (symmetry; apply Z.leb_gt; lia).
      reflexivity.
Qed.

Local Open Scope Q_scope.

Lemma Qlt_bool_spec a b : if Np.Qlt_bool a b then a < b else b <= a.
Proof.
  unfold Np.Qlt_bool. destruct (Qle_bool b a) eqn:E; cbn [negb].
  - apply Qle_bool_iff, E.
  - apply Qnot_le_lt. intros Hle. apply Qle_bool_iff in Hle. congruence.
Qed.

Lemma fold_min_le (l : list Q) : forall x y,
  y ∈ x :: l -> fold_left (fun m z => if Np.Qlt_bool z m then z else m) l x <= y.
Proof.
  induction l as [|z l IH]; intros x y Hy; cbn [fold_left].
  - apply elem_of_cons in Hy as [Hy | Hy]; [subst; apply Qle_refl | inversion Hy].
  - pose proof (Qlt_bool_spec z x) as Hzx.
    apply elem_of_cons in Hy as [Hy | Hy]; [subst y|apply elem_of_cons in Hy as [Hy | Hy]].
    + eapply Qle_trans; [apply IH; left|].
      destruct (Np.Qlt_bool z x); [apply Qlt_le_weak, Hzx | apply Qle_refl].
    + subst y. eapply Qle_trans; [apply IH; left|].
      destruct (Np.Qlt_bool z x); [apply Qle_refl | exact Hzx].
    + apply IH. right. exact Hy.
Qed.

Lemma fold_max_ge (l : list Q) : forall x y,
  y ∈ x :: l -> y <= fold_left (fun m z => if Np.Qlt_bool m z then z else m) l x.
Proof.
  induction l as [|z l IH]; intros x y Hy; cbn [fold_left].
  - apply elem_of_cons in Hy as [Hy | Hy]; [subst; apply Qle_refl | inversion Hy].
  - pose proof (Qlt_bool_spec x z) as Hzx.
    apply elem_of_cons in Hy as [Hy | Hy]; [subst y|apply elem_of_cons in Hy as [Hy | Hy]].
    + eapply Qle_trans; [|apply IH; left].
      destruct (Np.Qlt_bool x z); [apply Qlt_le_weak, Hzx | apply Qle_refl].
    + subst y. eapply Qle_trans; [|apply IH; left].
      destruct (Np.Qlt_bool x z); [apply Qle_refl | exact Hzx].
    + apply IH. right. exact Hy.
Qed.

(** [a.min()] and [a.max()] of an array with at least one sample. *)
Lemma amin_amax_spec (a : Np.ndarray Q) :
  Np.flatten a <> [] ->
  exists lo hi, Np.amin a = Ok lo /\ Np.amax a = Ok hi /\
    lo ∈ Np.flatten a /\ hi ∈ Np.flatten a /\
    forall x, x ∈ Np.flatten a -> lo <= x /\ x <= hi.
Proof.
  intros Hne. unfold Np.amin, Np.amax.
  destruct (Np.flatten a) as [|x l]; [contradiction|].
  do 2 eexists. repeat split; [apply fold_min_elem | apply fold_max_elem | |].
  - apply fold_min_le. assumption.
  - apply fold_max_ge. assumption.
Qed.

Lemma range_whole (h : Heap) (self : loc) (d : QpData.t) (a : Np.ndarray Q) :
  objs h !! self = Some d -> rawdata d = Some a -> _range d = None ->
  (Np.flatten a = [] -> range self None h = (Raise ValueError, h)) /\
  (Np.flatten a <> [] ->
   exists lo hi h',
     range self None h = (Ok (lo, hi), h') /\
     h' = {| grids := grids h; objs := <[self := with_range d (Some (lo, hi))]> (objs h) |} /\
     lo ∈ Np.flatten a /\ hi ∈ Np.flatten a /\
     (forall x, x ∈ Np.flatten a -> lo <= x /\ x <= hi) /\
     range self None h' = (Ok (lo, hi), h')).
Proof.
  intros Hd Ha Hnone. split.
  - intros He. unfold range.
    rewrite (run_bind _ _ h d h (run_get_data h self d Hd)). rewrite Hnone.
    rewrite (run_bind _ _ h a h (run_raw h self d a Hd Ha)).
    unfold Np.amin. rewrite He. reflexivity.
  - intros Hne. destruct (amin_amax_spec a Hne) as (lo & hi & Hlo & Hhi & Hl & Hh & Hb).
    exists lo, hi. eexists. split; [|split; [reflexivity|]].
    + unfold range.
      rewrite (run_bind _ _ h d h (run_get_data h self d Hd)). rewrite Hnone.
      rewrite (run_bind _ _ h a h (run_raw h self d a Hd Ha)).
      rewrite (run_lift _ _ h lo Hlo), (run_lift _ _ h hi Hhi). reflexivity.
    + repeat split; try assumption; try (apply Hb; assumption).
      unfold range. cbn [bind St_Monad get_data objs].
      rewrite lookup_insert_eq. reflexivity.
Qed.

(** X13. [range] with no volume raises [ValueError] on data without
    samples.  Otherwise it returns two samples of the data, the first not
    above and the second not below any sample, stores the pair in the data
    object and returns the same pair when called again. *)
Theorem range_bounds (h : Heap) (self : loc) (d : QpData.t) (a : Np.ndarray Q) :
  objs h !! self = Some d -> rawdata d = Some a -> _range d = None ->
  (Np.flatten a = [] -> range self None h = (Raise ValueError, h)) /\
  (Np.flatten a <> [] ->
   exists lo hi h',
     range self None h = (Ok (lo, hi), h') /\
     h' = {| grids := grids h; objs := <[self := with_range d (Some (lo, hi))]> (objs h) |} /\
     lo ∈ Np.flatten a /\ hi ∈ Np.flatten a /\
     (forall x, x ∈ Np.flatten a -> lo <= x /\ x <= hi) /\
     range self None h' = (Ok (lo, hi), h')).
Proof. apply range_whole. Qed.

(** X14. For data that meets the invariant, the range of one volume lies
    within the range of the whole data, and is computed without touching the
    store. *)
Theorem range_of_volume_within_range `{Externals} (h : Heap) (self : loc) (d : QpData.t)
    (g : DataGrid.t) (a : Np.ndarray Q) (k : Z) :
  valid_data h self d g a -> _range d = None -> (0 <= k)%Z ->
  exists lo hi h' lov hiv,
    range self None h = (Ok (lo, hi), h') /\
    range self (Some (inject_Z k)) h = (Ok (lov, hiv), h) /\
    lo <= lov /\ lov <= hiv /\ hiv <= hi.
Proof.
  intros Hv Hnone Hk. pose proof Hv as (Hd & Hg & Ha & Hc & Hnv & Hnd & Hroi & Hpos & Hshape).
  pose proof (constructed_shapes g Hc) as (_ & _ & _ & Hl).
  assert (Hne : Np.flatten a <> []).
  { eapply flatten_nonempty; [exact Hshape|].
    apply Forall_app. split; [apply positive_extents, Hpos|].
    destruct (nvols d =? 1)%Z; repeat constructor. lia. }
  destruct (range_whole h self d a Hd Ha Hnone) as [_ Hr].
  destruct (Hr Hne) as (lo & hi & h' & Hrun & _ & _ & _ & Hb & _).
  destruct (volume_ok h self d g a k Hv Hk) as (v & Hvol & Hvs).
  assert (Hnev : Np.flatten v <> []).
  { eapply flatten_nonempty; [exact Hvs | apply positive_extents, Hpos]. }
  destruct (amin_amax_spec v Hnev) as (lov & hiv & Hlo & Hhi & Hlv & Hhv & Hbv).
  exists lo, hi, h', lov, hiv. split; [exact Hrun|].
  assert (Hsub : forall x, x ∈ Np.flatten v -> x ∈ Np.flatten a).
  { unfold volume in Hvol.
    rewrite (run_bind _ _ h a h (run_raw h self d a Hd Ha)) in Hvol.
    rewrite (run_bind _ _ h d h (run_get_data h self d Hd)) in Hvol.
    rewrite Hnd in Hvol. destruct (nvols d =? 1)%Z eqn:E1; cbn [Z.eqb Pos.eqb] in Hvol.
    - injection Hvol as <-. auto.
    - apply bind_inv in Hvol as (k' & h1 & Hk' & Hvol).
      apply lift_inv in Hk' as [_ ->]. apply lift_inv in Hvol as [Hvol _].
      apply (getitem_volume_flatten (Z.to_nat (nvols d)) k' (map Z.to_nat (DataGrid.shape g)));
        [exact Hshape | rewrite length_map, Hl; exact Hvol]. }
  split.
  - unfold range. rewrite (run_bind _ _ h v h Hvol).
    rewrite (run_lift _ _ h lov Hlo), (run_lift _ _ h hiv Hhi). reflexivity.
  - destruct (Hb lov (Hsub lov Hlv)) as [H1 _]. destruct (Hbv hiv Hhv) as [H2 _].
    destruct (Hb hiv (Hsub hiv Hhv)) as [_ H3]. auto.
Qed.

Local Close Scope Q_scope.

(* --------------------------------------------------------------------- *)
(** ** Time series, positions without volume number, 2D+time data *)

Lemma mapM_id {A} (l : list (Np.ndarray A)) : mapM (Np.getitem []) l = Ok l.
Proof.
  induction l as [|x l IH]; [reflexivity|].
  cbn [mapM]. rewrite IH. reflexivity.
Qed.






(** X17. [set_2dt] succeeds exactly on data with a single volume whose
    third extent is not 1.  It then makes the third extent the number of
    volumes of 4D data with the same raw array, the same ROI flag and the
    same grid object, whose shape now ends in 1 (the count of voxels of the
    grid is not recomputed); a second call raises the [RuntimeError]. In
    every other case it raises and changes nothing. *)
Theorem set_2dt_once (h : Heap) (self : loc) (d : QpData.t) (g : DataGrid.t) (s0 s1 s2 : Z) :
  objs h !! self = Some d -> grids h !! grid d = Some g ->
  DataGrid.shape g = [s0; s1; s2] ->
  (nvols d = 1%Z /\ s2 <> 1%Z ->
     exists h' d' g',
       set_2dt self h = (Ok tt, h') /\
       objs h' = <[self := d']> (objs h) /\ grids h' = <[grid d := g']> (grids h) /\
       nvols d' = s2 /\ ndim d' = 4%Z /\ raw_2dt d' = true /\
       roi d' = roi d /\ rawdata d' = rawdata d /\ grid d' = grid d /\
       DataGrid.shape g' = [s0; s1; 1%Z] /\ DataGrid.affine g' = DataGrid.affine g /\
       DataGrid.nvoxels g' = DataGrid.nvoxels g /\
       set_2dt self h' =
         (Raise (RuntimeError "Can only force to 2D timeseries if data was originally 3D static"),
          h')) /\
  (~ (nvols d = 1%Z /\ s2 <> 1%Z) ->
     set_2dt self h =
       (Raise (RuntimeError "Can only force to 2D timeseries if data was originally 3D static"),
        h)).
Proof.
  intros Hd Hg Hs.
  assert (Hrun : set_2dt self h =
            (if negb (nvols d =? 1)%Z || (s2 =? 1)%Z
             then raise (RuntimeError "Can only force to 2D timeseries if data was originally 3D static")
             else (put_data self (with_2dt d s2) ;;;
                   put_grid (grid d) (with_shape g (<[2%nat := 1%Z]> (DataGrid.shape g)))))
            h).
  { unfold set_2dt.
    rewrite (run_bind _ _ h d h (run_get_data h self d Hd)).
    rewrite (run_bind _ _ h g h (run_get_grid h _ g Hg)).
    rewrite Hs. reflexivity. }
  split.
  - intros [H1 H2]. rewrite Hrun, H1. cbn [Z.eqb Pos.eqb negb orb].
    apply Z.eqb_neq in H2 as H2b. rewrite H2b.
    eexists _, (with_2dt d s2), (with_shape g [s0; s1; 1%Z]).
    split; [rewrite Hs; reflexivity|].
    cbn [objs grids]. do 11 (split; [reflexivity|]).
    unfold set_2dt. cbn [bind St_Monad get_data get_grid objs grids].
    rewrite lookup_insert_eq. cbn [with_2dt grid nvols].
    rewrite lookup_insert_eq. cbn [lift py_nth with_shape DataGrid.shape lookup list_lookup].
    apply Z.eqb_neq in H2. rewrite H2. reflexivity.
  - intros Hn. rewrite Hrun.
    destruct (Z.eqb_spec (nvols d) 1) as [E1|E1]; [|reflexivity].
    destruct (Z.eqb_spec s2 1) as [E2|E2]; [reflexivity|].
    exfalso. apply Hn. auto.
Qed.

(* --------------------------------------------------------------------- *)
(** ** Bounding box of an ROI *)

(** ** Voxels of a rectangular array *)

Lemma get_at_cons {A} (l : list (Np.ndarray A)) i idx y :
  l !! i = Some y -> Np.get_at (Np.Arr l) (i :: idx) = Np.get_at y idx.
Proof.
  intros Hy. unfold Np.get_at. cbn [map Np.getitem].
  rewrite (norm_int_in (length l) (Z.of_nat i)) by (apply lookup_lt_Some in Hy; lia).
  cbn [bind Result_Monad]. rewrite Nat2Z.id, (py_nth_lookup l i y Hy). reflexivity.
Qed.

(** The samples of an array are its voxels. *)
Lemma flatten_voxels {A} shp : forall (a : Np.ndarray A),
  Np.has_shape shp a ->
  forall x, x ∈ Np.flatten a <->
    exists idx, Forall2 (fun i n => i < n)%nat idx shp /\ Np.get_at a idx = Ok (Np.Scalar x).
Proof.
  induction shp as [|n shp IH]; intros a Ha x.
  - destruct Ha as [y ->]. cbn [Np.flatten]. rewrite list_elem_of_singleton. split.
    + intros ->. exists []. split; [constructor | reflexivity].
    + intros (idx & Hidx & Hx). apply Forall2_nil_inv_r in Hidx as ->.
      cbn in Hx. congruence.
  - destruct Ha as (l & -> & Hl & Hall). cbn [Np.flatten]. rewrite elem_of_concat. split.
    + intros (fy & Hx & Hfy). apply list_elem_of_fmap in Hfy as (y & -> & Hy).
      apply list_elem_of_lookup in Hy as (i & Hy).
      assert (Hys : Np.has_shape shp y).
      { rewrite List.Forall_forall in Hall. apply Hall, list_elem_of_In, list_elem_of_lookup. eauto. }
      apply (IH y Hys) in Hx as (idx & Hidx & Hx).
      exists (i :: idx). split.
      * constructor; [apply lookup_lt_Some in Hy; lia | exact Hidx].
      * rewrite (get_at_cons l i idx y Hy). exact Hx.
    + intros (idx & Hidx & Hx). apply Forall2_cons_inv_r in Hidx as (i & idx' & Hi & Hidx & ->).
      destruct (lookup_lt_is_Some_2 l i) as (y & Hy); [lia|].
      rewrite (get_at_cons l i idx' y Hy) in Hx.
      assert (Hys : Np.has_shape shp y).
      { rewrite List.Forall_forall in Hall. apply Hall, list_elem_of_In, list_elem_of_lookup. eauto. }
      exists (Np.flatten y). split.
      * apply (IH y Hys). eauto.
      * apply list_elem_of_fmap. exists y. split; [reflexivity|].
        apply list_elem_of_lookup. eauto.
Qed.

(** The samples of the plane [a[:, ..., :, i]] across axis [dim] are the
    voxels of [a] whose index along [dim] is [i]. *)
Lemma plane_voxels {A} dim : forall shp (a : Np.ndarray A) i n,
  Np.has_shape shp a -> shp !! dim = Some n -> (i < n)%nat ->
  exists sub,
    Np.getitem (replicate dim Np.full_slice ++ [Np.IInt (Z.of_nat i)]) a = Ok sub /\
    forall x, x ∈ Np.flatten sub <->
      exists idx, Forall2 (fun i n => i < n)%nat idx shp /\ idx !! dim = Some i /\
                  Np.get_at a idx = Ok (Np.Scalar x).
Proof.
  induction dim as [|dim IH]; intros shp a i n Ha Hn Hi.
  - destruct shp as [|n' shp]; [discriminate|]. cbn in Hn. injection Hn as ->.
    destruct Ha as (l & -> & Hl & Hall). cbn [replicate app Np.getitem].
    rewrite Hl, (norm_int_in n (Z.of_nat i)) by lia. cbn [bind Result_Monad].
    rewrite Nat2Z.id.
    destruct (py_nth_lt l i) as (y & -> & Hy); [lia|]. cbn [bind Result_Monad Np.getitem].
    exists y. split; [reflexivity|].
    assert (Hys : Np.has_shape shp y).
    { rewrite List.Forall_forall in Hall. apply Hall, list_elem_of_In, list_elem_of_lookup. eauto. }
    intros x. rewrite (flatten_voxels shp y Hys x). split.
    + intros (idx & Hidx & Hx). exists (i :: idx). split; [constructor; [lia | exact Hidx]|].
      split; [reflexivity|]. rewrite (get_at_cons l i idx y Hy). exact Hx.
    + intros (idx & Hidx & Hd & Hx).
      apply Forall2_cons_inv_r in Hidx as (i' & idx' & _ & Hidx & ->).
      cbn in Hd. injection Hd as ->.
      rewrite (get_at_cons l i idx' y Hy) in Hx. eauto.
  - destruct shp as [|n' shp]; [discriminate|]. cbn in Hn.
    destruct Ha as (l & -> & Hl & Hall). cbn [replicate app].
    rewrite getitem_full_slice.
    destruct (mapM_ok (Np.getitem (replicate dim Np.full_slice ++ [Np.IInt (Z.of_nat i)]))
                (fun _ => True) l) as (ys & Hys & Hly & _).
    { eapply List.Forall_impl; [|exact Hall]. intros y Hy.
      destruct (IH shp y i n Hy Hn Hi) as (sub & Hsub & _). eauto. }
    rewrite Hys. cbn [bind Result_Monad]. eexists. split; [reflexivity|].
    apply mapM_inv in Hys.
    intros x. cbn [Np.flatten]. rewrite elem_of_concat. split.
    + intros (fy & Hx & Hfy). apply list_elem_of_fmap in Hfy as (y & -> & Hy).
      apply list_elem_of_lookup in Hy as (j & Hy).
      destruct (Forall2_lookup_r _ _ _ _ _ Hys Hy) as (z & Hz & Hzy).
      assert (Hzs : Np.has_shape shp z).
      { rewrite List.Forall_forall in Hall. apply Hall, list_elem_of_In, list_elem_of_lookup. eauto. }
      destruct (IH shp z i n Hzs Hn Hi) as (sub & Hsub & Hiff).
      rewrite Hzy in Hsub. injection Hsub as <-.
      apply Hiff in Hx as (idx & Hidx & Hd & Hx).
      exists (j :: idx). split; [constructor; [apply lookup_lt_Some in Hz; lia | exact Hidx]|].
      split; [exact Hd|]. rewrite (get_at_cons l j idx z Hz). exact Hx.
    + intros (idx & Hidx & Hd & Hx).
      apply Forall2_cons_inv_r in Hidx as (j & idx' & Hj & Hidx & ->).
      cbn in Hd.
      destruct (lookup_lt_is_Some_2 l j) as (z & Hz); [lia|].
      rewrite (get_at_cons l j idx' z Hz) in Hx.
      destruct (Forall2_lookup_l _ _ _ _ _ Hys Hz) as (y & Hy & Hzy).
      assert (Hzs : Np.has_shape shp z).
      { rewrite List.Forall_forall in Hall. apply Hall, list_elem_of_In, list_elem_of_lookup. eauto. }
      destruct (IH shp z i n Hzs Hn Hi) as (sub & Hsub & Hiff).
      rewrite Hzy in Hsub. injection Hsub as <-.
      exists (Np.flatten y). split; [apply Hiff; eauto|].
      apply list_elem_of_fmap. exists y. split; [reflexivity|].
      apply list_elem_of_lookup. eauto.
Qed.

Lemma get_at_in_range {A} shp : forall (a : Np.ndarray A) idx x,
  Np.has_shape shp a -> Np.get_at a idx = Ok (Np.Scalar x) ->
  Forall2 (fun i n => i < n)%nat idx shp.
Proof.
  induction shp as [|n shp IH]; intros a idx x Ha Hx.
  - destruct Ha as [y ->]. destruct idx; [constructor | discriminate].
  - destruct Ha as (l & -> & Hl & Hall). destruct idx as [|i idx]; [discriminate|].
    unfold Np.get_at in Hx. cbn [map Np.getitem] in Hx.
    destruct (Np.norm_int (length l) (Z.of_nat i)) as [k|] eqn:Ek; [|discriminate].
    assert (Hi : (i < length l)%nat).
    { unfold Np.norm_int in Ek.
      destruct ((0 <=? Z.of_nat i)%Z && (Z.of_nat i <? Z.of_nat (length l))%Z) eqn:E.
      - apply andb_prop in E as [_ E]. apply Z.ltb_lt in E. lia.
      - destruct ((- Z.of_nat (length l) <=? Z.of_nat i)%Z && (Z.of_nat i <? 0)%Z) eqn:E';
          [|discriminate].
        apply andb_prop in E' as [_ E']. apply Z.ltb_lt in E'. lia. }
    rewrite (norm_int_in (length l) (Z.of_nat i)) in Ek by lia. injection Ek as <-.
    cbn [bind Result_Monad] in Hx. rewrite Nat2Z.id in Hx.
    destruct (py_nth_lt l i Hi) as (y & Hy & Hly). rewrite Hy in Hx.
    cbn [bind Result_Monad] in Hx.
    constructor; [lia|]. apply (IH y idx x); [|exact Hx].
    rewrite List.Forall_forall in Hall. apply Hall, list_elem_of_In, list_elem_of_lookup. eauto.
Qed.

Lemma mapM_seq {B} (f : nat -> Result B) n : forall s,
  (forall i, (i < n)%nat -> exists y, f (s + i)%nat = Ok y) ->
  exists l, mapM f (seq s n) = Ok l /\ length l = n /\
            forall i, (i < n)%nat -> exists y, l !! i = Some y /\ f (s + i)%nat = Ok y.
Proof.
  induction n as [|n IH]; intros s Hf; cbn [seq mapM].
  - exists []. repeat split. intros i Hi. lia.
  - destruct (Hf 0%nat) as (y & Hy); [lia|]. rewrite Nat.add_0_r in Hy. rewrite Hy.
    destruct (IH (S s)) as (l & -> & Hl & Hi).
    { intros i Hi. destruct (Hf (S i)) as (z & Hz); [lia|].
      exists z. rewrite <- Hz. f_equal. lia. }
    cbn [bind Result_Monad]. exists (y :: l). split; [reflexivity|].
    split; [cbn; lia|].
    intros [|i] Hlt.
    + exists y. rewrite Nat.add_0_r. auto.
    + destruct (Hi i) as (z & Hz & Hfz); [lia|]. exists z. split; [exact Hz|].
      rewrite <- Hfz. f_equal. lia.
Qed.

(** A voxel that is not zero. *)
Local Open Scope Q_scope.

(** [np.any] across the other axes tells where the array has a non-zero
    voxel along [dim]. *)
Lemma any_along_spec shp (a : Np.ndarray Q) dim n :
  Np.has_shape shp a -> length shp = 3%nat -> Forall (fun n => 0 < n)%nat shp ->
  shp !! dim = Some n ->
  exists l, any_along a dim = Ok l /\ length l = n /\
    forall i, (i < n)%nat ->
      exists b, l !! i = Some b /\
        (b = true <-> exists idx x, idx !! dim = Some i /\
                        Np.get_at a idx = Ok (Np.Scalar x) /\ ~ x == 0).
Proof.
  intros Ha Hl Hpos Hn. unfold any_along, Np.ndim.
  rewrite (has_shape_shape shp a Ha Hpos), Hl. cbn [Nat.ltb Nat.leb].
  rewrite (py_nth_lookup shp dim n Hn). cbn [bind Result_Monad].
  destruct (mapM_seq (fun i => sub <- Np.getitem (replicate dim Np.full_slice
                                                  ++ [Np.IInt (Z.of_nat i)]) a ;;
                               Ok (existsb (fun x => negb (Qeq_bool x 0)) (Np.flatten sub)))
              n 0%nat) as (l & Hrun & Hlen & Hi).
  { intros i Hi. destruct (plane_voxels dim shp a i n Ha Hn Hi) as (sub & Hsub & _).
    cbn [Nat.add]. rewrite Hsub. cbn. eauto. }
  exists l. split; [exact Hrun|]. split; [exact Hlen|].
  intros i Hlt. destruct (Hi i Hlt) as (b & Hb & Hfb). exists b. split; [exact Hb|].
  cbn [Nat.add] in Hfb.
  destruct (plane_voxels dim shp a i n Ha Hn Hlt) as (sub & Hsub & Hiff).
  rewrite Hsub in Hfb. cbn [bind Result_Monad] in Hfb. injection Hfb as <-.
  rewrite existsb_exists. split.
  - intros (x & Hx & Hnz). apply list_elem_of_In, Hiff in Hx as (idx & _ & Hd & Hx).
    exists idx, x. repeat split; [exact Hd | exact Hx |].
    apply negb_true_iff in Hnz. apply Qeq_bool_neq, Hnz.
  - intros (idx & x & Hd & Hx & Hnz). exists x. split.
    + apply list_elem_of_In, Hiff. exists idx. repeat split; [|exact Hd | exact Hx].
      eapply get_at_in_range; eassumption.
    + apply negb_true_iff. destruct (Qeq_bool x 0) eqn:E; [|reflexivity].
      apply Qeq_bool_eq in E. contradiction.
Qed.

Lemma seq_sorted n : forall s, StronglySorted lt (seq s n).
Proof.
  induction n as [|n IH]; intros s; cbn [seq]; constructor; [apply IH|].
  apply List.Forall_forall. intros x Hx. apply in_seq in Hx. lia.
Qed.

Lemma filter_sorted_nat (P : nat -> Prop) `{forall i, Decision (P i)} l :
  StronglySorted lt l -> StronglySorted lt (filter P l).
Proof.
  induction 1 as [|x l Hs IH Hall]; [constructor|].
  rewrite filter_cons. destruct (decide (P x)); [|exact IH].
  constructor; [exact IH|].
  apply List.Forall_forall. intros y Hy.
  apply list_elem_of_In, list_elem_of_filter in Hy as [_ Hy].
  rewrite List.Forall_forall in Hall. apply Hall, list_elem_of_In, Hy.
Qed.

Lemma last_cons {A} (r : list A) : forall z x, List.last (z :: r) x = List.last r z.
Proof.
  induction r as [|w r IH]; intros z x; [reflexivity|].
  change (List.last (z :: w :: r) x) with (List.last (w :: r) x).
  rewrite (IH w x), (IH w z). reflexivity.
Qed.

Lemma sorted_first_last (x : nat) r :
  StronglySorted lt (x :: r) ->
  List.last r x ∈ x :: r /\ forall y, y ∈ x :: r -> (x <= y <= List.last r x)%nat.
Proof.
  revert x. induction r as [|z r IH]; intros x Hs.
  - cbn. split; [left|]. intros y Hy. apply list_elem_of_singleton in Hy as ->. lia.
  - apply StronglySorted_inv in Hs as [Hs Hall].
    destruct (IH z Hs) as [Hin Hb].
    rewrite last_cons. split; [right; exact Hin|].
    intros y Hy. apply Forall_cons_1 in Hall as [Hxz Hall].
    apply elem_of_cons in Hy as [-> | Hy].
    + specialize (Hb z ltac:(left)). lia.
    + specialize (Hb y Hy). lia.
Qed.

(** [np.where(nonzero)[0][[0, -1]]]: the first and the last place that
    is set; an [IndexError] when none is. *)
Lemma first_last_spec (l : list bool) :
  ((forall i, l !! i <> Some true) -> first_last l = Raise IndexError) /\
  (forall i0, l !! i0 = Some true ->
     exists b e, first_last l = Ok (Z.of_nat b, Z.of_nat e) /\
       l !! b = Some true /\ l !! e = Some true /\
       forall i, l !! i = Some true -> (b <= i <= e)%nat).
Proof.
  unfold first_last.
  set (F := filter (fun i => nth i l false = true) (seq 0 (length l))).
  assert (HF : forall i, i ∈ F <-> l !! i = Some true).
  { intros i. subst F. rewrite list_elem_of_filter, list_elem_of_In, in_seq. split.
    - intros [Hn Hi]. destruct (l !! i) as [b|] eqn:E.
      + rewrite (nth_lookup_Some _ _ false _ E) in Hn. congruence.
      + apply lookup_ge_None in E. lia.
    - intros E. split; [apply (nth_lookup_Some _ _ false _ E)|].
      apply lookup_lt_Some in E. lia. }
  assert (HS : StronglySorted lt F) by (apply filter_sorted_nat, seq_sorted).
  split.
  - intros Hnone. destruct F as [|i r]; [reflexivity|].
    exfalso. apply (Hnone i), HF. left.
  - intros i0 Hi0. apply HF in Hi0.
    destruct F as [|b r]; [inversion Hi0|].
    destruct (sorted_first_last b r HS) as [Hlast Hb].
    exists b, (List.last r b). split; [reflexivity|].
    split; [apply HF; left|]. split; [apply HF, Hlast|].
    intros i Hi. apply Hb, HF, Hi.
Qed.

(** One pass of [get_bounding_box] on an array with a non-zero voxel. *)
Lemma run_bounding_step h self d (a : Np.ndarray Q) shp dim n slices :
  objs h !! self = Some d -> rawdata d = Some a ->
  Np.has_shape shp a -> length shp = 3%nat -> Forall (fun n => 0 < n)%nat shp ->
  shp !! dim = Some n ->
  (exists x, x ∈ Np.flatten a /\ ~ x == 0) ->
  exists b e,
    bounding_step self slices dim h =
      (Ok (<[dim := Np.ISlice (Some (Z.of_nat b)) (Some (Z.of_nat e + 1)%Z) None]> slices), h) /\
    (b <= e < n)%nat /\
    (forall idx x i, Np.get_at a idx = Ok (Np.Scalar x) -> ~ x == 0 ->
                     idx !! dim = Some i -> (b <= i <= e)%nat) /\
    (exists idx x, idx !! dim = Some b /\ Np.get_at a idx = Ok (Np.Scalar x) /\ ~ x == 0) /\
    (exists idx x, idx !! dim = Some e /\ Np.get_at a idx = Ok (Np.Scalar x) /\ ~ x == 0).
Proof.
  intros Hd Ha Hs Hl Hpos Hn (x0 & Hx0 & Hnz0).
  destruct (any_along_spec shp a dim n Hs Hl Hpos Hn) as (l & Hany & Hlen & Hspec).
  apply (flatten_voxels shp a Hs) in Hx0 as (idx0 & Hidx0 & Hget0).
  destruct (Forall2_lookup_r _ _ _ _ _ Hidx0 Hn) as (i0 & Hi0 & Hlt0).
  destruct (Hspec i0 Hlt0) as (b0 & Hb0 & Hiff0).
  assert (Hset : l !! i0 = Some true).
  { rewrite Hb0. f_equal. apply Hiff0. eauto. }
  destruct (first_last_spec l) as [_ Hfl].
  destruct (Hfl i0 Hset) as (b & e & Hrun & Hb & He & Hbe).
  exists b, e. split.
  - unfold bounding_step.
    rewrite (run_bind _ _ h a h (run_raw h self d a Hd Ha)).
    rewrite (run_lift _ _ h l Hany), (run_lift _ _ h _ Hrun). reflexivity.
  - assert (Hwit : forall i, l !! i = Some true ->
        exists idx x, idx !! dim = Some i /\ Np.get_at a idx = Ok (Np.Scalar x) /\ ~ x == 0).
    { intros i Hi. pose proof (lookup_lt_Some _ _ _ Hi) as Hlt. rewrite Hlen in Hlt.
      destruct (Hspec i Hlt) as (bi & Hbi & Hiff). rewrite Hbi in Hi. injection Hi as ->.
      apply Hiff. reflexivity. }
    split; [|split; [|split; [apply Hwit, Hb | apply Hwit, He]]].
    + pose proof (Hbe b Hb). apply lookup_lt_Some in He. lia.
    + intros idx x i Hget Hnz Hi. apply Hbe.
      pose proof (get_at_in_range shp a idx x Hs Hget) as Hr.
      destruct (Forall2_lookup_l _ _ _ _ _ Hr Hi) as (n' & Hn' & Hlt).
      rewrite Hn in Hn'. injection Hn' as <-.
      destruct (Hspec i Hlt) as (bi & Hbi & Hiff). rewrite Hbi. f_equal.
      apply Hiff. eauto.
Qed.

(** X18. On an ROI that meets the invariant and has a voxel that is not
    zero, [get_bounding_box] returns, for every [ndim], the first [ndim] of
    three slices followed by full slices for the dimensions above three;
    the slices lie within the shape of the grid, every voxel that is not
    zero lies inside them, and each of the six faces of the box holds a
    voxel that is not zero. *)
Theorem bounding_box_contains `{Externals} (h : Heap) (self : loc) (d : QpData.t)
    (g : DataGrid.t) (a : Np.ndarray Q) :
  valid_data h self d g a -> roi d = true ->
  (exists x, x ∈ Np.flatten a /\ ~ x == 0) ->
  exists b0 e0 b1 e1 b2 e2 : nat,
    (forall ndim,
       get_bounding_box self ndim h =
         (Ok (take ndim [Np.ISlice (Some (Z.of_nat b0)) (Some (Z.of_nat e0 + 1)%Z) None;
                         Np.ISlice (Some (Z.of_nat b1)) (Some (Z.of_nat e1 + 1)%Z) None;
                         Np.ISlice (Some (Z.of_nat b2)) (Some (Z.of_nat e2 + 1)%Z) None]
              ++ replicate (ndim - 3) Np.full_slice), h)) /\
    (b0 <= e0 /\ b1 <= e1 /\ b2 <= e2)%nat /\
    Forall2 (fun e n => Z.of_nat e < n)%Z [e0; e1; e2] (DataGrid.shape g) /\
    (forall i j k x, Np.get_at a [i; j; k] = Ok (Np.Scalar x) -> ~ x == 0 ->
                     (b0 <= i <= e0 /\ b1 <= j <= e1 /\ b2 <= k <= e2)%nat) /\
    Forall (fun p => exists idx x, idx !! fst p = Some (snd p) /\
                       Np.get_at a idx = Ok (Np.Scalar x) /\ ~ x == 0)
           [(0, b0); (0, e0); (1, b1); (1, e1); (2, b2); (2, e2)]%nat.
Proof.
  intros (Hd & Hg & Ha & Hc & Hnv & Hnd & Hroi & Hpos & Hshape) Hr Hne.
  pose proof (constructed_shapes g Hc) as (_ & _ & _ & Hl).
  rewrite (Hroi Hr) in Hshape. cbn [Z.eqb Pos.eqb] in Hshape. rewrite app_nil_r in Hshape.
  apply length3 in Hl as (s0 & s1 & s2 & Hs). rewrite Hs in *.
  apply positive_extents in Hpos as Hpos'. cbn [map] in *.
  set (shp := [Z.to_nat s0; Z.to_nat s1; Z.to_nat s2]) in *.
  assert (Step : forall dim n slices, shp !! dim = Some n -> _) by
    (intros dim n slices Hn;
     exact (run_bounding_step h self d a shp dim n slices Hd Ha Hshape eq_refl Hpos' Hn Hne)).
  destruct (Step 0%nat _ [] eq_refl) as (b0 & e0 & _ & Hbe0 & Hin0 & Hlo0 & Hhi0).
  destruct (Step 1%nat _ [] eq_refl) as (b1 & e1 & _ & Hbe1 & Hin1 & Hlo1 & Hhi1).
  destruct (Step 2%nat _ [] eq_refl) as (b2 & e2 & _ & Hbe2 & Hin2 & Hlo2 & Hhi2).
  assert (Run : forall dim n slices b e, shp !! dim = Some n ->
            (forall idx x i, Np.get_at a idx = Ok (Np.Scalar x) -> ~ x == 0 ->
                             idx !! dim = Some i -> (b <= i <= e)%nat) ->
            (exists idx x, idx !! dim = Some b /\ Np.get_at a idx = Ok (Np.Scalar x) /\ ~ x == 0) ->
            (exists idx x, idx !! dim = Some e /\ Np.get_at a idx = Ok (Np.Scalar x) /\ ~ x == 0) ->
            bounding_step self slices dim h =
              (Ok (<[dim := Np.ISlice (Some (Z.of_nat b)) (Some (Z.of_nat e + 1)%Z) None]> slices),
               h)).
  { intros dim n slices b e Hn Hin (ib & xb & Hib & Hgb & Hnb) (ie & xe & Hie & Hge & Hne').
    destruct (Step dim n slices Hn) as (b' & e' & Hrun & _ & Hin' & (ib' & xb' & Hib' & Hgb' & Hnb')
                                         & (ie' & xe' & Hie' & Hge' & Hne'')).
    pose proof (Hin _ _ _ Hgb' Hnb' Hib'). pose proof (Hin _ _ _ Hge' Hne'' Hie').
    pose proof (Hin' _ _ _ Hgb Hnb Hib). pose proof (Hin' _ _ _ Hge Hne' Hie).
    assert (b' = b) as -> by lia. assert (e' = e) as -> by lia. exact Hrun. }
  exists b0, e0, b1, e1, b2, e2. split; [|split; [lia|split; [|split]]].
  - intros ndim. unfold get_bounding_box.
    rewrite (run_bind _ _ h d h (run_get_data h self d Hd)). rewrite Hr. cbn [negb].
    destruct ndim as [|[|[|ndim]]]; cbn [Nat.min py_range seq for_each replicate].
    + reflexivity.
    + rewrite (run_bind _ _ h _ h (Run 0%nat _ _ b0 e0 eq_refl Hin0 Hlo0 Hhi0)). reflexivity.
    + rewrite (run_bind _ _ h _ h (Run 0%nat _ _ b0 e0 eq_refl Hin0 Hlo0 Hhi0)).
      rewrite (run_bind _ _ h _ h (Run 1%nat _ _ b1 e1 eq_refl Hin1 Hlo1 Hhi1)). reflexivity.
    + rewrite (run_bind _ _ h _ h (Run 0%nat _ _ b0 e0 eq_refl Hin0 Hlo0 Hhi0)).
      rewrite (run_bind _ _ h _ h (Run 1%nat _ _ b1 e1 eq_refl Hin1 Hlo1 Hhi1)).
      rewrite (run_bind _ _ h _ h (Run 2%nat _ _ b2 e2 eq_refl Hin2 Hlo2 Hhi2)).
      rewrite Nat.min_0_r.
      cbn [seq for_each ret St_Monad insert list_insert take app Nat.sub].
      rewrite ?Nat.sub_0_r, ?take_nil. reflexivity.
  - apply Forall_cons_1 in Hpos as [P0 Hpos]. apply Forall_cons_1 in Hpos as [P1 Hpos].
    apply Forall_cons_1 in Hpos as [P2 _].
    repeat constructor; lia.
  - intros i j k x Hget Hnz.
    pose proof (Hin0 [i; j; k] x i Hget Hnz eq_refl).
    pose proof (Hin1 [i; j; k] x j Hget Hnz eq_refl).
    pose proof (Hin2 [i; j; k] x k Hget Hnz eq_refl). lia.
  - repeat constructor; assumption.
Qed.

(** X19. [get_bounding_box] raises [RuntimeError] on data that is no ROI.
    On an ROI without any voxel set it returns the empty list for [ndim = 0]
    and raises [IndexError] for every other [ndim]. *)
Theorem bounding_box_errors `{Externals} (h : Heap) (self : loc) (d : QpData.t)
    (g : DataGrid.t) (a : Np.ndarray Q) :
  valid_data h self d g a ->
  (roi d = false ->
     forall ndim, get_bounding_box self ndim h =
       (Raise (RuntimeError "get_bounding_box() called on non-ROI data"), h)) /\
  (roi d = true -> Forall (fun x => x == 0) (Np.flatten a) ->
     get_bounding_box self 0 h = (Ok [], h) /\
     forall ndim, (0 < ndim)%nat -> get_bounding_box self ndim h = (Raise IndexError, h)).
Proof.
  intros (Hd & Hg & Ha & Hc & Hnv & Hnd & Hroi & Hpos & Hshape).
  pose proof (constructed_shapes g Hc) as (_ & _ & _ & Hl).
  split.
  - intros Hr ndim. unfold get_bounding_box.
    rewrite (run_bind _ _ h d h (run_get_data h self d Hd)). rewrite Hr. reflexivity.
  - intros Hr Hzero. rewrite (Hroi Hr) in Hshape. cbn [Z.eqb Pos.eqb] in Hshape.
    rewrite app_nil_r in Hshape.
    assert (Hrun : forall ndim, get_bounding_box self ndim h =
              for_each (bounding_step self) (py_range (Nat.min ndim 3))
                       (replicate ndim Np.full_slice) h).
    { intros ndim. unfold get_bounding_box.
      rewrite (run_bind _ _ h d h (run_get_data h self d Hd)). rewrite Hr. reflexivity. }
    split; [rewrite Hrun; reflexivity|].
    intros ndim Hn. rewrite Hrun.
    destruct ndim as [|ndim]; [lia|].
    replace (py_range (Nat.min (S ndim) 3)) with (0%nat :: seq 1 (Nat.min ndim 2))
      by (unfold py_range; destruct ndim as [|[|ndim]]; reflexivity).
    cbn [for_each bind St_Monad].
    assert (Hstep : forall slices, bounding_step self slices 0 h = (Raise IndexError, h)).
    { intros slices. apply length3 in Hl as (s0 & s1 & s2 & Hs). rewrite Hs in *.
      apply positive_extents in Hpos as Hpos'. cbn [map] in *.
      destruct (any_along_spec _ a 0%nat _ Hshape eq_refl Hpos' eq_refl)
        as (l & Hany & Hlen & Hspec).
      destruct (first_last_spec l) as [Hnone _].
      unfold bounding_step.
      rewrite (run_bind _ _ h a h (run_raw h self d a Hd Ha)).
      rewrite (run_lift _ _ h l Hany).
      cbn [bind St_Monad lift]. rewrite Hnone; [reflexivity|].
      intros i Hi. pose proof (lookup_lt_Some _ _ _ Hi) as Hlt. rewrite Hlen in Hlt.
      destruct (Hspec i Hlt) as (b & Hb & Hiff). rewrite Hb in Hi. injection Hi as ->.
      destruct (proj1 Hiff eq_refl) as (idx & x & _ & Hget & Hnz).
      apply Hnz. rewrite List.Forall_forall in Hzero. apply Hzero, list_elem_of_In.
      apply (flatten_voxels _ a Hshape). exists idx. split; [|exact Hget].
      eapply get_at_in_range; eassumption. }
    rewrite Hstep. reflexivity.
Qed.

Local Close Scope Q_scope.

(* --------------------------------------------------------------------- *)
(** ** Slices along an axis; resampling onto a matching grid *)

(** ** The slices of the fast path *)

Lemma slice_indices_forward n :
  Np.slice_indices (Z.of_nat n) (Some 0%Z) (Some (Z.of_nat n)) (Some 1%Z) = Ok (seq 0 n).
Proof.
  unfold Np.slice_indices. change (default 1%Z (Some 1%Z)) with 1%Z.
  cbn [Z.eqb Z.ltb Z.compare].
  replace (Z.of_nat n <? 0)%Z with false by (symmetry; apply Z.ltb_ge; lia).
  rewrite Z.min_id, Z.min_l by lia.
  replace ((Z.of_nat n - 0 + 1 - 1) / 1)%Z with (Z.of_nat n) by (rewrite Z.div_1_r; lia).
  rewrite Nat2Z.id. f_equal.
  rewrite <- (List.map_id (seq 0 n)) at 2. apply List.map_ext. intros k. lia.
Qed.

Lemma rev_seq n : map (fun k => n - 1 - k)%nat (seq 0 n) = rev (seq 0 n).
Proof.
  induction n as [|n IH]; [reflexivity|].
  rewrite seq_S at 2. rewrite rev_app_distr. cbn [rev app Nat.add].
  cbn [seq map]. f_equal; [lia|].
  rewrite <- seq_shift, List.map_map, <- IH. apply List.map_ext. intros k. lia.
Qed.

Lemma slice_indices_backward n :
  Np.slice_indices (Z.of_nat n) (Some (Z.of_nat n - 1)%Z) None (Some (-1)%Z)
  = Ok (rev (seq 0 n)).
Proof.
  unfold Np.slice_indices. change (default 1%Z (Some (-1)%Z)) with (-1)%Z.
  cbn [Z.eqb Z.ltb Z.compare].
  set (s := if (Z.of_nat n - 1 <? 0)%Z then _ else _).
  assert (Hs : s = (Z.of_nat n - 1)%Z).
  { subst s. destruct (Z.ltb_spec (Z.of_nat n - 1) 0); lia. }
  rewrite Hs.
  replace ((Z.of_nat n - 1 - -1 - -1 - 1) / - -1)%Z with (Z.of_nat n)
    by (change (- -1)%Z with 1%Z; rewrite Z.div_1_r; lia).
  rewrite Nat2Z.id. f_equal. rewrite <- rev_seq.
  apply List.map_ext_in. intros k Hk. apply in_seq in Hk. lia.
Qed.

Lemma omap_rev {A B} (f : A -> option B) l : omap f (rev l) = rev (omap f l).
Proof.
  induction l as [|x l IH]; [reflexivity|].
  cbn [rev]. rewrite omap_app, IH. cbn [omap list_omap]. destruct (f x); cbn; [reflexivity|].
  rewrite app_nil_r. reflexivity.
Qed.

(** X20. The slice that [_get_slice] builds, used as an index along an
    axis, selects every entry of the axis: in order when the sign is 1, in
    reverse order (as [np.flip] along the axis) for every other sign. *)
Theorem get_slice_selects {A} (l : list (Np.ndarray A)) (sign : Q) (rest : list Np.index) :
  Np.getitem (_get_slice (length l) sign :: rest) (Np.Arr l)
    = (sub <- mapM (Np.getitem rest) (if Qeq_bool sign 1 then l else rev l) ;;
       Ok (Np.Arr sub)) /\
  Np.getitem [_get_slice (length l) sign] (Np.Arr l)
    = (if Qeq_bool sign 1 then Ok (Np.Arr l) else Np.flip 0 (Np.Arr l)).
Proof.
  assert (Hgen : forall rest,
    Np.getitem (_get_slice (length l) sign :: rest) (Np.Arr l)
    = (sub <- mapM (Np.getitem rest) (if Qeq_bool sign 1 then l else rev l) ;;
       Ok (Np.Arr sub))).
  { intros rest'. unfold _get_slice. destruct (Qeq_bool sign 1); cbn [Np.getitem].
    - rewrite slice_indices_forward. cbn [bind Result_Monad]. rewrite omap_lookup_seq.
      reflexivity.
    - rewrite slice_indices_backward. cbn [bind Result_Monad].
      rewrite omap_rev, omap_lookup_seq. reflexivity. }
  split; [apply Hgen|].
  rewrite Hgen. destruct (Qeq_bool sign 1); rewrite mapM_id; reflexivity.
Qed.

(** ** Resampling *)

Local Open Scope Q_scope.

Lemma nth_veq r r' j : Np.veq r r' -> nth j r 0 == nth j r' 0.
Proof.
  unfold Np.veq. intros Hr. revert j. induction Hr as [|x y r r' Hxy _ IH]; intros [|j];
    cbn [nth]; try reflexivity; [exact Hxy | apply IH].
Qed.

Lemma col_meq b b' j : Np.meq b b' -> Np.veq (Np.col b j) (Np.col b' j).
Proof.
  unfold Np.meq, Np.col, Np.veq. intros Hb.
  induction Hb as [|r r' b b' Hr _ IH]; cbn [map]; constructor; [apply nth_veq, Hr | exact IH].
Qed.

(** [np.dot(a, b)] on matrices that are equal entry by entry. *)
Lemma dot_mm_meq a b b' t :
  Np.meq b b' -> Np.dot_mm a b = Ok t -> exists t', Np.dot_mm a b' = Ok t' /\ Np.meq t t'.
Proof.
  intros Hb. unfold Np.dot_mm.
  assert (Hl : length b = length b') by (apply Forall2_length in Hb; exact Hb).
  assert (Hw : length (nth 0 b []) = length (nth 0 b' [])).
  { destruct Hb as [|r r' b b' Hr _]; [reflexivity|]. cbn [nth].
    apply Forall2_length in Hr. exact Hr. }
  unfold Np.vector, Np.matrix in *. rewrite <- Hl, <- Hw.
  destruct (forallb _ a); [|discriminate]. intros [= <-].
  eexists. split; [reflexivity|].
  unfold Np.meq. induction a as [|row a IH]; cbn [map]; constructor; [|exact IH].
  unfold Np.veq. generalize (seq 0 (length (nth 0 b []))). intros s.
  induction s as [|j s IHs]; cbn [map]; constructor; [|exact IHs].
  apply dot_veq, col_meq, Hb.
Qed.

Lemma meq_shape_4_4 m m' : Np.meq m m' -> Np.shape_is m' 4 4 = true -> Np.shape_is m 4 4 = true.
Proof.
  intros Hm Hs. apply shape_is_4_4 in Hs
    as (a00 & a01 & a02 & a03 & a10 & a11 & a12 & a13 & a20 & a21 & a22 & a23
        & a30 & a31 & a32 & a33 & ->).
  unfold Np.meq, Np.veq in Hm.
  repeat match goal with
         | H : Forall2 _ _ (_ :: _) |- _ =>
             apply Forall2_cons_inv_r in H as (? & ? & ? & ? & ->)
         | H : Forall2 _ _ [] |- _ => apply Forall2_nil_inv_r in H as ->
         end.
  reflexivity.
Qed.

(** Resampling onto a grid object whose affine equals that of the data's
    grid hands over the raw array. *)
Lemma resample_onto_equal_affine `{Externals} (h : Heap) (self : loc) (d : QpData.t)
    (g : DataGrid.t) (a : Np.ndarray Q) (gl : loc) (tg : DataGrid.t) (order : Z) :
  valid_data h self d g a ->
  grids h !! gl = Some tg -> Np.meq (DataGrid.affine tg) (DataGrid.affine g) ->
  ~ Np.det 4 (DataGrid.affine tg) == 0 ->
  exists l d',
    resample self gl order h
      = (Ok l, {| grids := grids h; objs := <[l := d']> (objs h) |}) /\
    objs h !! l = None /\
    rawdata d' = Some a /\ grid d' = gl /\ roi d' = roi d /\ nvols d' = nvols d /\
    name d' = (name d +:+ "_resampled")%string.
Proof.
  intros (Hd & Hg & Ha & Hc & Hnv & Hnd & Hroi & Hpos & Hshape) Htg Hm Hdet.
  pose proof (constructed_shapes g Hc) as (_ & _ & _ & Hl).
  destruct Hc as (shp & aff & Hinit).
  apply init_inv in Hinit as (_ & Hs & _ & _ & Haff & _).
  rewrite <- Haff in Hs.
  pose proof (meq_shape_4_4 _ _ Hm Hs) as Hst.
  destruct (inv4_left (DataGrid.affine tg) Hst Hdet) as (mi & t0 & Hi & Ht0 & Hid).
  destruct (dot_mm_meq mi _ _ t0 Hm Ht0) as (t & Ht & Htt).
  assert (Hnear : near_identity t).
  { apply meq_near_identity. eapply meq_trans; [apply meq_sym, Htt | exact Hid]. }
  destruct (simplify_near_identity g t Hl Hnear) as [Hsimp Hident].
  unfold resample.
  rewrite (run_bind _ _ h a h (run_raw h self d a Hd Ha)).
  rewrite (run_bind _ _ h d h (run_get_data h self d Hd)).
  rewrite (run_bind _ _ h g h (run_get_grid h _ g Hg)).
  rewrite (run_bind _ _ h tg h (run_get_grid h _ tg Htg)).
  rewrite (run_lift _ _ h mi Hi).
  rewrite (run_lift _ _ h t Ht).
  rewrite (run_lift _ _ h _ Hsimp).
  cbn [fst snd]. rewrite Hident.
  cbn [list_nat_eqb py_range seq negb foldM].
  change (list_nat_eqb [0%nat; 1%nat; 2%nat] [0%nat; 1%nat; 2%nat]) with true.
  cbn [negb]. rewrite !(run_lift _ _ h a eq_refl).
  unfold NumpyData, QpData.__init__.
  assert (Hnvols : (if Nat.ltb 3 (Np.ndim a)
                    then Z.of_nat (nth 3 (Np.shape a) O) else 1%Z) = nvols d).
  { apply positive_extents in Hpos.
    destruct (Z.eqb_spec (nvols d) 1) as [E1|E1].
    - rewrite app_nil_r in Hshape. apply has_shape_ndim in Hshape as Hn.
      rewrite length_map, Hl in Hn.
      destruct (Nat.ltb_spec 3 (Np.ndim a)); [lia | congruence].
    - assert (Hp : Forall (fun n => 0 < n)%nat
                     (map Z.to_nat (DataGrid.shape g) ++ [Z.to_nat (nvols d)])).
      { apply Forall_app. split; [exact Hpos|]. repeat constructor. lia. }
      unfold Np.ndim. rewrite (has_shape_shape _ a Hshape Hp).
      rewrite length_app, length_map, Hl. cbn [length Nat.add Nat.ltb Nat.leb].
      rewrite app_nth2 by (rewrite length_map; lia).
      rewrite length_map, Hl. cbn [Nat.sub nth]. lia. }
  rewrite Hnvols.
  assert (Hchk : roi d && negb (nvols d =? 1)%Z = false).
  { destruct (roi d) eqn:Er; [|reflexivity]. rewrite (Hroi eq_refl). reflexivity. }
  rewrite Hchk. cbn [bind St_Monad lift alloc_data].
  do 2 eexists. split; [reflexivity|].
  split; [apply not_elem_of_dom, is_fresh|].
  cbn. auto.
Qed.

(** X21. Resampling onto any grid object that [matches] the grid of the
    data, not only onto that grid object itself, returns a new data object
    with the very raw array of the original, on the grid object asked for,
    with the ROI flag and the number of volumes of the original and the name
    extended by [_resampled]. *)
Theorem resample_onto_matching_grid `{Externals} (h : Heap) (self : loc) (d : QpData.t)
    (g : DataGrid.t) (a : Np.ndarray Q) (gl : loc) (tg : DataGrid.t) (order : Z) :
  valid_data h self d g a ->
  grids h !! gl = Some tg -> DataGrid.matches g tg = true ->
  ~ Np.det 4 (DataGrid.affine tg) == 0 ->
  exists l d',
    resample self gl order h
      = (Ok l, {| grids := grids h; objs := <[l := d']> (objs h) |}) /\
    objs h !! l = None /\
    rawdata d' = Some a /\ grid d' = gl /\ roi d' = roi d /\ nvols d' = nvols d /\
    name d' = (name d +:+ "_resampled")%string.
Proof.
  intros Hv Htg Hm Hdet. apply (resample_onto_equal_affine h self d g a gl tg order Hv Htg);
    [|exact Hdet].
  unfold DataGrid.matches in Hm. apply andb_prop in Hm as [Hm _].
  apply meq_sym, array_equal_meq, Hm.
Qed.

(** What [resample] leaves alone, whatever the interpolation routines do. *)
Lemma resample_effect `{Externals} (self : loc) (grid : loc) (order : Z) (h : Heap) :
  match resample self grid order h with
  | (Ok l, h') =>
      objs h !! l = None /\
      exists d d', objs h !! self = Some d /\
        h' = {| grids := grids h; objs := <[l := d']> (objs h) |} /\
        QpData.grid d' = grid /\ roi d' = roi d /\
        name d' = (name d +:+ "_resampled")%string /\
        _regions d' = None /\ _range d' = None /\ raw_2dt d' = false
  | (Raise _, h') => h' = h
  end.
Proof.
  unfold resample, raw, NumpyData, QpData.__init__, get_data, get_grid, lift, alloc_data, raise.
  cbn [bind St_Monad ret].
  destruct (objs h !! self) as [d|] eqn:Ed; [|reflexivity].
  destruct (rawdata d) as [a|]; [|reflexivity].
  cbn [ret St_Monad]. rewrite Ed.
  destruct (grids h !! QpData.grid d) as [sg|]; [|reflexivity].
  destruct (grids h !! grid) as [tg|]; [|reflexivity].
  destruct (Np.linalg_inv (DataGrid.affine tg)) as [inv|]; [|reflexivity].
  destruct (Np.dot_mm inv (DataGrid.affine sg)) as [tm|]; [|reflexivity].
  destruct (DataGrid.simplify_transforms sg tm) as [[[reorder flip] tm']|]; [|reflexivity].
  cbn [fst snd].
  destruct (if negb (list_nat_eqb reorder (py_range 3)) then _ else _) as [a1|]; [|reflexivity].
  destruct (foldM _ flip a1) as [a2|]; [|reflexivity].
  destruct (if negb (is_identity tm') then _ else _) as [a3|]; [|reflexivity].
  destruct (roi d && _); [reflexivity|].
  split; [apply not_elem_of_dom, is_fresh|].
  eexists d, _. split; [reflexivity|]. split; [reflexivity|]. cbn. auto 10.
Qed.

(** X22. [resample] writes nothing but its result, whatever the
    interpolation does: grids and the data objects that exist stay as they
    are; when it returns, the result is a new data object on the grid asked
    for, with the ROI flag of the original, the name extended by
    [_resampled] and no cached range or regions; when it raises, the store
    is as before. *)
Theorem resample_changes_nothing_else `{Externals} (self : loc) (grid : loc) (order : Z)
    (h h' : Heap) (r : Result loc) :
  resample self grid order h = (r, h') ->
  grids h' = grids h /\
  (forall l0 d0, objs h !! l0 = Some d0 -> objs h' !! l0 = Some d0) /\
  match r with
  | Ok l =>
      objs h !! l = None /\
      exists d d', objs h !! self = Some d /\ objs h' !! l = Some d' /\
        QpData.grid d' = grid /\ roi d' = roi d /\
        name d' = (name d +:+ "_resampled")%string /\
        _regions d' = None /\ _range d' = None /\ raw_2dt d' = false
  | Raise _ => h' = h
  end.
Proof.
  intros Hr. pose proof (resample_effect self grid order h) as He. rewrite Hr in He.
  destruct r as [l|e].
  - destruct He as (Hfresh & d & d' & Hd & -> & Hfields). cbn [grids objs].
    split; [reflexivity|]. split.
    + intros l0 d0 Hl0. rewrite lookup_insert_ne; [exact Hl0|]. congruence.
    + split; [exact Hfresh|]. exists d, d'. rewrite lookup_insert_eq. auto.
  - subst h'. auto.
Qed.

Local Close Scope Q_scope.

(* --------------------------------------------------------------------- *)
(** ** Masking by an ROI *)

(** ** Masking *)

Lemma has_shape_amap {A B} (f : A -> B) shp : forall (a : Np.ndarray A),
  Np.has_shape shp a -> Np.has_shape shp (Np.amap f a).
Proof.
  induction shp as [|n shp IH]; intros a Ha.
  - destruct Ha as [x ->]. cbn. eauto.
  - destruct Ha as (l & -> & Hl & Hall). cbn [Np.amap].
    exists (map (Np.amap f) l). split; [reflexivity|]. split; [rewrite length_map; exact Hl|].
    apply Forall_fmap. eapply List.Forall_impl; [|exact Hall]. exact IH.
Qed.

Lemma get_at_inv {A} (l : list (Np.ndarray A)) i idx r :
  Np.get_at (Np.Arr l) (i :: idx) = Ok r ->
  exists y, l !! i = Some y /\ Np.get_at y idx = Ok r.
Proof.
  unfold Np.get_at. cbn [map Np.getitem]. intros Hx.
  destruct (Np.norm_int (length l) (Z.of_nat i)) as [k|] eqn:Ek; [|discriminate].
  assert (Hi : (i < length l)%nat).
  { unfold Np.norm_int in Ek.
    destruct ((0 <=? Z.of_nat i)%Z && (Z.of_nat i <? Z.of_nat (length l))%Z) eqn:E.
    - apply andb_prop in E as [_ E]. apply Z.ltb_lt in E. lia.
    - destruct ((- Z.of_nat (length l) <=? Z.of_nat i)%Z && (Z.of_nat i <? 0)%Z) eqn:E';
        [|discriminate].
      apply andb_prop in E' as [_ E']. apply Z.ltb_lt in E'. lia. }
  rewrite (norm_int_in (length l) (Z.of_nat i)) in Ek by lia. injection Ek as <-.
  cbn [bind Result_Monad] in Hx. rewrite Nat2Z.id in Hx.
  destruct (py_nth_lt l i Hi) as (y & Hy & Hly). rewrite Hy in Hx. eauto.
Qed.

Lemma get_at_amap {A B} (f : A -> B) shp : forall (a : Np.ndarray A) idx x,
  Np.has_shape shp a ->
  Np.get_at a idx = Ok (Np.Scalar x) -> Np.get_at (Np.amap f a) idx = Ok (Np.Scalar (f x)).
Proof.
  induction shp as [|n shp IH]; intros a idx x Ha Hx.
  - destruct Ha as [y ->]. destruct idx; [|discriminate].
    cbn in Hx. injection Hx as ->. reflexivity.
  - destruct Ha as (l & -> & Hl & Hall). destruct idx as [|i idx]; [discriminate|].
    apply get_at_inv in Hx as (y & Hy & Hx). cbn [Np.amap].
    rewrite (get_at_cons (map (Np.amap f) l) i idx (Np.amap f y)).
    + apply IH; [|exact Hx].
      rewrite List.Forall_forall in Hall. apply Hall, list_elem_of_In, list_elem_of_lookup. eauto.
    + rewrite list_lookup_fmap, Hy. reflexivity.
Qed.

(** A voxel of [out = np.zeros(d.shape); out[m] = d[m]]. *)
Lemma masked_copy_voxel shp : forall (m : Np.ndarray bool) (d : Np.ndarray Q) rest idx x b,
  Np.has_shape shp m -> Np.has_shape (shp ++ rest) d ->
  Np.get_at d idx = Ok (Np.Scalar x) ->
  Np.get_at m (take (length shp) idx) = Ok (Np.Scalar b) ->
  Np.get_at (Np.masked_copy m d) idx = Ok (Np.Scalar (if b then x else 0%Q)).
Proof.
  induction shp as [|n shp IH]; intros m d rest idx x b Hm Hd Hx Hb.
  - destruct Hm as [b' ->]. cbn [length take] in Hb. cbn in Hb. injection Hb as ->.
    cbn [Np.masked_copy]. destruct b; [exact Hx|].
    apply (get_at_amap (fun _ => 0%Q) rest d idx x Hd Hx).
  - destruct Hm as (lm & -> & Hlm & Hallm). destruct Hd as (ld & -> & Hld & Halld).
    destruct idx as [|i idx]; [discriminate|].
    apply get_at_inv in Hx as (y & Hy & Hx).
    cbn [length take] in Hb. apply get_at_inv in Hb as (mi & Hmi & Hb).
    cbn [Np.masked_copy].
    rewrite (get_at_cons _ i idx (Np.masked_copy mi y)).
    + apply (IH mi y rest); [| |exact Hx | exact Hb].
      * rewrite List.Forall_forall in Hallm.
        apply Hallm, list_elem_of_In, list_elem_of_lookup. eauto.
      * rewrite List.Forall_forall in Halld.
        apply Halld, list_elem_of_In, list_elem_of_lookup. eauto.
    + rewrite lookup_zip_with, Hmi. cbn. rewrite Hy. reflexivity.
Qed.

Lemma has_shape_masked_copy shp : forall (m : Np.ndarray bool) (d : Np.ndarray Q) rest,
  Np.has_shape shp m -> Np.has_shape (shp ++ rest) d ->
  Np.has_shape (shp ++ rest) (Np.masked_copy m d).
Proof.
  induction shp as [|n shp IH]; intros m d rest Hm Hd.
  - destruct Hm as [b ->]. cbn [Np.masked_copy]. destruct b; [exact Hd|].
    apply has_shape_amap, Hd.
  - destruct Hm as (lm & -> & Hlm & Hallm). destruct Hd as (ld & -> & Hld & Halld).
    cbn [Np.masked_copy]. eexists. split; [reflexivity|].
    split; [rewrite length_zip_with; lia|].
    apply List.Forall_forall. intros z Hz.
    apply list_elem_of_In, list_elem_of_lookup in Hz as (i & Hz).
    rewrite lookup_zip_with in Hz.
    destruct (lm !! i) as [mi|] eqn:Emi; [|discriminate].
    destruct (ld !! i) as [y|] eqn:Ey; [|discriminate]. cbn in Hz. injection Hz as <-.
    apply IH.
    + rewrite List.Forall_forall in Hallm.
      apply Hallm, list_elem_of_In, list_elem_of_lookup. eauto.
    + rewrite List.Forall_forall in Halld.
      apply Halld, list_elem_of_In, list_elem_of_lookup. eauto.
Qed.

Lemma shape_amap {A B} (f : A -> B) shp (a : Np.ndarray A) :
  Np.has_shape shp a -> Forall (fun n => 0 < n)%nat shp -> Np.shape (Np.amap f a) = Np.shape a.
Proof.
  intros Ha Hpos. rewrite (has_shape_shape shp a Ha Hpos).
  apply has_shape_shape; [apply has_shape_amap, Ha | exact Hpos].
Qed.

(** X23. [mask] with an ROI on a matching grid, without [output_flat],
    [output_mask] and [vol], returns an array of the shape of the data in
    which a voxel keeps its sample when the ROI selects it and is 0
    otherwise.  The ROI selects the voxels where it is positive (or, with
    [region], where it equals [region]); [invert] selects the others.  The
    raw array and the store are not changed. *)
Theorem mask_by_roi `{Externals} (h : Heap) (self : loc) (d : QpData.t) (g : DataGrid.t)
    (a : Np.ndarray Q) (r : loc) (dr : QpData.t) (gr : DataGrid.t) (ar : Np.ndarray Q)
    (region : option Q) (invert : bool) :
  valid_data h self d g a -> valid_data h r dr gr ar -> nvols dr = 1%Z ->
  DataGrid.matches gr g = true -> ~ (Np.det 4 (DataGrid.affine g) == 0)%Q ->
  exists h' m,
    mask self (Some r) region None invert false false h = (Ok (Single (MData m)), h') /\
    grids h' = grids h /\
    (forall l0 d0, objs h !! l0 = Some d0 -> objs h' !! l0 = Some d0) /\
    Np.shape m = Np.shape a /\
    forall idx x v,
      Np.get_at a idx = Ok (Np.Scalar x) ->
      Np.get_at ar (take 3 idx) = Ok (Np.Scalar v) ->
      Np.get_at m idx =
        Ok (Np.Scalar (if xorb invert (match region with
                                       | None => Np.Qlt_bool 0 v
                                       | Some reg => Qeq_bool v reg
                                       end)
                       then x else 0%Q)).
Proof.
  intros Hv Hvr Hn1 Hm Hdet.
  pose proof Hv as (Hd & Hg & Ha & Hc & Hnv & Hnd & Hroi & Hpos & Hshape).
  pose proof Hvr as (Hdr & Hgr & Har & Hcr & _ & _ & _ & Hposr & Hshaper).
  pose proof (constructed_shapes g Hc) as (_ & _ & _ & Hl).
  unfold DataGrid.matches in Hm. apply andb_prop in Hm as [Hma Hms].
  apply bool_decide_eq_true in Hms. apply array_equal_meq, meq_sym in Hma.
  rewrite Hn1 in Hshaper. cbn [Z.eqb Pos.eqb] in Hshaper. rewrite app_nil_r, Hms in Hshaper.
  destruct (resample_onto_equal_affine h r dr gr ar (grid d) g 0 Hvr Hg Hma Hdet)
    as (l & d' & Hres & Hfresh & Hraw' & _).
  set (f := fun x => match region with
                     | None => Np.Qlt_bool 0 x
                     | Some reg => Qeq_bool x reg
                     end).
  set (m0 := match region with
             | None => Np.amap (fun x => Np.Qlt_bool 0 x) ar
             | Some reg => Np.amap (fun x => Qeq_bool x reg) ar
             end).
  assert (Hm0 : m0 = Np.amap f ar) by (subst m0 f; destruct region; reflexivity).
  set (m := if invert then Np.amap negb m0 else m0).
  set (shp := map Z.to_nat (DataGrid.shape g)) in *.
  assert (Hshp : Forall (fun n => 0 < n)%nat shp) by (apply positive_extents, Hpos).
  assert (Hms' : Np.has_shape shp m).
  { subst m. rewrite Hm0. destruct invert; repeat apply has_shape_amap; exact Hshaper. }
  set (rest := if (nvols d =? 1)%Z then [] else [Z.to_nat (nvols d)]) in *.
  assert (Hrest : Forall (fun n => 0 < n)%nat (shp ++ rest)).
  { apply Forall_app. split; [exact Hshp|]. subst rest.
    destruct (nvols d =? 1)%Z; repeat constructor. lia. }
  assert (Hsel : exists sel, select_masked m a = Ok sel).
  { unfold select_masked, Np.ndim.
    rewrite (has_shape_shape shp m Hms' Hshp), (has_shape_shape _ a Hshape Hrest).
    rewrite take_app_length. unfold list_nat_eqb.
    rewrite bool_decide_eq_true_2 by reflexivity. eauto. }
  destruct Hsel as (sel & Hsel).
  exists {| grids := grids h; objs := <[l := d']> (objs h) |}, (Np.masked_copy m a).
  split; [|split; [reflexivity|split; [|split]]].
  - unfold mask.
    rewrite (run_bind _ _ h a h (run_raw h self d a Hd Ha)).
    cbn [bind St_Monad]. rewrite (run_get_data h self d Hd), Hres.
    rewrite (run_raw _ l d' ar); [|cbn [objs]; apply lookup_insert_eq | exact Hraw'].
    fold m0. fold m. unfold lift. rewrite Hsel. reflexivity.
  - intros l0 d0 Hl0. cbn [objs]. rewrite lookup_insert_ne; [exact Hl0 | congruence].
  - rewrite (has_shape_shape _ a Hshape Hrest).
    apply has_shape_shape; [|exact Hrest].
    apply has_shape_masked_copy; assumption.
  - intros idx x v Hx Hv0.
    assert (Hb : Np.get_at m (take (length shp) idx)
                 = Ok (Np.Scalar (xorb invert (f v)))).
    { subst shp. rewrite length_map, Hl. subst m. rewrite Hm0.
      pose proof (get_at_amap f _ ar (take 3 idx) v Hshaper Hv0) as H1.
      destruct invert; cbn [xorb].
      - apply (get_at_amap negb _ _ _ _ (has_shape_amap f _ ar Hshaper) H1).
      - exact H1. }
    apply (masked_copy_voxel shp m a rest idx x _ Hms' Hshape Hx Hb).
Qed.

(* --------------------------------------------------------------------- *)
(** ** Grid construction and ortho vectors *)

Local Open Scope Q_scope.

(** ** The constructor of a grid *)




(** ** Ortho vectors *)

(** The test that [is_ortho_vector] applies to a component. *)
Lemma ortho_scan_spec tol md vec : forall axis ax s,
  ortho_scan tol md axis vec = Some (ax, s) ->
  exists val, (axis <= ax)%nat /\ vec !! (ax - axis)%nat = Some val /\
    s = Np.copysign1 val /\
    Qabs (Qabs (val / md) - 1) < tol /\
    forall j v, (j < ax - axis)%nat -> vec !! j = Some v ->
                ~ Qabs (Qabs (v / md) - 1) < tol.
Proof.
  induction vec as [|x vec IH]; intros axis ax s; cbn [ortho_scan]; [discriminate|].
  pose proof (Qlt_bool_spec (Qabs (Qabs (x / md) - 1)) tol) as Hx.
  destruct (Np.Qlt_bool _ tol).
  - intros [= <- <-]. exists x. rewrite Nat.sub_diag. repeat split; [lia | exact Hx |].
    intros j v Hj. lia.
  - intros Hs. apply IH in Hs as (val & Hle & Hval & -> & Ht & Hfirst).
    exists val. replace (ax - axis)%nat with (S (ax - S axis)) by lia.
    repeat split; [lia | exact Hval | exact Ht |].
    intros [|j] v Hj Hv.
    + cbn in Hv. injection Hv as <-. apply Qle_not_lt, Hx.
    + cbn in Hv. apply (Hfirst j v); [lia | exact Hv].
Qed.

Lemma ortho_scan_none tol md vec : forall axis,
  (forall v, v ∈ vec -> ~ Qabs (Qabs (v / md) - 1) < tol) ->
  ortho_scan tol md axis vec = None.
Proof.
  induction vec as [|x vec IH]; intros axis Hall; cbn [ortho_scan]; [reflexivity|].
  pose proof (Qlt_bool_spec (Qabs (Qabs (x / md) - 1)) tol) as Hx.
  destruct (Np.Qlt_bool _ tol).
  - exfalso. apply (Hall x); [left | exact Hx].
  - apply IH. intros v Hv. apply Hall. right. exact Hv.
Qed.

Lemma Qlt_bool_is_true a b : a < b -> Np.Qlt_bool a b = true.
Proof.
  intros Hab. pose proof (Qlt_bool_spec a b) as Hs.
  destruct (Np.Qlt_bool a b); [reflexivity | lra].
Qed.

Lemma Qlt_bool_is_false a b : b <= a -> Np.Qlt_bool a b = false.
Proof.
  intros Hab. pose proof (Qlt_bool_spec a b) as Hs.
  destruct (Np.Qlt_bool a b); [lra | reflexivity].
Qed.

Lemma unit_component c md : ~ c == 0 -> md == Qabs c -> Qabs (Qabs (c / md) - 1) == 0.
Proof.
  intros Hc Hmd. rewrite Hmd.
  destruct (Qlt_le_dec c 0) as [Hn | Hp].
  - rewrite (Qabs_neg c) by lra.
    assert (E : c / - c == -1) by (field; lra).
    rewrite E. reflexivity.
  - assert (Hp' : 0 < c).
    { apply Qle_lteq in Hp as [Hp | Hp]; [exact Hp|]. exfalso. apply Hc. symmetry. exact Hp. }
    rewrite (Qabs_pos c) by lra.
    assert (E : c / c == 1) by (field; lra).
    rewrite E. reflexivity.
Qed.

Lemma zero_component md : Qabs (Qabs (0 / md) - 1) == 1.
Proof.
  assert (E : 0 / md == 0) by (unfold Qdiv; ring). rewrite E. reflexivity.
Qed.

Lemma ortho_scan_axis tol md c : forall k n axis,
  (k < n)%nat -> 0 < tol -> tol < 1 -> ~ c == 0 -> md == Qabs c ->
  ortho_scan tol md axis (<[k := c]> (replicate n 0)) = Some ((axis + k)%nat, Np.copysign1 c).
Proof.
  induction k as [|k IH]; intros n axis Hk Htol Htol1 Hc Hmd;
    (destruct n as [|n]; [lia|]); cbn [replicate insert list_insert ortho_scan].
  - rewrite Qlt_bool_is_true; [rewrite Nat.add_0_r; reflexivity|].
    rewrite (unit_component c md Hc Hmd). exact Htol.
  - rewrite Qlt_bool_is_false; [|rewrite zero_component; lra].
    transitivity (Some ((S axis + k)%nat, Np.copysign1 c));
      [apply IH; [lia | assumption..] | f_equal; f_equal; lia].
Qed.

Lemma tolerance_positive shp : (0 < shp)%Z ->
  0 < EQ_TOL / inject_Z shp /\ EQ_TOL / inject_Z shp < 1.
Proof.
  intros Hs. assert (Hq : 1 <= inject_Z shp).
  { change 1 with (inject_Z 1). rewrite <- Zle_Qle. lia. }
  unfold EQ_TOL. split.
  - apply Qlt_shift_div_l; lra.
  - apply Qlt_shift_div_r; lra.
Qed.

Lemma tolerance_negative shp : (shp < 0)%Z -> EQ_TOL / inject_Z shp < 0.
Proof.
  intros Hs. assert (Hq : inject_Z shp <= -1).
  { change (-1) with (inject_Z (-1)). rewrite <- Zle_Qle. lia. }
  assert (E : EQ_TOL / inject_Z shp == - (EQ_TOL / - inject_Z shp)) by (field; lra).
  rewrite E. assert (0 < EQ_TOL / - inject_Z shp); [|lra].
  unfold EQ_TOL. apply Qlt_shift_div_l; lra.
Qed.

(** X25. [is_ortho_vector] raises [ZeroDivisionError] for a shape of 0 and
    finds no axis for a negative shape.  An axis it returns is the first
    whose normalised component is within the tolerance of 1 or -1, and the
    sign returned is the sign of that component.  A vector along one axis
    (norm computed exactly, positive shape) is recognised with that axis and
    the sign of its entry. *)
Theorem is_ortho_vector_outcome `{Externals} (vec : Np.vector) (shp : Z) :
  (shp = 0%Z -> is_ortho_vector vec shp = Raise ZeroDivisionError) /\
  ((shp < 0)%Z -> is_ortho_vector vec shp = Ok None) /\
  (forall axis sign, is_ortho_vector vec shp = Ok (Some (axis, sign)) ->
     exists val, vec !! axis = Some val /\
       sign = (if Np.Qlt_bool val 0 then -1 else 1) /\
       Qabs (Qabs (val / linalg_norm vec) - 1) < EQ_TOL / inject_Z shp /\
       forall j v, (j < axis)%nat -> vec !! j = Some v ->
                   ~ Qabs (Qabs (v / linalg_norm vec) - 1) < EQ_TOL / inject_Z shp) /\
  (forall k n c, (0 < shp)%Z -> (k < n)%nat -> ~ c == 0 ->
     vec = <[k := c]> (replicate n 0) -> linalg_norm vec == Qabs c ->
     is_ortho_vector vec shp = Ok (Some (k, if Np.Qlt_bool c 0 then -1 else 1))).
Proof.
  unfold is_ortho_vector. repeat split.
  - intros ->. reflexivity.
  - intros Hs. destruct (Z.eqb_spec shp 0) as [E|E]; [lia|]. f_equal.
    apply ortho_scan_none. intros v _ Hv.
    pose proof (tolerance_negative shp Hs). pose proof (Qabs_nonneg (Qabs (v / linalg_norm vec) - 1)).
    lra.
  - intros axis sign. destruct (Z.eqb_spec shp 0) as [E|E]; [discriminate|].
    intros [= Hs]. apply ortho_scan_spec in Hs as (val & _ & Hval & -> & Ht & Hfirst).
    rewrite Nat.sub_0_r in *. exists val. auto.
  - intros k n c Hs Hk Hc -> Hmd. destruct (Z.eqb_spec shp 0) as [E|E]; [lia|]. f_equal.
    destruct (tolerance_positive shp Hs) as [Ht0 Ht1].
    rewrite (ortho_scan_axis _ _ c k n 0%nat Hk Ht0 Ht1 Hc Hmd). reflexivity.
Qed.

(** ** Slices: the interpolation order and the mask of the general path *)

Lemma ndarray_induction {A} (P : Np.ndarray A -> Prop) :
  (forall x, P (Np.Scalar x)) -> (forall l, Forall P l -> P (Np.Arr l)) ->
  forall a, P a.
Proof.
  intros HS HA. fix IH 1. intros [x | l]; [apply HS|].
  apply HA. induction l as [|y l IHl]; constructor; [apply IH | exact IHl].
Qed.

Lemma flatten_amap {A B} (f : A -> B) (a : Np.ndarray A) :
  Np.flatten (Np.amap f a) = map f (Np.flatten a).
Proof.
  induction a as [x | l IH] using ndarray_induction; [reflexivity|].
  cbn [Np.amap Np.flatten]. rewrite List.map_map, concat_map, List.map_map.
  f_equal. induction IH as [|y l Hy _ IHl]; [reflexivity|].
  cbn [map]. rewrite Hy, IHl. reflexivity.
Qed.

Lemma flatten_full {A} (v : A) shp : Forall (fun x => x = v) (Np.flatten (Np.full shp v)).
Proof.
  induction shp as [|n shp IH]; cbn [Np.full Np.flatten]; [repeat constructor|].
  induction n as [|n IHn]; cbn [replicate map concat]; [constructor|].
  apply Forall_app. split; assumption.
Qed.

Local Close Scope Q_scope.

(* --------------------------------------------------------------------- *)
(** ** Queries that only read; the general slice path *)

(** ** Queries that leave the store alone *)

Lemma reads_ret {A} (a : A) : reads_only (ret a : St A).
Proof. intros h. reflexivity. Qed.

Lemma reads_lift {A} (r : Result A) : reads_only (lift r).
Proof. intros h. reflexivity. Qed.

Lemma reads_raise {A} e : reads_only (raise e : St A).
Proof. intros h. reflexivity. Qed.

Lemma reads_get_grid l : reads_only (get_grid l).
Proof. intros h. reflexivity. Qed.

Lemma reads_get_data l : reads_only (get_data l).
Proof. intros h. reflexivity. Qed.

Lemma reads_bind {A B} (m : St A) (k : A -> St B) :
  reads_only m -> (forall a, reads_only (k a)) -> reads_only (bind m k).
Proof.
  intros Hm Hk h. cbn [bind St_Monad]. specialize (Hm h).
  destruct (m h) as [[a|e] h1]; cbn [snd] in *; subst h1; [apply Hk | reflexivity].
Qed.

Create HintDb reads discriminated.
#[local] Hint Resolve reads_ret reads_lift reads_raise reads_get_grid reads_get_data : reads.

Ltac reads_step :=
  match goal with
  | |- reads_only (bind _ _) => apply reads_bind; [|intros ?]
  | |- reads_only (match ?x with _ => _ end) => destruct x
  | |- reads_only (if ?b then _ else _) => destruct b
  | |- reads_only _ => solve [auto with reads]
  end.

Ltac reads := repeat reads_step.

Lemma reads_raw self : reads_only (raw self).
Proof. unfold raw. reads. Qed.
#[local] Hint Resolve reads_raw : reads.

Lemma reads_volume self vol : reads_only (volume self vol).
Proof. unfold volume. reads. Qed.
#[local] Hint Resolve reads_volume : reads.

Lemma reads_position_grid `{Externals} grid : reads_only (position_grid grid).
Proof. unfold position_grid. reads. Qed.

Lemma reads_data_position self pos g : reads_only (data_position self pos g).
Proof. unfold data_position. reads. Qed.
#[local] Hint Resolve reads_position_grid reads_data_position : reads.

Lemma reads_value `{Externals} self pos grid as_str : reads_only (value self pos grid as_str).
Proof. unfold value. reads. Qed.
#[local] Hint Resolve reads_value : reads.

Lemma reads_timeseries `{Externals} self pos grid : reads_only (timeseries self pos grid).
Proof. unfold timeseries. reads. Qed.

Lemma reads_slice_geometry `{Externals} self plane vol :
  reads_only (slice_geometry self plane vol).
Proof. unfold slice_geometry. reads. Qed.
#[local] Hint Resolve reads_slice_geometry : reads.

Lemma reads_slice_data `{Externals} self plane vol order :
  reads_only (slice_data self plane vol order).
Proof. unfold slice_data. reads. Qed.

Lemma reads_range_volume self v : reads_only (range self (Some v)).
Proof. unfold range. reads. Qed.

Lemma reads_bounding_step self slices dim : reads_only (bounding_step self slices dim).
Proof. unfold bounding_step. reads. Qed.
#[local] Hint Resolve reads_bounding_step : reads.

Lemma reads_for_each {A B} (f : A -> B -> St A) l :
  (forall a x, reads_only (f a x)) -> forall acc, reads_only (for_each f l acc).
Proof.
  intros Hf. induction l as [|x l IH]; intros acc; cbn [for_each]; [apply reads_ret|].
  apply reads_bind; [apply Hf | exact IH].
Qed.

Lemma reads_get_bounding_box self ndim : reads_only (get_bounding_box self ndim).
Proof. unfold get_bounding_box. reads. apply reads_for_each. auto with reads. Qed.

(** X27. [value], [timeseries], [volume], [range] of one volume,
    [slice_data] and [get_bounding_box] leave the whole store as it was:
    data objects as well as grids, whether they return or raise. *)
Theorem queries_leave_the_store `{Externals} :
  (forall self pos grid as_str, reads_only (value self pos grid as_str)) /\
  (forall self pos grid, reads_only (timeseries self pos grid)) /\
  (forall self vol, reads_only (volume self vol)) /\
  (forall self vol, reads_only (range self (Some vol))) /\
  (forall self plane vol order, reads_only (slice_data self plane vol order)) /\
  (forall self ndim, reads_only (get_bounding_box self ndim)).
Proof.
  repeat split; intros.
  - apply reads_value.
  - apply reads_timeseries.
  - apply reads_volume.
  - apply reads_range_volume.
  - apply reads_slice_data.
  - apply reads_get_bounding_box.
Qed.

(** ** Slices: the interpolation order and the mask of the general path *)

Local Open Scope Q_scope.

Lemma run_slice_data `{Externals} h self plane d vol order f :
  objs h !! self = Some d -> fst (slice_geometry self plane vol h) = Ok f ->
  slice_data self plane vol order h =
  (sm <- match f_ortho1 f, f_ortho2 f with
         | Some (ax1, sign1), Some (ax2, sign2) =>
             ortho_slice (f_rawdata f) (f_slice_shape f) (f_data_origin f)
                         (f_data_naxis f) ax1 sign1 ax2 sign2
         | _, _ =>
             affine_slice (roi d) (f_rawdata f) (f_slice_shape f) (f_slice_origin f)
                          (f_slice_basis f) order
         end ;;
   Ok (fst sm, snd sm, f_trans_v f, f_offset f), h).
Proof.
  intros Hd Hf. unfold slice_data. cbn [bind St_Monad].
  pose proof (reads_slice_geometry self plane vol h) as Hh.
  destruct (slice_geometry self plane vol h) as [r h1]. cbn [fst snd] in *. subst r h1.
  rewrite (run_get_data h self d Hd). unfold lift. cbn [bind Result_Monad].
  match goal with
  | |- match ?R with Ok _ => _ | Raise _ => _ end = _ => destruct R
  end; reflexivity.
Qed.

(** X26. The interpolation order given to [slice_data] has no effect on an
    ROI (it is replaced by 0), nor on any data when both basis vectors of
    the slice are ortho vectors (the voxels are then taken by indexing). *)
Theorem slice_data_ignores_order `{Externals} (h : Heap) (self plane : loc) (d : QpData.t)
    (vol : Q) (o1 o2 : Z) :
  objs h !! self = Some d ->
  roi d = true \/
    (exists f, fst (slice_geometry self plane vol h) = Ok f /\
               f_ortho1 f <> None /\ f_ortho2 f <> None) ->
  slice_data self plane vol o1 h = slice_data self plane vol o2 h.
Proof.
  intros Hd Hcase.
  destruct (fst (slice_geometry self plane vol h)) as [f|e] eqn:Ef.
  - rewrite !(run_slice_data h self plane d vol _ f Hd Ef).
    destruct Hcase as [Hr | (f' & [= <-] & H1 & H2)].
    + rewrite Hr. reflexivity.
    + destruct (f_ortho1 f) as [[ax1 s1]|]; [|contradiction].
      destruct (f_ortho2 f) as [[ax2 s2]|]; [|contradiction]. reflexivity.
  - unfold slice_data. cbn [bind St_Monad].
    destruct (slice_geometry self plane vol h) as [r h1]. cbn [fst] in Ef. subst r.
    reflexivity.
Qed.

(** X28. In the general path of [slice_data], taken when a basis vector of
    the slice is no ortho vector, a result leaves the store unchanged and
    carries the transform and offset of the slice frame.  For an ROI the
    mask is all ones.  For other data each point of the slice either has
    mask 1 and a value not below the minimum of the raw data, or has mask 0
    and value 0. *)
Theorem affine_slice_mask `{Externals} (h h' : Heap) (self plane : loc) (d : QpData.t)
    (vol : Q) (order : Z) (f : slice_frame) (sdata smask : Np.ndarray Q)
    (trans_v : Np.matrix) (offset : Np.vector) :
  objs h !! self = Some d ->
  fst (slice_geometry self plane vol h) = Ok f ->
  f_ortho1 f = None \/ f_ortho2 f = None ->
  slice_data self plane vol order h = (Ok (sdata, smask, trans_v, offset), h') ->
  h' = h /\ trans_v = f_trans_v f /\ offset = f_offset f /\
  (roi d = true -> Forall (fun m => m = 1) (Np.flatten smask)) /\
  (roi d = false ->
     exists dmin, Np.amin (f_rawdata f) = Ok dmin /\
       Forall2 (fun x m => (m = 1 /\ dmin <= x) \/ (m = 0 /\ x = 0))
               (Np.flatten sdata) (Np.flatten smask)).
Proof.
  intros Hd Hf Hcase Hrun.
  rewrite (run_slice_data h self plane d vol order f Hd Hf) in Hrun.
  assert (Haff : (sm <- affine_slice (roi d) (f_rawdata f) (f_slice_shape f)
                          (f_slice_origin f) (f_slice_basis f) order ;;
                  Ok (fst sm, snd sm, f_trans_v f, f_offset f))
                 = Ok (sdata, smask, trans_v, offset) /\ h' = h).
  { destruct Hcase as [E | E]; rewrite E in Hrun.
    - injection Hrun as Hrun <-. auto.
    - destruct (f_ortho1 f) as [[ax1 s1]|]; injection Hrun as Hrun <-; auto. }
  destruct Haff as [Haff ->]. clear Hrun.
  unfold affine_slice in Haff.
  destruct (roi d).
  - destruct (affineSlice _ _ _ _ _ _ _) as [s0|]; [|discriminate].
    cbn in Haff. injection Haff as <- <- <- <-.
    repeat split; [|discriminate]. intros _. apply flatten_full.
  - destruct (Np.amin (f_rawdata f)) as [dmin|]; [|discriminate].
    cbn [bind Result_Monad] in Haff.
    destruct (affineSlice _ _ _ _ _ _ _) as [s0|]; [|discriminate].
    cbn in Haff. injection Haff as <- <- <- <-.
    repeat split; [discriminate|]. intros _. exists dmin. split; [reflexivity|].
    rewrite !flatten_amap. generalize (Np.flatten s0). intros l.
    induction l as [|x l IH]; cbn [map]; constructor; [|exact IH].
    pose proof (Qlt_bool_spec x dmin) as Hx.
    destruct (Np.Qlt_bool x dmin); [right | left]; auto.
Qed.

Local Close Scope Q_scope.

(* --------------------------------------------------------------------- *)
(** ** Further properties at the example data *)

Local Open Scope Q_scope.

Ltac example_shape :=
  cbn;
  repeat (eexists; split; [reflexivity|]; split; [reflexivity|]; repeat constructor);
  repeat (eexists; split; [reflexivity|]; split; [reflexivity|]; repeat constructor);
  repeat (eexists; split; [reflexivity|]; split; [reflexivity|]; repeat constructor);
  eexists; reflexivity.

Lemma oblique_twin_constructed :
  DataGrid.constructed (H := Examples.externals) Examples.oblique_twin.
Proof.
  exists [2; 3; 4]%Z,
    [[0; -4 # 2; 0; 5]; [6 # 2; 0; 0; 7]; [0; 0; 4; 9]; [0; 0; 0; 1]]. reflexivity.
Qed.

Lemma offset_grid_constructed :
  DataGrid.constructed (H := Examples.externals) Examples.offset_grid.
Proof.
  exists [2; 2; 2]%Z, [[1; 0; 0; 1 # 2]; [0; 1; 0; 0]; [0; 0; 1; 0]; [0; 0; 0; 1]].
  reflexivity.
Qed.

Lemma spot_store_valid :
  valid_data (H := Examples.externals) Examples.spot_store 0%nat Examples.spot_data
             Examples.unit_grid Examples.spot.
Proof.
  unfold valid_data. split; [reflexivity|]. split; [reflexivity|]. split; [reflexivity|].
  split; [exact unit_grid_constructed|].
  split; [vm_compute; discriminate|]. split; [reflexivity|]. split; [reflexivity|].
  split; [repeat constructor|].
  example_shape.
Qed.

Lemma blank_store_valid :
  valid_data (H := Examples.externals) Examples.blank_store 0%nat Examples.blank_data
             Examples.unit_grid Examples.blank.
Proof.
  unfold valid_data. split; [reflexivity|]. split; [reflexivity|]. split; [reflexivity|].
  split; [exact unit_grid_constructed|].
  split; [vm_compute; discriminate|]. split; [reflexivity|]. split; [reflexivity|].
  split; [repeat constructor|].
  example_shape.
Qed.

Lemma twin_store_valid :
  valid_data (H := Examples.externals) Examples.twin_store 0%nat Examples.ramp_data
             Examples.unit_grid Examples.ramp.
Proof.
  unfold valid_data. split; [reflexivity|]. split; [reflexivity|]. split; [reflexivity|].
  split; [exact unit_grid_constructed|].
  split; [vm_compute; discriminate|]. split; [reflexivity|]. split; [reflexivity|].
  split; [repeat constructor|].
  example_shape.
Qed.

(** X1 at the oblique grid, whose origin is integral, and the world point
    (5, 7, 9) with volume 8, given as integers. *)
Lemma world_grid_world_roundtrip_witness :
  exists c w',
    DataGrid.world_to_grid_as Np.int64 Examples.oblique_grid [5; 7; 9; 8] false = Ok c /\
    DataGrid.grid_to_world Examples.oblique_grid c false = Ok w' /\
    Np.veq w' [5; 7; 9; 8].
Proof.
  destruct (world_grid_world_roundtrip (H := Examples.externals) Examples.oblique_grid
              Np.int64 [5; 7; 9; 8] false oblique_grid_constructed)
    as (c & w' & Hc & Hw & _ & _ & _ & Hround).
  - right. reflexivity.
  - exists c, w'. split; [exact Hc|]. split; [exact Hw|].
    apply Hround. right. apply veq3_intro; reflexivity.
Defined.

(** Integer co-ordinates on a grid whose origin is (1/2, 0, 0): the origin
    is cut to 0 before it is subtracted, and the round trip ends half a
    voxel off; with floats it does not. *)
Example integer_coordinates_cut_the_origin :
  DataGrid.world_to_grid_as Np.int64 Examples.offset_grid [1; 2; 3] false = Ok [1; 2; 3] /\
  DataGrid.grid_to_world Examples.offset_grid [1; 2; 3] false = Ok [3 # 2; 2; 3] /\
  DataGrid.world_to_grid Examples.offset_grid [1; 2; 3] false = Ok [1 # 2; 4 # 2; 6 # 2].
Proof. repeat split. Qed.

(** X2 at the offset grid and the integer points (1, 2, 3) and (4, 6, 8). *)
Lemma direction_is_displacement_witness :
  (exists wa wb wd,
     DataGrid.grid_to_world Examples.offset_grid [1; 2; 3] false = Ok wa /\
     DataGrid.grid_to_world Examples.offset_grid [4; 6; 8] false = Ok wb /\
     DataGrid.grid_to_world Examples.offset_grid (Np.vsub [1; 2; 3] [4; 6; 8]) true
       = Ok wd /\
     Np.veq (Np.vsub wa wb) wd) /\
  (exists ga gb gd,
     DataGrid.world_to_grid_as Np.int64 Examples.offset_grid [1; 2; 3] false = Ok ga /\
     DataGrid.world_to_grid_as Np.int64 Examples.offset_grid [4; 6; 8] false = Ok gb /\
     DataGrid.world_to_grid_as Np.int64 Examples.offset_grid
       (Np.vsub [1; 2; 3] [4; 6; 8]) true = Ok gd /\
     Np.veq (Np.vsub ga gb) gd).
Proof.
  apply (direction_is_displacement (H := Examples.externals) Examples.offset_grid
           Np.int64 Np.int64 [1; 2; 3] [4; 6; 8]).
  - exact offset_grid_constructed.
  - reflexivity.
  - reflexivity.
Defined.

(** X3 at the oblique grid: two coordinates are refused, five are cut to
    three. *)
Lemma coordinate_arity_witness :
  (DataGrid.grid_to_world Examples.oblique_grid [1; 2] false = Raise ValueError /\
   DataGrid.world_to_grid Examples.oblique_grid [1; 2] false = Raise ValueError) /\
  exists w v,
    DataGrid.grid_to_world Examples.oblique_grid [1; 2; 3; 4; 5] false = Ok (w ++ []) /\
    DataGrid.world_to_grid Examples.oblique_grid [1; 2; 3; 4; 5] false = Ok (v ++ []) /\
    length w = 3%nat /\ length v = 3%nat.
Proof.
  split.
  - apply (coordinate_arity (H := Examples.externals) Examples.oblique_grid [1; 2] false).
    + exact oblique_grid_constructed.
    + cbn. lia.
  - destruct (proj2 (coordinate_arity (H := Examples.externals) Examples.oblique_grid
                       [1; 2; 3; 4; 5] false oblique_grid_constructed))
      as (w & v & _ & _ & Hw & Hv & Hgw & Hwg).
    + cbn. lia.
    + exists w, v. repeat split; assumption.
Defined.

(** X4 between the unit grid and the oblique grid, whose origins are
    integral, with integer world co-ordinates. *)
Lemma grid_to_grid_inverse_witness :
  (exists p c',
     DataGrid.grid_to_grid_as Np.int64 Examples.unit_grid [1; 2; 3] None
       (Some Examples.oblique_grid) false = Ok p /\
     DataGrid.grid_to_grid Examples.unit_grid p (Some Examples.oblique_grid) None false
       = Ok c' /\
     Np.veq c' [1; 2; 3]) /\
  (exists q c',
     DataGrid.grid_to_grid_as Np.int64 Examples.unit_grid [1; 2; 3]
       (Some Examples.oblique_grid) None false = Ok q /\
     DataGrid.grid_to_grid Examples.unit_grid q None (Some Examples.oblique_grid) false
       = Ok c' /\
     Np.veq c' [1; 2; 3]).
Proof.
  destruct (grid_to_grid_inverse (H := Examples.externals) Np.int64 Examples.unit_grid
              Examples.oblique_grid [1; 2; 3] false
              unit_grid_constructed oblique_grid_constructed) as [Hto Hfrom].
  - left. reflexivity.
  - split.
    + apply Hto. right. apply veq3_intro; reflexivity.
    + apply Hfrom. right. apply veq3_intro; reflexivity.
Defined.

(** X5 from the oblique grid over the unit grid to the skewed grid, with
    floats. *)
Lemma grid_to_grid_chain_witness :
  exists p q r,
    DataGrid.grid_to_grid_as Np.float64 Examples.unit_grid [1; 2; 3; 8]
      (Some Examples.oblique_grid) None false = Ok p /\
    DataGrid.grid_to_grid Examples.skewed_grid p (Some Examples.unit_grid) None false
      = Ok q /\
    DataGrid.grid_to_grid_as Np.float64 Examples.skewed_grid [1; 2; 3; 8]
      (Some Examples.oblique_grid) None false = Ok r /\
    Np.veq q r.
Proof.
  apply (grid_to_grid_chain (H := Examples.externals) Np.float64 Examples.oblique_grid
           Examples.unit_grid Examples.skewed_grid [1; 2; 3; 8] false).
  - exact oblique_grid_constructed.
  - exact unit_grid_constructed.
  - exact skewed_grid_constructed.
  - right. reflexivity.
  - right. split; apply veq_refl.
Defined.

(** X7 at the oblique grid and its twin, whose affine is written with other
    fractions. *)
Lemma matching_grids_share_coordinates_witness :
  DataGrid.shape Examples.oblique_grid = DataGrid.shape Examples.oblique_twin /\
  (exists w1 w2,
     DataGrid.grid_to_world Examples.oblique_grid [1; 2; 3] false = Ok w1 /\
     DataGrid.grid_to_world Examples.oblique_twin [1; 2; 3] false = Ok w2 /\
     Np.veq w1 w2) /\
  (exists c',
     DataGrid.grid_to_grid Examples.oblique_grid [1; 2; 3] None (Some Examples.oblique_twin)
       false = Ok c' /\
     Np.veq c' [1; 2; 3]).
Proof.
  apply (matching_grids_share_coordinates (H := Examples.externals) Examples.oblique_grid
           Examples.oblique_twin [1; 2; 3] false).
  - exact oblique_grid_constructed.
  - exact oblique_twin_constructed.
  - reflexivity.
  - left. reflexivity.
Defined.

(** X8 at the oblique affine: the axes are reordered to (1, 0, 2) and the
    result is dominated by its diagonal. *)
Lemma simplify_transforms_result_witness :
  exists a b c reorder flip m',
    Np.argmax (Np.col (map Np.vabs Examples.oblique_affine) 0) = Ok a /\
    Np.argmax (Np.col (map Np.vabs Examples.oblique_affine) 1) = Ok b /\
    Np.argmax (Np.col (map Np.vabs Examples.oblique_affine) 2) = Ok c /\
    DataGrid.simplify_transforms Examples.oblique_grid Examples.oblique_affine
      = Ok (reorder, flip, m') /\
    Np.shape_is m' 4 4 = true /\ NoDup flip /\ Forall (fun d => d < 3)%nat flip /\
    (([a; b; c] ≡ₚ [0; 1; 2]%nat /\ reorder = [a; b; c] /\ DataGrid.dominant_diagonal m') \/
     (~ [a; b; c] ≡ₚ [0; 1; 2]%nat /\ reorder = [0; 1; 2]%nat /\ flip = [] /\
      m' = Examples.oblique_affine)).
Proof.
  apply (simplify_transforms_result Examples.oblique_grid Examples.oblique_affine).
  - reflexivity.
  - reflexivity.
Defined.

(** X9 at the oblique affine. *)
Lemma simplify_transforms_idempotent_witness :
  DataGrid.simplify_transforms Examples.oblique_standard
    [[2; 0; 0; 1]; [0; 3; 0; 7]; [0; 0; 4; 9]; [0; 0; 0; 1]]
  = Ok ([0; 1; 2]%nat, [], [[2; 0; 0; 1]; [0; 3; 0; 7]; [0; 0; 4; 9]; [0; 0; 0; 1]]).
Proof.
  apply (simplify_transforms_idempotent Examples.oblique_grid Examples.oblique_standard
           Examples.oblique_affine [1; 0; 2]%nat [0%nat]).
  - reflexivity.
  - reflexivity.
  - reflexivity.
  - reflexivity.
Defined.

(** X10 at the oblique grid. *)
Lemma get_standard_idempotent_witness :
  DataGrid.get_standard (H := Examples.externals) Examples.oblique_standard
    = Ok Examples.oblique_standard /\
  DataGrid.constructed (H := Examples.externals) Examples.oblique_standard.
Proof.
  apply (get_standard_idempotent (H := Examples.externals) Examples.oblique_grid
           Examples.oblique_standard).
  - exact oblique_grid_constructed.
  - reflexivity.
Defined.

(** X11 at the oblique grid, across axis 1 at position 1/2. *)
Lemma orthoslice_geometry_witness :
  exists s,
    OrthoSlice.__init__ (H := Examples.externals) Examples.oblique_grid 1 (1 # 2) = Ok s /\
    DataGrid.constructed (H := Examples.externals) (OrthoSlice.super s) /\
    DataGrid.shape (OrthoSlice.super s) = [2; 4; 1]%Z /\
    OrthoSlice.normal s = [-2; 0; 0] /\
    OrthoSlice.basis s = [[0; 3; 0]; [0; 0; 4]] /\
    forall u v w, exists p q,
      DataGrid.grid_to_world (OrthoSlice.super s) [u; v; w] false = Ok p /\
      DataGrid.grid_to_world Examples.oblique_grid [u; (1 # 2) + w; v] false = Ok q /\
      Np.veq p q.
Proof.
  apply (orthoslice_geometry (H := Examples.externals) Examples.oblique_grid 1 (1 # 2)).
  - exact oblique_grid_constructed.
  - lia.
Defined.

(** X12 on the single volume and on the series of two volumes. *)
Lemma volume_clamps_witness :
  (forall vol, volume 0%nat vol Examples.store = (Ok Examples.ramp, Examples.store)) /\
  (forall k, (2 <= k)%Z ->
     volume 0%nat (inject_Z k) Examples.series_store
     = volume 0%nat (inject_Z (2 - 1)) Examples.series_store) /\
  (forall k, (k < - 2)%Z ->
     volume 0%nat (inject_Z k) Examples.series_store
     = (Raise IndexError, Examples.series_store)).
Proof.
  split; [|split].
  - apply (volume_clamps (H := Examples.externals) Examples.store 0%nat Examples.ramp_data
             Examples.unit_grid Examples.ramp store_valid). reflexivity.
  - apply (volume_clamps (H := Examples.externals) Examples.series_store 0%nat
             Examples.series_data Examples.unit_grid Examples.series series_store_valid).
    discriminate.
  - apply (volume_clamps (H := Examples.externals) Examples.series_store 0%nat
             Examples.series_data Examples.unit_grid Examples.series series_store_valid).
    discriminate.
Defined.

(** X13 on the series. *)
Lemma range_bounds_witness :
  exists lo hi h',
    range 0%nat None Examples.series_store = (Ok (lo, hi), h') /\
    h' = {| grids := grids Examples.series_store;
            objs := <[0%nat := with_range Examples.series_data (Some (lo, hi))]>
                      (objs Examples.series_store) |} /\
    lo ∈ Np.flatten Examples.series /\ hi ∈ Np.flatten Examples.series /\
    (forall x, x ∈ Np.flatten Examples.series -> lo <= x /\ x <= hi) /\
    range 0%nat None h' = (Ok (lo, hi), h').
Proof.
  apply (range_bounds Examples.series_store 0%nat Examples.series_data Examples.series).
  - reflexivity.
  - reflexivity.
  - reflexivity.
  - discriminate.
Defined.

(** X14 on the second volume of the series. *)
Lemma range_of_volume_within_range_witness :
  exists lo hi h' lov hiv,
    range 0%nat None Examples.series_store = (Ok (lo, hi), h') /\
    range 0%nat (Some (inject_Z 1)) Examples.series_store
      = (Ok (lov, hiv), Examples.series_store) /\
    lo <= lov /\ lov <= hiv /\ hiv <= hi.
Proof.
  apply (range_of_volume_within_range (H := Examples.externals) Examples.series_store
           0%nat Examples.series_data Examples.unit_grid Examples.series 1).
  - exact series_store_valid.
  - reflexivity.
  - lia.
Defined.



(** X17 on the single volume of three slices. *)
Lemma set_2dt_once_witness :
  exists h' d' g',
    set_2dt 0%nat Examples.store = (Ok tt, h') /\
    objs h' = <[0%nat := d']> (objs Examples.store) /\
    grids h' = <[grid Examples.ramp_data := g']> (grids Examples.store) /\
    nvols d' = 3%Z /\ ndim d' = 4%Z /\ raw_2dt d' = true /\
    roi d' = roi Examples.ramp_data /\ rawdata d' = rawdata Examples.ramp_data /\
    grid d' = grid Examples.ramp_data /\
    DataGrid.shape g' = [2; 2; 1]%Z /\
    DataGrid.affine g' = DataGrid.affine Examples.unit_grid /\
    DataGrid.nvoxels g' = DataGrid.nvoxels Examples.unit_grid /\
    set_2dt 0%nat h' =
      (Raise (RuntimeError "Can only force to 2D timeseries if data was originally 3D static"),
       h').
Proof.
  apply (set_2dt_once Examples.store 0%nat Examples.ramp_data Examples.unit_grid 2 2 3).
  - reflexivity.
  - reflexivity.
  - reflexivity.
  - split; [reflexivity | discriminate].
Defined.

(** X18 on the ROI with the single voxel (1, 0, 2). *)
Lemma bounding_box_contains_witness :
  exists b0 e0 b1 e1 b2 e2 : nat,
    (forall ndim,
       get_bounding_box 0%nat ndim Examples.spot_store =
         (Ok (take ndim [Np.ISlice (Some (Z.of_nat b0)) (Some (Z.of_nat e0 + 1)%Z) None;
                         Np.ISlice (Some (Z.of_nat b1)) (Some (Z.of_nat e1 + 1)%Z) None;
                         Np.ISlice (Some (Z.of_nat b2)) (Some (Z.of_nat e2 + 1)%Z) None]
              ++ replicate (ndim - 3) Np.full_slice), Examples.spot_store)) /\
    (b0 <= e0 /\ b1 <= e1 /\ b2 <= e2)%nat /\
    Forall2 (fun e n => Z.of_nat e < n)%Z [e0; e1; e2] (DataGrid.shape Examples.unit_grid) /\
    (forall i j k x, Np.get_at Examples.spot [i; j; k] = Ok (Np.Scalar x) -> ~ x == 0 ->
                     (b0 <= i <= e0 /\ b1 <= j <= e1 /\ b2 <= k <= e2)%nat) /\
    Forall (fun p => exists idx x, idx !! fst p = Some (snd p) /\
                       Np.get_at Examples.spot idx = Ok (Np.Scalar x) /\ ~ x == 0)
           [(0, b0); (0, e0); (1, b1); (1, e1); (2, b2); (2, e2)]%nat.
Proof.
  apply (bounding_box_contains (H := Examples.externals) Examples.spot_store 0%nat
           Examples.spot_data Examples.unit_grid Examples.spot).
  - exact spot_store_valid.
  - reflexivity.
  - exists 1. split.
    + apply list_elem_of_In. vm_compute. tauto.
    + intros HF. discriminate HF.
Defined.

(** X19 on the series, which is no ROI, and on the ROI with no voxel set. *)
Lemma bounding_box_errors_witness :
  (forall ndim, get_bounding_box 0%nat ndim Examples.series_store =
     (Raise (RuntimeError "get_bounding_box() called on non-ROI data"),
      Examples.series_store)) /\
  get_bounding_box 0%nat 0 Examples.blank_store = (Ok [], Examples.blank_store) /\
  (forall ndim, (0 < ndim)%nat ->
     get_bounding_box 0%nat ndim Examples.blank_store
     = (Raise IndexError, Examples.blank_store)).
Proof.
  split.
  - apply (bounding_box_errors (H := Examples.externals) Examples.series_store 0%nat
             Examples.series_data Examples.unit_grid Examples.series series_store_valid).
    reflexivity.
  - apply (bounding_box_errors (H := Examples.externals) Examples.blank_store 0%nat
             Examples.blank_data Examples.unit_grid Examples.blank blank_store_valid).
    + reflexivity.
    + vm_compute. repeat constructor.
Defined.

(** X21: the example ROI resampled onto the twin of its grid. *)
Lemma resample_onto_matching_grid_witness :
  exists l d',
    resample (H := Examples.externals) 0%nat 1%nat 1 Examples.twin_store
      = (Ok l, {| grids := grids Examples.twin_store;
                  objs := <[l := d']> (objs Examples.twin_store) |}) /\
    objs Examples.twin_store !! l = None /\
    rawdata d' = Some Examples.ramp /\ grid d' = 1%nat /\
    roi d' = roi Examples.ramp_data /\ nvols d' = nvols Examples.ramp_data /\
    name d' = (name Examples.ramp_data +:+ "_resampled")%string.
Proof.
  apply (resample_onto_matching_grid (H := Examples.externals) Examples.twin_store 0%nat
           Examples.ramp_data Examples.unit_grid Examples.ramp 1%nat Examples.unit_twin 1).
  - exact twin_store_valid.
  - reflexivity.
  - reflexivity.
  - intros HF. discriminate HF.
Defined.

(** X22: the example ROI resampled onto the grid stretched by two. *)
Lemma resample_changes_nothing_else_witness :
  grids (snd (resample (H := Examples.linear_externals) 0%nat 1%nat 1 Examples.roi_store))
    = grids Examples.roi_store /\
  (forall l0 d0, objs Examples.roi_store !! l0 = Some d0 ->
     objs (snd (resample (H := Examples.linear_externals) 0%nat 1%nat 1 Examples.roi_store))
       !! l0 = Some d0).
Proof.
  destruct (resample_changes_nothing_else (H := Examples.linear_externals) 0%nat 1%nat 1
              Examples.roi_store
              (snd (resample (H := Examples.linear_externals) 0%nat 1%nat 1
                      Examples.roi_store))
              (fst (resample (H := Examples.linear_externals) 0%nat 1%nat 1
                      Examples.roi_store)))
    as (Hg & Ho & _).
  - apply surjective_pairing.
  - split; assumption.
Defined.

(** X23: the example ROI masked by itself. *)
Lemma mask_by_roi_witness :
  exists h' m,
    mask (H := Examples.externals) 0%nat (Some 0%nat) None None false false false
      Examples.store = (Ok (Single (MData m)), h') /\
    grids h' = grids Examples.store /\
    (forall l0 d0, objs Examples.store !! l0 = Some d0 -> objs h' !! l0 = Some d0) /\
    Np.shape m = Np.shape Examples.ramp /\
    forall idx x v,
      Np.get_at Examples.ramp idx = Ok (Np.Scalar x) ->
      Np.get_at Examples.ramp (take 3 idx) = Ok (Np.Scalar v) ->
      Np.get_at m idx =
        Ok (Np.Scalar (if xorb false (Np.Qlt_bool 0 v) then x else 0%Q)).
Proof.
  apply (mask_by_roi (H := Examples.externals) Examples.store 0%nat Examples.ramp_data
           Examples.unit_grid Examples.ramp 0%nat Examples.ramp_data Examples.unit_grid
           Examples.ramp None false).
  - exact store_valid.
  - exact store_valid.
  - reflexivity.
  - reflexivity.
  - intros HF. discriminate HF.
Defined.

(** X26 on the example ROI. *)
Lemma slice_data_ignores_order_witness :
  slice_data (H := Examples.externals) 0%nat 0%nat 0 0 Examples.store
  = slice_data (H := Examples.externals) 0%nat 0%nat 0 3 Examples.store.
Proof.
  apply (slice_data_ignores_order (H := Examples.externals) Examples.store 0%nat 0%nat
           Examples.ramp_data 0 0 3).
  - reflexivity.
  - left. reflexivity.
Defined.

(** X28: the series cut by the tilted plane; the second point of the slice
    lies outside the data. *)
Lemma affine_slice_mask_witness :
  Examples.tilted_store = Examples.tilted_store /\
  [[80 # 64; 0 # 64]; [0 # 64; 64 # 64]] = f_trans_v Examples.tilted_frame /\
  [-8192 # 32768; -16384 # 32768] = f_offset Examples.tilted_frame /\
  (roi Examples.series_data = true ->
   Forall (fun m => m = 1)
          (Np.flatten (Np.Arr [Np.Arr [Np.Scalar 1; Np.Scalar 0]]))) /\
  (roi Examples.series_data = false ->
   exists dmin, Np.amin (f_rawdata Examples.tilted_frame) = Ok dmin /\
     Forall2 (fun x m => (m = 1 /\ dmin <= x) \/ (m = 0 /\ x = 0))
             (Np.flatten (Np.Arr [Np.Arr [Np.Scalar 7; Np.Scalar 0]]))
             (Np.flatten (Np.Arr [Np.Arr [Np.Scalar 1; Np.Scalar 0]]))).
Proof.
  apply (affine_slice_mask (H := Examples.slicing_externals) Examples.tilted_store
           Examples.tilted_store 0%nat 1%nat Examples.series_data 0 1
           Examples.tilted_frame).
  - reflexivity.
  - reflexivity.
  - left. reflexivity.
  - reflexivity.
Defined.

Local Close Scope Q_scope.

